(** * The hardware texture cache of the GPU (src/core/gpu_hw_texture_cache.{h,cpp})

    A shallow embedding of [GPUTextureCache]: the page index, the source
    table, the hash cache, the VRAM decoders, the drawn-rectangle tracker and
    the ageing pass, followed by the properties established about them.

    Conventions of the embedding.
    - [u8], [u16], [u32], [u64] values are [Z] with the wrap-around written
      out ([u32 z = z mod 2^32]).
    - A [Source*] is an address [nat] into the store [sources] of allocated
      [Source] objects; a [SourceListNode*] is the pair (owner, index) that
      names [owner->page_refs[index]].
    - An intrusive [SourceList] (head, tail, prev, next) is represented by
      the sequence of its nodes from head to tail; the [list] back pointer of
      a node is kept in [page_refs] of its owner as an index into
      [m_page_sources].
    - [std::unordered_map] is an association list in iteration order; a
      pointer or iterator to an entry is the entry's key.
    - A failed [DebugAssert], [DefaultCaseIsUnreachable], an access outside
      an array and the use of a freed object are results [Err _]: debug
      builds stop there and release builds have undefined behaviour. *)

From stdpp Require Import base numbers list option gmap.
From Stdlib Require Import ZArith Lia.

Local Open Scope Z_scope.

(** ** Faults and the error monad *)

Inductive Fault : Type :=
  | AssertFailed
  | UnreachableCode
  | OutOfBounds
  | DanglingPointer.

Inductive Result (A : Type) : Type :=
  | Ok (a : A)
  | Err (f : Fault).

Arguments Ok {A} a.
Arguments Err {A} f.

Definition bind {A B : Type} (m : Result A) (k : A -> Result B) : Result B :=
  match m with
  | Ok a => k a
  | Err f => Err f
  end.

Notation "'do' x <- m ; k" := (bind m (fun x => k))
  (at level 10, x name, m at level 100, k at level 200).
Notation "'do' ' pat <- m ; k" := (bind m (fun x => match x with pat => k end))
  (at level 10, pat pattern, m at level 100, k at level 200).

Definition DebugAssert (b : bool) : Result unit :=
  if b then Ok tt else Err AssertFailed.

Definition from_option {A : Type} (f : Fault) (o : option A) : Result A :=
  match o with
  | Some a => Ok a
  | None => Err f
  end.

(** ** Machine integers *)

Definition u8 (z : Z) : Z := z mod 2 ^ 8.
Definition u32 (z : Z) : Z := z mod 2 ^ 32.

(** [static_cast<s32>] of a [u32] value. *)
Definition s32_of_u32 (z : Z) : Z :=
  if z <? 2 ^ 31 then z else z - 2 ^ 32.

(** ** Constants *)

(** Modelled from the spec: gpu_types.h is not under src/; the spec gives the
    VRAM as 1024x512 16-bit cells and a texture page as 256x256 texels. *)
Definition VRAM_WIDTH : Z := 1024.
Definition VRAM_HEIGHT : Z := 512.
Definition TEXTURE_PAGE_WIDTH : Z := 256.
Definition TEXTURE_PAGE_HEIGHT : Z := 256.

Definition VRAM_PAGE_WIDTH : Z := 64.
Definition VRAM_PAGE_HEIGHT : Z := 256.
Definition VRAM_PAGES_WIDE : Z := VRAM_WIDTH / VRAM_PAGE_WIDTH.
Definition VRAM_PAGES_HIGH : Z := VRAM_HEIGHT / VRAM_PAGE_HEIGHT.
Definition NUM_PAGES : Z := VRAM_PAGES_WIDE * VRAM_PAGES_HIGH.
Definition MAX_PAGE_REFS_PER_SOURCE : Z := 6.
Definition MAX_HASH_CACHE_AGE : Z := 600.
Definition MAX_HASH_CACHE_SIZE : Z := 200.

Definition PageIndex (px py : Z) : Z := u32 (u32 (py * VRAM_PAGES_WIDE) + px).

Definition VRAMCoordinateToPage (x y : Z) : Z :=
  PageIndex (x / VRAM_PAGE_WIDTH) (y / VRAM_PAGE_HEIGHT).

Definition PageStartX (pn : Z) : Z := u32 ((pn mod VRAM_PAGES_WIDE) * VRAM_PAGE_WIDTH).
Definition PageStartY (pn : Z) : Z := u32 ((pn / VRAM_PAGES_WIDE) * VRAM_PAGE_HEIGHT).

(** ** Rectangles *)

(** Modelled from the spec: common/rectangle.h is not under src/. A rectangle
    is (left, top, right, bottom) with exclusive right and bottom edges (the
    spec's [(rect.right-1)/PAGE_WIDTH]); [Include] is the bounding union,
    [Intersects] the overlap test, and width and height are the differences
    of the edges in [u32]. *)
Record Rectangle : Type := mkRect { left : Z; top : Z; right : Z; bottom : Z }.

Definition GetWidth (rc : Rectangle) : Z := u32 (right rc - left rc).
Definition GetHeight (rc : Rectangle) : Z := u32 (bottom rc - top rc).

Definition Include (rc rhs : Rectangle) : Rectangle :=
  {| left := Z.min (left rc) (left rhs);
     top := Z.min (top rc) (top rhs);
     right := Z.max (right rc) (right rhs);
     bottom := Z.max (bottom rc) (bottom rhs) |}.

Definition Intersects (rc rhs : Rectangle) : bool :=
  negb ((right rhs <=? left rc) || (right rc <=? left rhs)
        || (bottom rhs <=? top rc) || (bottom rc <=? top rhs)).

(** [rc] lies inside [outer]: the test at the head of [UpdateDrawnRect]. *)
Definition rect_within (rc outer : Rectangle) : bool :=
  (left outer <=? left rc) && (right rc <=? right outer)
  && (top outer <=? top rc) && (bottom rc <=? bottom outer).

(** ** Texture modes and keys *)

Inductive GPUTextureMode : Type :=
  | Palette4Bit
  | Palette8Bit
  | Direct16Bit
  | Reserved_Direct16Bit.

Definition mode_u8 (m : GPUTextureMode) : Z :=
  match m with
  | Palette4Bit => 0
  | Palette8Bit => 1
  | Direct16Bit => 2
  | Reserved_Direct16Bit => 3
  end.

(** [mode < GPUTextureMode::Direct16Bit] *)
Definition is_paletted (m : GPUTextureMode) : bool := mode_u8 m <? mode_u8 Direct16Bit.

(** [palette] holds [GPUTexturePaletteReg::bits]. *)
Record SourceKey : Type := mkSourceKey { page : Z; mode : GPUTextureMode; palette : Z }.

Record HashCacheKey : Type :=
  mkHashCacheKey { texture_hash : Z; palette_hash : Z; hk_mode : Z }.

#[global] Instance Fault_eq_dec : EqDecision Fault.
Proof. solve_decision. Defined.
#[global] Instance GPUTextureMode_eq_dec : EqDecision GPUTextureMode.
Proof. solve_decision. Defined.
#[global] Instance SourceKey_eq_dec : EqDecision SourceKey.
Proof. solve_decision. Defined.
#[global] Instance HashCacheKey_eq_dec : EqDecision HashCacheKey.
Proof. solve_decision. Defined.
#[global] Instance Rectangle_eq_dec : EqDecision Rectangle.
Proof. solve_decision. Defined.

(** Modelled from the spec: [GPUTexturePaletteReg] (gpu_types.h) is not under
    src/; [GetWidth(mode)] is 16 cells for the 4-bit mode and 256 for the
    8-bit mode. It is not called for the direct modes. *)
Definition PaletteGetWidth (m : GPUTextureMode) : Z :=
  match m with
  | Palette4Bit => 16
  | Palette8Bit => 256
  | _ => 0
  end.

Definition WidthForMode (m : GPUTextureMode) : Z :=
  Z.shiftr TEXTURE_PAGE_WIDTH (if is_paletted m then 2 - mode_u8 m else 0).

(** ** Collaborators *)

(** The functions of other translation units that the cache calls: the colour
    conversion and the palette register accessors of gpu_types.h and the
    XXH3 hash of xxhash.h, the latter over the 16-bit cells it is given. *)
Class Collaborators : Type := {
  VRAMRGBA5551ToRGBA8888 : Z -> Z;
  XXH3_64bits : list Z -> Z;
  GetXBase : Z -> Z;
  GetYBase : Z -> Z;
}.

(** Modelled from the spec: [g_vram] (gpu.h) is not under src/; it is a slice
    of [VRAM_WIDTH*VRAM_HEIGHT] 16-bit cells, here a function of the index
    with the bound checked at each read. *)
Definition VRAM : Type := Z -> Z.

Definition vram_read (g_vram : VRAM) (i : Z) : Result Z :=
  if (0 <=? i) && (i <? VRAM_WIDTH * VRAM_HEIGHT) then Ok (g_vram i) else Err OutOfBounds.

Definition vram_u16 (g_vram : VRAM) : Prop := forall i, 0 <= g_vram i < 2 ^ 16.

Definition VRAMPagePointer (pn : Z) : Z :=
  u32 (u32 (PageStartY pn * VRAM_WIDTH) + PageStartX pn).

(** ** Decoders *)

Section Decoders.
Context `{Collaborators}.
Variable g_vram : VRAM.

(** The row loop shared by the three decoders: [rows] rows are decoded,
    [page += VRAM_WIDTH] after each; the destination advances by its stride,
    so the output is the list of the decoded rows. *)
Fixpoint decode_rows (row : Z -> Result (list Z)) (rows : nat) (page_ptr : Z)
  : Result (list (list Z)) :=
  match rows with
  | O => Ok []
  | S rows' =>
      do r <- row page_ptr;
      do rest <- decode_rows row rows' (page_ptr + VRAM_WIDTH);
      Ok (r :: rest)
  end.

(** Inner loop of [DecodeTexture4]: [n] cells from [page_ptr], four texels
    from each. *)
Fixpoint DecodeTexture4_row (palette_ptr : Z) (n : nat) (page_ptr : Z) : Result (list Z) :=
  match n with
  | O => Ok []
  | S n' =>
      do pp <- vram_read g_vram page_ptr;
      do c0 <- vram_read g_vram (palette_ptr + Z.land pp 15);
      do c1 <- vram_read g_vram (palette_ptr + Z.land (Z.shiftr pp 4) 15);
      do c2 <- vram_read g_vram (palette_ptr + Z.land (Z.shiftr pp 8) 15);
      do c3 <- vram_read g_vram (palette_ptr + Z.shiftr pp 12);
      do rest <- DecodeTexture4_row palette_ptr n' (page_ptr + 1);
      Ok (VRAMRGBA5551ToRGBA8888 c0 :: VRAMRGBA5551ToRGBA8888 c1
          :: VRAMRGBA5551ToRGBA8888 c2 :: VRAMRGBA5551ToRGBA8888 c3 :: rest)
  end.

(** Inner loop of [DecodeTexture8]: two texels from each cell. *)
Fixpoint DecodeTexture8_row (palette_ptr : Z) (n : nat) (page_ptr : Z) : Result (list Z) :=
  match n with
  | O => Ok []
  | S n' =>
      do pp <- vram_read g_vram page_ptr;
      do c0 <- vram_read g_vram (palette_ptr + Z.land pp 255);
      do c1 <- vram_read g_vram (palette_ptr + Z.shiftr pp 8);
      do rest <- DecodeTexture8_row palette_ptr n' (page_ptr + 1);
      Ok (VRAMRGBA5551ToRGBA8888 c0 :: VRAMRGBA5551ToRGBA8888 c1 :: rest)
  end.

(** Inner loop of [DecodeTexture16]: one texel from each cell. *)
Fixpoint DecodeTexture16_row (n : nat) (page_ptr : Z) : Result (list Z) :=
  match n with
  | O => Ok []
  | S n' =>
      do c <- vram_read g_vram page_ptr;
      do rest <- DecodeTexture16_row n' (page_ptr + 1);
      Ok (VRAMRGBA5551ToRGBA8888 c :: rest)
  end.

Definition DecodeTexture4 (page_ptr palette_ptr : Z) : Result (list (list Z)) :=
  decode_rows (DecodeTexture4_row palette_ptr (Z.to_nat (TEXTURE_PAGE_WIDTH / 4)))
    (Z.to_nat TEXTURE_PAGE_HEIGHT) page_ptr.

Definition DecodeTexture8 (page_ptr palette_ptr : Z) : Result (list (list Z)) :=
  decode_rows (DecodeTexture8_row palette_ptr (Z.to_nat (TEXTURE_PAGE_WIDTH / 2)))
    (Z.to_nat TEXTURE_PAGE_HEIGHT) page_ptr.

Definition DecodeTexture16 (page_ptr : Z) : Result (list (list Z)) :=
  decode_rows (DecodeTexture16_row (Z.to_nat TEXTURE_PAGE_WIDTH))
    (Z.to_nat TEXTURE_PAGE_HEIGHT) page_ptr.

(** [&g_vram[palette.GetYBase() * VRAM_WIDTH + palette.GetXBase()]] *)
Definition PalettePointer (pal : Z) : Z :=
  u32 (u32 (GetYBase pal * VRAM_WIDTH) + GetXBase pal).

(** [DecodeTexture(page, palette, mode, dest, dest_stride)]; the result is
    the 256 rows of 256 RGBA8 texels written to [dest]. *)
Definition DecodeTexture (pn : Z) (pal : Z) (m : GPUTextureMode) : Result (list (list Z)) :=
  let page_ptr := VRAMPagePointer pn in
  match m with
  | Palette4Bit => DecodeTexture4 page_ptr (PalettePointer pal)
  | Palette8Bit => DecodeTexture8 page_ptr (PalettePointer pal)
  | Direct16Bit | Reserved_Direct16Bit => DecodeTexture16 page_ptr
  end.

(** *** Hashing *)

(** [n] consecutive cells from [ptr], the bytes handed to XXH3. *)
Fixpoint vram_cells (n : nat) (ptr : Z) : Result (list Z) :=
  match n with
  | O => Ok []
  | S n' =>
      do c <- vram_read g_vram ptr;
      do rest <- vram_cells n' (ptr + 1);
      Ok (c :: rest)
  end.

(** The row loop of [HashPage]: [XXH3_64bits_update] adds the row to the
    streamed input (the chunks so far, the latest last), then
    [page_ptr += VRAM_WIDTH]. *)
Fixpoint HashPage_rows (rows : nat) (cells : Z) (page_ptr : Z) : Result (list (list Z)) :=
  match rows with
  | O => Ok []
  | S rows' =>
      do r <- vram_cells (Z.to_nat cells) page_ptr;
      do rest <- HashPage_rows rows' cells (page_ptr + VRAM_WIDTH);
      Ok (r :: rest)
  end.

(** [XXH3_64bits_digest]: the hash of the streamed input as a whole. *)
Definition XXH3_64bits_digest (state : list (list Z)) : Z := XXH3_64bits (concat state).

Definition HashPage (pn : Z) (m : GPUTextureMode) : Result Z :=
  let page_ptr := VRAMPagePointer pn in
  do state <-
    match m with
    | Palette4Bit =>
        HashPage_rows (Z.to_nat VRAM_PAGE_HEIGHT) VRAM_PAGE_WIDTH page_ptr
    | Palette8Bit =>
        HashPage_rows (Z.to_nat VRAM_PAGE_HEIGHT) (VRAM_PAGE_WIDTH * 2) page_ptr
    | Direct16Bit =>
        HashPage_rows (Z.to_nat VRAM_PAGE_HEIGHT) (VRAM_PAGE_WIDTH * 4) page_ptr
    | Reserved_Direct16Bit => Err UnreachableCode
    end;
  Ok (XXH3_64bits_digest state).

Definition HashPalette (pal : Z) (m : GPUTextureMode) : Result Z :=
  let base := PalettePointer pal in
  match m with
  | Palette4Bit => do cells <- vram_cells 16 base; Ok (XXH3_64bits cells)
  | Palette8Bit => do cells <- vram_cells 256 base; Ok (XXH3_64bits cells)
  | _ => Err UnreachableCode
  end.

End Decoders.

(** ** The device *)

(** A host texture: its address and the RGBA8 texels last written to it. *)
Record GPUTexture : Type := mkTexture { tex_id : Z; pixels : list (list Z) }.

(** Modelled from the spec: [g_gpu_device] (util/gpu_device.h) is not under
    src/. [FetchTexture] gives an owned texture or null and [RecycleTexture]
    takes one back. The device is a script: [pool] lists what the coming
    [FetchTexture] calls return (null once it is exhausted), [fetches] counts
    the calls made and [recycled] collects the textures handed back, the
    latest first. *)
Record GPUDevice : Type :=
  mkDevice { pool : list (option GPUTexture); fetches : Z; recycled : list GPUTexture }.

Definition FetchTexture (dev : GPUDevice) : option GPUTexture * GPUDevice :=
  match pool dev with
  | [] => (None, {| pool := []; fetches := fetches dev + 1; recycled := recycled dev |})
  | t :: rest => (t, {| pool := rest; fetches := fetches dev + 1; recycled := recycled dev |})
  end.

Definition RecycleTexture (t : GPUTexture) (dev : GPUDevice) : GPUDevice :=
  {| pool := pool dev; fetches := fetches dev; recycled := t :: recycled dev |}.

(** ** The state of the cache *)

Record HashCacheEntry : Type :=
  mkEntry { he_texture : GPUTexture; ref_count : Z; age : Z }.

(** [&owner->page_refs[index]] *)
Definition SourceListNode : Type := nat * Z.
Definition SourceList : Type := list SourceListNode.

(** [texture] is the borrowed [GPUTexture*], [from_hash_cache] the
    [HashCacheEntry*] (null is [None]) and [page_refs] holds, for each of the
    [MAX_PAGE_REFS_PER_SOURCE] nodes, the page whose list the node is on
    (its [list] pointer, null until the node is linked). *)
Record Source : Type := mkSource {
  key : SourceKey;
  num_page_refs : Z;
  texture : Z;
  from_hash_cache : option HashCacheKey;
  page_refs : list (option Z);
}.

Definition HashCache : Type := list (HashCacheKey * HashCacheEntry).

(** The members of [GPUTextureCache], and with them the [Source] objects it
    has allocated: [sources] maps the address of each live [Source] to its
    contents and [next_source] is the address the next [new Source()]
    returns. *)
Record GPUTextureCache : Type := mkCache {
  m_drawn_rect : Rectangle;
  m_hash_cache : HashCache;
  m_page_sources : list SourceList;
  s_hash_cache_purge_list : list (HashCacheKey * Z);
  sources : gmap nat Source;
  next_source : nat;
}.

Definition set_drawn_rect (r : Rectangle) (tc : GPUTextureCache) : GPUTextureCache :=
  mkCache r (m_hash_cache tc) (m_page_sources tc) (s_hash_cache_purge_list tc)
    (sources tc) (next_source tc).
Definition set_hash_cache (hc : HashCache) (tc : GPUTextureCache) : GPUTextureCache :=
  mkCache (m_drawn_rect tc) hc (m_page_sources tc) (s_hash_cache_purge_list tc)
    (sources tc) (next_source tc).
Definition set_page_sources (ps : list SourceList) (tc : GPUTextureCache) : GPUTextureCache :=
  mkCache (m_drawn_rect tc) (m_hash_cache tc) ps (s_hash_cache_purge_list tc)
    (sources tc) (next_source tc).
Definition set_purge_list (pl : list (HashCacheKey * Z)) (tc : GPUTextureCache)
  : GPUTextureCache :=
  mkCache (m_drawn_rect tc) (m_hash_cache tc) (m_page_sources tc) pl
    (sources tc) (next_source tc).
Definition set_sources (h : gmap nat Source) (tc : GPUTextureCache) : GPUTextureCache :=
  mkCache (m_drawn_rect tc) (m_hash_cache tc) (m_page_sources tc)
    (s_hash_cache_purge_list tc) h (next_source tc).
Definition set_next_source (n : nat) (tc : GPUTextureCache) : GPUTextureCache :=
  mkCache (m_drawn_rect tc) (m_hash_cache tc) (m_page_sources tc)
    (s_hash_cache_purge_list tc) (sources tc) n.

(** *** The hash cache as a table *)

Fixpoint hc_find (k : HashCacheKey) (hc : HashCache) : option HashCacheEntry :=
  match hc with
  | [] => None
  | (k', e) :: rest => if decide (k' = k) then Some e else hc_find k rest
  end.

(** Assignment through a pointer to the entry at [k]. *)
Fixpoint hc_store (k : HashCacheKey) (e : HashCacheEntry) (hc : HashCache) : HashCache :=
  match hc with
  | [] => []
  | (k', e') :: rest =>
      if decide (k' = k) then (k', e) :: rest else (k', e') :: hc_store k e rest
  end.

Fixpoint hc_erase (k : HashCacheKey) (hc : HashCache) : HashCache :=
  match hc with
  | [] => []
  | (k', e') :: rest => if decide (k' = k) then rest else (k', e') :: hc_erase k rest
  end.

(** *** The intrusive lists *)

(** The sequence without its first occurrence of [n]. *)
Fixpoint list_without (n : SourceListNode) (l : SourceList) : SourceList :=
  match l with
  | [] => []
  | h :: rest => if decide (h = n) then rest else h :: list_without n rest
  end.

(** Write [owner->page_refs[ri].list = &m_page_sources[pn]]. *)
Definition set_node_list (owner : nat) (ri pn : Z) (tc : GPUTextureCache)
  : Result GPUTextureCache :=
  do s <- from_option DanglingPointer (sources tc !! owner);
  do _ <- from_option OutOfBounds (page_refs s !! Z.to_nat ri);
  let s' := mkSource (key s) (num_page_refs s) (texture s) (from_hash_cache s)
              (<[Z.to_nat ri := Some pn]> (page_refs s)) in
  Ok (set_sources (<[owner := s']> (sources tc)) tc).

(** [ListPrepend(&m_page_sources[pn], item, &item->page_refs[ri])] *)
Definition ListPrepend (pn : Z) (item : nat) (ri : Z) (tc : GPUTextureCache)
  : Result GPUTextureCache :=
  do l <- from_option OutOfBounds (m_page_sources tc !! Z.to_nat pn);
  do tc1 <- set_node_list item ri pn tc;
  Ok (set_page_sources (<[Z.to_nat pn := (item, ri) :: l]> (m_page_sources tc1)) tc1).

(** [ListAppend(&m_page_sources[pn], item, &item->page_refs[ri])] *)
Definition ListAppend (pn : Z) (item : nat) (ri : Z) (tc : GPUTextureCache)
  : Result GPUTextureCache :=
  do l <- from_option OutOfBounds (m_page_sources tc !! Z.to_nat pn);
  do tc1 <- set_node_list item ri pn tc;
  Ok (set_page_sources (<[Z.to_nat pn := l ++ [(item, ri)]]> (m_page_sources tc1)) tc1).

(** [ListMoveToFront(list, item_node)]: nothing to do when the node has no
    predecessor, that is when it is the head. *)
Definition ListMoveToFront (l : SourceList) (item_node : SourceListNode) : Result SourceList :=
  match l with
  | [] => Err AssertFailed
  | h :: _ => if decide (h = item_node) then Ok l else Ok (item_node :: list_without item_node l)
  end.

(** [ListUnlink(node)] for the node [node] whose [list] is page [pn]. *)
Definition ListUnlink (node : SourceListNode) (pn : Z) (ps : list SourceList)
  : Result (list SourceList) :=
  do l <- from_option OutOfBounds (ps !! Z.to_nat pn);
  Ok (<[Z.to_nat pn := list_without node l]> ps).

(** ** Page loops *)

(** Number of iterations of [for (i = first; i <= last; i++)]. *)
Definition loop_count (first last : Z) : nat := Z.to_nat (last - first + 1).

Section LoopPages.
Context {St : Type}.
Variable f : Z -> St -> Result St.

(** The inner loop: [f(page_number)] for each page column, with
    [y_page_number++] beside it. *)
Fixpoint LoopPages_x (columns : nat) (page_number y_page_number : Z) (s : St) : Result St :=
  match columns with
  | O => Ok s
  | S columns' =>
      do s' <- f page_number s;
      LoopPages_x columns' page_number (u32 (y_page_number + 1)) s'
  end.

(** The outer loop: one inner loop for each page row, then
    [page_number += VRAM_PAGES_WIDE]. *)
Fixpoint LoopPages_y (rows columns : nat) (page_number : Z) (s : St) : Result St :=
  match rows with
  | O => Ok s
  | S rows' =>
      let y_page_number := page_number in
      do s' <- LoopPages_x columns page_number y_page_number s;
      LoopPages_y rows' columns (u32 (page_number + VRAM_PAGES_WIDE)) s'
  end.

Definition LoopPages (x y width height : Z) (s : St) : Result St :=
  do _ <- DebugAssert ((0 <? width) && (0 <? height));
  do _ <- DebugAssert ((u32 (x + width) <=? VRAM_WIDTH) && (u32 (y + height) <=? VRAM_HEIGHT));
  let start_x := x / VRAM_PAGE_WIDTH in
  let start_y := y / VRAM_PAGE_HEIGHT in
  let end_x := u32 (x + u32 (width - 1)) / VRAM_PAGE_WIDTH in
  let end_y := u32 (y + u32 (height - 1)) / VRAM_PAGE_HEIGHT in
  LoopPages_y (loop_count start_y end_y) (loop_count start_x end_x)
    (PageIndex start_x start_y) s.
End LoopPages.

(** ** Invalidation *)

(** [for (i = 0; i < src->num_page_refs; i++) ListUnlink(src->page_refs[i])],
    from index [i] on, [count] iterations. *)
Fixpoint unlink_page_refs (src : nat) (s : Source) (count : nat) (i : Z)
    (ps : list SourceList) : Result (list SourceList) :=
  match count with
  | O => Ok ps
  | S count' =>
      do node_list <- from_option OutOfBounds (page_refs s !! Z.to_nat i);
      do pn <- from_option DanglingPointer node_list;
      do ps' <- ListUnlink (src, i) pn ps;
      unlink_page_refs src s count' (i + 1) ps'
  end.

(** The body of the loop of [InvalidatePage] for the source [src]. *)
Definition destroy_source (src : nat) (tc : GPUTextureCache) : Result GPUTextureCache :=
  do s <- from_option DanglingPointer (sources tc !! src);
  do ps <- unlink_page_refs src s (Z.to_nat (num_page_refs s)) 0 (m_page_sources tc);
  do hc <-
    match from_hash_cache s with
    | Some hk =>
        do e <- from_option DanglingPointer (hc_find hk (m_hash_cache tc));
        do _ <- DebugAssert (0 <? ref_count e);
        Ok (hc_store hk (mkEntry (he_texture e) (u32 (ref_count e - 1)) (age e)) (m_hash_cache tc))
    | None => Ok (m_hash_cache tc)
    end;
  Ok (set_sources (delete src (sources tc)) (set_hash_cache hc (set_page_sources ps tc))).

(** The walk of [InvalidatePage] over the nodes of the page list; [n->next]
    is read before the owner of [n] is destroyed. *)
Fixpoint InvalidatePage_walk (nodes : SourceList) (tc : GPUTextureCache)
  : Result GPUTextureCache :=
  match nodes with
  | [] => Ok tc
  | n :: rest =>
      do tc' <- destroy_source (fst n) tc;
      InvalidatePage_walk rest tc'
  end.

Definition InvalidatePage (pn : Z) (tc : GPUTextureCache) : Result GPUTextureCache :=
  do _ <- DebugAssert (pn <? NUM_PAGES);
  do ps <- from_option OutOfBounds (m_page_sources tc !! Z.to_nat pn);
  do tc' <- InvalidatePage_walk ps tc;
  Ok (set_page_sources (<[Z.to_nat pn := []]> (m_page_sources tc')) tc').

Definition InvalidatePages (x y width height : Z) (tc : GPUTextureCache)
  : Result GPUTextureCache :=
  LoopPages InvalidatePage x y width height tc.

Definition InvalidatePages_rect (rc : Rectangle) (tc : GPUTextureCache)
  : Result GPUTextureCache :=
  InvalidatePages (left rc) (top rc) (GetWidth rc) (GetHeight rc) tc.

(** [for (i = first; i < NUM_PAGES; i++) InvalidatePage(i)], [count] iterations. *)
Fixpoint Clear_loop (count : nat) (i : Z) (tc : GPUTextureCache) : Result GPUTextureCache :=
  match count with
  | O => Ok tc
  | S count' =>
      do tc' <- InvalidatePage i tc;
      Clear_loop count' (i + 1) tc'
  end.

Definition Clear (tc : GPUTextureCache) : Result GPUTextureCache :=
  Clear_loop (Z.to_nat NUM_PAGES) 0 tc.

(** ** The drawn rectangle *)

Definition UpdateDrawnRect (rect : Rectangle) (tc : GPUTextureCache) : GPUTextureCache :=
  if rect_within rect (m_drawn_rect tc) then tc
  else set_drawn_rect (Include (m_drawn_rect tc) rect) tc.

Definition InvalidateFromWrite (rect : Rectangle) (tc : GPUTextureCache)
  : Result GPUTextureCache :=
  if Intersects (m_drawn_rect tc) rect then
    let tc1 := set_drawn_rect (Include (m_drawn_rect tc) rect) tc in
    InvalidatePages_rect (m_drawn_rect tc1) tc1
  else
    InvalidatePages_rect rect tc.

(** ** The lookup path *)

Section Lookup.
Context `{Collaborators}.
Variable g_vram : VRAM.

(** The result is the pointer to the entry (null is [None]). A new entry
    goes to the front of the iteration order; where [emplace] puts it is
    left to the implementation of [std::unordered_map]. *)
Definition LookupHashCache (k : SourceKey) (tc : GPUTextureCache) (dev : GPUDevice)
  : Result (option HashCacheKey * GPUTextureCache * GPUDevice) :=
  do tex_hash <- HashPage g_vram (page k) (mode k);
  do pal_hash <- (if is_paletted (mode k) then HashPalette g_vram (palette k) (mode k)
                  else Ok 0);
  let hkey := mkHashCacheKey tex_hash pal_hash (mode_u8 (mode k)) in
  match hc_find hkey (m_hash_cache tc) with
  | Some _ => Ok (Some hkey, tc, dev)
  | None =>
      let (fetched, dev') := FetchTexture dev in
      match fetched with
      | None => Ok (None, tc, dev')
      | Some t =>
          do texels <- DecodeTexture g_vram (page k) (palette k) (mode k);
          let entry := mkEntry (mkTexture (tex_id t) texels) 0 0 in
          Ok (Some hkey, set_hash_cache ((hkey, entry) :: m_hash_cache tc) tc, dev')
      end
  end.

(** The closures [add_page_ref] and [add_page_ref_back] of [CreateSource],
    over the local array [page_refns] and the cache; [link] is
    [ListPrepend] or [ListAppend]. *)
Definition add_page_ref_with
    (link : Z -> nat -> Z -> GPUTextureCache -> Result GPUTextureCache)
    (src : nat) (pn : Z) (st : list Z * GPUTextureCache)
  : Result (list Z * GPUTextureCache) :=
  let (page_refns, tc) := st in
  do s <- from_option DanglingPointer (sources tc !! src);
  if existsb (Z.eqb pn) (take (Z.to_nat (num_page_refs s)) page_refns) then Ok st
  else
    let ri := num_page_refs s in
    let s' := mkSource (key s) (u32 (ri + 1)) (texture s) (from_hash_cache s) (page_refs s) in
    let tc1 := set_sources (<[src := s']> (sources tc)) tc in
    do _ <- from_option OutOfBounds (page_refns !! Z.to_nat ri);
    let page_refns' := <[Z.to_nat ri := pn]> page_refns in
    do tc2 <- link pn src ri tc1;
    Ok (page_refns', tc2).

Definition add_page_ref := add_page_ref_with ListPrepend.
Definition add_page_ref_back := add_page_ref_with ListAppend.

(** The result is the new [Source*] (null is [None]). *)
Definition CreateSource (k : SourceKey) (tc : GPUTextureCache) (dev : GPUDevice)
  : Result (option nat * GPUTextureCache * GPUDevice) :=
  do '(hcentry, tc1, dev1) <- LookupHashCache k tc dev;
  match hcentry with
  | None => Ok (None, tc1, dev1)
  | Some hk =>
      do e <- from_option DanglingPointer (hc_find hk (m_hash_cache tc1));
      let e' := mkEntry (he_texture e) (u32 (ref_count e + 1)) 0 in
      let tc2 := set_hash_cache (hc_store hk e' (m_hash_cache tc1)) tc1 in
      let src := next_source tc2 in
      let s := mkSource k 0 (tex_id (he_texture e)) (Some hk)
                 (replicate (Z.to_nat MAX_PAGE_REFS_PER_SOURCE) None) in
      let tc3 := set_next_source (S src) (set_sources (<[src := s]> (sources tc2)) tc2) in
      let page_refns := replicate (Z.to_nat MAX_PAGE_REFS_PER_SOURCE) 0 in
      do st4 <- LoopPages (add_page_ref src) (PageStartX (page k)) (PageStartY (page k))
                  (WidthForMode (mode k)) TEXTURE_PAGE_HEIGHT (page_refns, tc3);
      do st5 <- (if is_paletted (mode k) then
                   LoopPages (add_page_ref_back src) (GetXBase (palette k))
                     (GetYBase (palette k)) (PaletteGetWidth (mode k)) 1 st4
                 else Ok st4);
      Ok (Some src, snd st5, dev1)
  end.

(** The walk of [LookupSource] over the list of the primary page: the first
    node whose source has the key [k]. *)
Fixpoint LookupSource_walk (k : SourceKey) (heap : gmap nat Source) (l : SourceList)
  : Result (option SourceListNode) :=
  match l with
  | [] => Ok None
  | n :: rest =>
      do s <- from_option DanglingPointer (heap !! fst n);
      if decide (key s = k) then Ok (Some n) else LookupSource_walk k heap rest
  end.

Definition LookupSource (k : SourceKey) (tc : GPUTextureCache) (dev : GPUDevice)
  : Result (option nat * GPUTextureCache * GPUDevice) :=
  do l <- from_option OutOfBounds (m_page_sources tc !! Z.to_nat (page k));
  do hit <- LookupSource_walk k (sources tc) l;
  match hit with
  | Some n =>
      do l' <- ListMoveToFront l n;
      Ok (Some (fst n),
          set_page_sources (<[Z.to_nat (page k) := l']> (m_page_sources tc)) tc, dev)
  | None => CreateSource k tc dev
  end.
End Lookup.

(** ** Ageing *)

Definition u64 (z : Z) : Z := z mod 2 ^ 64.

(** [RemoveFromHashCache(it)] for the iterator to the entry at [k]. *)
Definition RemoveFromHashCache (k : HashCacheKey) (st : HashCache * GPUDevice)
  : HashCache * GPUDevice :=
  match hc_find k (fst st) with
  | Some e => (hc_erase k (fst st), RecycleTexture (he_texture e) (snd st))
  | None => st
  end.

(** What the first loop of [AgeHashCache] carries along: the size of the
    table, [might_need_cache_purge], the purge list and the device. *)
Record AgeState : Type := mkAge {
  table_size : Z;
  might_need_cache_purge : bool;
  purge_list : list (HashCacheKey * Z);
  age_device : GPUDevice;
}.

(** The first loop of [AgeHashCache] over the entries still to visit; the
    result holds the entries that stay, in order. *)
Fixpoint AgeHashCache_pass (entries : HashCache) (st : AgeState) : HashCache * AgeState :=
  match entries with
  | [] => ([], st)
  | (k, e) :: rest =>
      if 0 <? ref_count e then
        let (kept, st') := AgeHashCache_pass rest st in ((k, e) :: kept, st')
      else
        let age' := u32 (age e + 1) in
        if MAX_HASH_CACHE_AGE <? age' then
          AgeHashCache_pass rest
            (mkAge (table_size st - 1) (might_need_cache_purge st) (purge_list st)
               (RecycleTexture (he_texture e) (age_device st)))
        else
          let st1 :=
            if might_need_cache_purge st then
              if MAX_HASH_CACHE_SIZE <? table_size st then
                mkAge (table_size st) true (purge_list st ++ [(k, s32_of_u32 age')])
                  (age_device st)
              else mkAge (table_size st) false (purge_list st) (age_device st)
            else st in
          let (kept, st') := AgeHashCache_pass rest st1 in
          ((k, mkEntry (he_texture e) (ref_count e) age') :: kept, st')
  end.

(** [std::sort] of the purge list by age, greatest first. The order among
    equal ages is not fixed by [std::sort]; this insertion sort is one of
    the orders it may give. *)
Fixpoint insert_by_age (x : HashCacheKey * Z) (l : list (HashCacheKey * Z))
  : list (HashCacheKey * Z) :=
  match l with
  | [] => [x]
  | y :: rest => if snd y <? snd x then x :: l else y :: insert_by_age x rest
  end.

Definition sort_by_age (l : list (HashCacheKey * Z)) : list (HashCacheKey * Z) :=
  foldr insert_by_age [] l.

(** [for (i = 0; i < entries_to_purge; i++) RemoveFromHashCache(list[i].first)] *)
Fixpoint purge_entries (entries_to_purge : nat) (l : list (HashCacheKey * Z))
    (st : HashCache * GPUDevice) : HashCache * GPUDevice :=
  match entries_to_purge, l with
  | S n, (k, _) :: rest => purge_entries n rest (RemoveFromHashCache k st)
  | _, _ => st
  end.

Definition AgeHashCache (tc : GPUTextureCache) (dev : GPUDevice)
  : GPUTextureCache * GPUDevice :=
  let size0 := Z.of_nat (length (m_hash_cache tc)) in
  let might0 := MAX_HASH_CACHE_SIZE <? size0 in
  let purge0 := if might0 then [] else s_hash_cache_purge_list tc in
  let (kept, st) := AgeHashCache_pass (m_hash_cache tc) (mkAge size0 might0 purge0 dev) in
  if might_need_cache_purge st then
    let sorted := sort_by_age (purge_list st) in
    let entries_to_purge :=
      Z.min (u32 (u64 (table_size st - MAX_HASH_CACHE_SIZE)))
            (u32 (Z.of_nat (length sorted))) in
    let (hc, dev') := purge_entries (Z.to_nat entries_to_purge) sorted (kept, age_device st) in
    (set_purge_list sorted (set_hash_cache hc tc), dev')
  else
    (set_purge_list (purge_list st) (set_hash_cache kept tc), age_device st).

(** [AgeHashCache] called [n] times in a row. *)
Fixpoint AgeHashCache_times (n : nat) (tc : GPUTextureCache) (dev : GPUDevice)
  : GPUTextureCache * GPUDevice :=
  match n with
  | O => (tc, dev)
  | S n' => let (tc', dev') := AgeHashCache tc dev in AgeHashCache_times n' tc' dev'
  end.

(** ** Calls between two lookups *)

(** What may run between two lookups of a key when there is no
    invalidation, no clear and no change of the VRAM: lookups of any key,
    draws, and the ageing of the table. *)
Inductive BetweenOp : Type :=
  | BetweenLookup (k : SourceKey)
  | BetweenDraw (rect : Rectangle)
  | BetweenAge.

Section Between.
Context `{Collaborators}.
Variable g_vram : VRAM.

Definition run_between_op (op : BetweenOp) (st : GPUTextureCache * GPUDevice)
  : Result (GPUTextureCache * GPUDevice) :=
  match op with
  | BetweenLookup k =>
      do '(_, tc, dev) <- LookupSource g_vram k st.1 st.2;
      Ok (tc, dev)
  | BetweenDraw rect => Ok (UpdateDrawnRect rect st.1, st.2)
  | BetweenAge => Ok (AgeHashCache st.1 st.2)
  end.

Fixpoint run_between (ops : list BetweenOp) (st : GPUTextureCache * GPUDevice)
  : Result (GPUTextureCache * GPUDevice) :=
  match ops with
  | [] => Ok st
  | op :: rest =>
      do st' <- run_between_op op st;
      run_between rest st'
  end.
End Between.

(** ** Reference definitions

    What the specification says in its own words, to be compared with the
    code above. *)

(** The rectangle of VRAM that page [pn] covers. *)
Definition page_rect (pn : Z) : Rectangle :=
  mkRect (PageStartX pn) (PageStartY pn)
    (PageStartX pn + VRAM_PAGE_WIDTH) (PageStartY pn + VRAM_PAGE_HEIGHT).

(** The pages whose rectangle intersects [rc], in increasing order. *)
Definition pages_intersecting (rc : Rectangle) : list Z :=
  List.filter (fun pn => Intersects (page_rect pn) rc) (seqZ 0 NUM_PAGES).

(** The texture footprint of a key and the row of its CLUT. *)
Definition footprint_rect (k : SourceKey) : Rectangle :=
  mkRect (PageStartX (page k)) (PageStartY (page k))
    (PageStartX (page k) + WidthForMode (mode k))
    (PageStartY (page k) + TEXTURE_PAGE_HEIGHT).

Definition clut_rect `{Collaborators} (k : SourceKey) : Rectangle :=
  mkRect (GetXBase (palette k)) (GetYBase (palette k))
    (GetXBase (palette k) + PaletteGetWidth (mode k)) (GetYBase (palette k) + 1).

(** The pages a source with key [k] is to be linked on. *)
Definition source_pages `{Collaborators} (k : SourceKey) : list Z :=
  List.filter (fun pn => Intersects (page_rect pn) (footprint_rect k)
                         || (is_paletted (mode k) && Intersects (page_rect pn) (clut_rect k)))
    (seqZ 0 NUM_PAGES).

(** The pages on whose list the source at address [src] has a node. *)
Definition linked_pages (src : nat) (tc : GPUTextureCache) : list Z :=
  List.filter (fun pn => match m_page_sources tc !! Z.to_nat pn with
                         | Some l => existsb (fun n => Nat.eqb (fst n) src) l
                         | None => false
                         end)
    (seqZ 0 NUM_PAGES).

(** The page numbers that [LoopPages] hands to its callback, in order. *)
Definition LoopPages_calls (x y width height : Z) : Result (list Z) :=
  LoopPages (fun pn calls => Ok (calls ++ [pn])) x y width height [].

(** The texel at column [x] of row [y] of a decoded page. *)
Definition texel (dest : list (list Z)) (y x : Z) : option Z :=
  match dest !! Z.to_nat y with
  | Some row => row !! Z.to_nat x
  | None => None
  end.

(** Nibble [i] and byte [i] of a cell, counted from the low end. *)
Definition nibble (cell i : Z) : Z := Z.land (Z.shiftr cell (4 * i)) 15.
Definition byte_of (cell i : Z) : Z := Z.land (Z.shiftr cell (8 * i)) 255.

(** The texel that the specification asks for at column [x] of row [y]. *)
Definition reference_texel `{Collaborators} (g_vram : VRAM) (pn pal : Z)
    (m : GPUTextureMode) (y x : Z) : Z :=
  let page_ptr := VRAMPagePointer pn in
  let clut := PalettePointer pal in
  match m with
  | Palette4Bit =>
      VRAMRGBA5551ToRGBA8888
        (g_vram (clut + nibble (g_vram (page_ptr + y * VRAM_WIDTH + x / 4)) (x mod 4)))
  | Palette8Bit =>
      VRAMRGBA5551ToRGBA8888
        (g_vram (clut + byte_of (g_vram (page_ptr + y * VRAM_WIDTH + x / 2)) (x mod 2)))
  | Direct16Bit | Reserved_Direct16Bit =>
      VRAMRGBA5551ToRGBA8888 (g_vram (page_ptr + y * VRAM_WIDTH + x))
  end.

(** The cells that a decode of page [pn] reads lie inside [g_vram]. *)
Definition decode_in_bounds `{Collaborators} (pn pal : Z) (m : GPUTextureMode) : Prop :=
  VRAMPagePointer pn + (TEXTURE_PAGE_HEIGHT - 1) * VRAM_WIDTH + WidthForMode m
    <= VRAM_WIDTH * VRAM_HEIGHT
  /\ (is_paletted m = true ->
      PalettePointer pal + PaletteGetWidth m <= VRAM_WIDTH * VRAM_HEIGHT).

(** *** Draws and writes *)

Inductive DrawOp : Type :=
  | Draw (rect : Rectangle)
  | Write (rect : Rectangle).

(** [UpdateDrawnRect] for a draw, [InvalidateFromWrite] for a write. *)
Fixpoint run_ops (ops : list DrawOp) (tc : GPUTextureCache) : Result GPUTextureCache :=
  match ops with
  | [] => Ok tc
  | Draw r :: rest => run_ops rest (UpdateDrawnRect r tc)
  | Write r :: rest => do tc' <- InvalidateFromWrite r tc; run_ops rest tc'
  end.

(** The empty rectangle, neutral for [Include]. *)
Definition empty_rect : Rectangle := mkRect (2 ^ 32 - 1) (2 ^ 32 - 1) 0 0.

(** The drawn rectangle as the specification describes it: the union of the
    draws since the last write. *)
Fixpoint drawn_since_last_write (ops : list DrawOp) (acc : Rectangle) : Rectangle :=
  match ops with
  | [] => acc
  | Draw r :: rest => drawn_since_last_write rest (Include acc r)
  | Write _ :: rest => drawn_since_last_write rest empty_rect
  end.

(** The drawn rectangle as the code keeps it: a write is never a restart, and
    a write that meets the drawn rectangle is added to it. *)
Fixpoint drawn_accumulated (ops : list DrawOp) (acc : Rectangle) : Rectangle :=
  match ops with
  | [] => acc
  | Draw r :: rest => drawn_accumulated rest (Include acc r)
  | Write r :: rest =>
      drawn_accumulated rest (if Intersects acc r then Include acc r else acc)
  end.

(** [inner] lies inside [outer], edge by edge. *)
Definition rect_contains (outer inner : Rectangle) : Prop :=
  left outer <= left inner /\ top outer <= top inner
  /\ right inner <= right outer /\ bottom inner <= bottom outer.

(** *** Ageing as the specification describes it *)

(** Pass 1: entries in use are skipped, the others age and leave once older
    than [MAX_HASH_CACHE_AGE]. *)
Fixpoint age_pass_spec (hc : HashCache) : HashCache :=
  match hc with
  | [] => []
  | (k, e) :: rest =>
      if 0 <? ref_count e then (k, e) :: age_pass_spec rest
      else if MAX_HASH_CACHE_AGE <? u32 (age e + 1) then age_pass_spec rest
      else (k, mkEntry (he_texture e) (ref_count e) (u32 (age e + 1))) :: age_pass_spec rest
  end.

Definition purge_candidates (hc : HashCache) : list (HashCacheKey * Z) :=
  map (fun ke => (fst ke, age (snd ke))) (List.filter (fun ke => ref_count (snd ke) <=? 0) hc).

(** Pass 2: only if the size still exceeds [MAX_HASH_CACHE_SIZE], the oldest
    [size - MAX_HASH_CACHE_SIZE] unused entries leave. *)
Definition AgeHashCache_spec (hc : HashCache) : HashCache :=
  let hc1 := age_pass_spec hc in
  let size := Z.of_nat (length hc1) in
  if MAX_HASH_CACHE_SIZE <? size then
    let oldest := take (Z.to_nat (size - MAX_HASH_CACHE_SIZE))
                    (sort_by_age (purge_candidates hc1)) in
    foldl (fun t ka => hc_erase (fst ka) t) hc1 oldest
  else hc1.

(** The invariants of the table that the types of the code give: the keys of
    an [unordered_map] are distinct, and a [u32] reference count is within
    range and not about to wrap. *)
Definition hash_cache_wf (hc : HashCache) : Prop :=
  NoDup hc.*1 /\ Forall (fun ke => 0 <= ref_count ke.2 < 2 ^ 32 - 1) hc.

(** [LookupSource] for [k] reaches [FetchTexture]: no source on the primary
    page has the key, the hashes are computed and the table has no entry for
    them. *)
Definition lookup_reaches_fetch `{Collaborators} (g_vram : VRAM) (k : SourceKey)
    (tc : GPUTextureCache) : Prop :=
  exists l tex_hash pal_hash,
    m_page_sources tc !! Z.to_nat (page k) = Some l
    /\ LookupSource_walk k (sources tc) l = Ok None
    /\ HashPage g_vram (page k) (mode k) = Ok tex_hash
    /\ (if is_paletted (mode k) then HashPalette g_vram (palette k) (mode k) else Ok 0)
       = Ok pal_hash
    /\ hc_find (mkHashCacheKey tex_hash pal_hash (mode_u8 (mode k))) (m_hash_cache tc) = None.

(** ** Concrete inputs *)

(** Collaborators to run the cache on concrete inputs: the widening of the
    5-bit colour channels to 8 bits, a multiplicative hash in the place of
    XXH3, and the palette register with its x base in units of 16 cells in
    bits 0-5 and its y base in bits 6-14. *)
Definition E5TO8 (c : Z) : Z := Z.shiftr (c * 527 + 23) 6.

Definition console_VRAMRGBA5551ToRGBA8888 (color : Z) : Z :=
  let r := E5TO8 (Z.land color 31) in
  let g := E5TO8 (Z.land (Z.shiftr color 5) 31) in
  let b := E5TO8 (Z.land (Z.shiftr color 10) 31) in
  let a := if Z.shiftr color 15 =? 0 then 0 else 255 in
  Z.lor (Z.lor r (Z.shiftl g 8)) (Z.lor (Z.shiftl b 16) (Z.shiftl a 24)).

Definition console_hash (cells : list Z) : Z :=
  fold_left (fun h c => Z.land (h * 31 + c + 1) (2 ^ 64 - 1)) cells 7.

Definition console : Collaborators :=
  {| VRAMRGBA5551ToRGBA8888 := console_VRAMRGBA5551ToRGBA8888;
     XXH3_64bits := console_hash;
     GetXBase := fun bits => Z.land bits 63 * 16;
     GetYBase := fun bits => Z.land (Z.shiftr bits 6) 511 |}.

(** A VRAM filled with white. *)
Definition white_vram : VRAM := fun _ => 32767.

(** The cache as constructed: no sources, an empty table and an empty drawn
    rectangle. *)
Definition empty_cache : GPUTextureCache :=
  mkCache empty_rect [] (replicate (Z.to_nat NUM_PAGES) []) [] ∅ 0%nat.

(** A device with two textures to give, and one with none. *)
Definition two_textures : GPUDevice :=
  mkDevice [Some (mkTexture 100 []); Some (mkTexture 101 [])] 0 [].
Definition no_texture : GPUDevice := mkDevice [] 0 [].

(** The cache after one [LookupSource] on the empty cache. *)
Definition cache_after_lookup (k : SourceKey) : Result GPUTextureCache :=
  do '(_, tc, _) <- LookupSource (H := console) white_vram k empty_cache two_textures;
  Ok tc.

(** A 4-bit key for page 1 with its CLUT at (64, 0), inside page 1, and a
    16-bit key for page 0. *)
Definition key_p1_4bit : SourceKey := mkSourceKey 1 Palette4Bit 4.
Definition key_p0_16bit : SourceKey := mkSourceKey 0 Direct16Bit 0.

(** A table of 202 entries in this iteration order: an unused entry of age
    0, three unused entries of age 600, and 198 entries in use. *)
Definition table_key (i : Z) : HashCacheKey := mkHashCacheKey i 0 2.
Definition table_entry (i refs a : Z) : HashCacheKey * HashCacheEntry :=
  (table_key i, mkEntry (mkTexture (1000 + i) []) refs a).

Definition crowded_table : HashCache :=
  table_entry 0 0 0
  :: map (fun i => table_entry i 0 600) (seqZ 1 3)
  ++ map (fun i => table_entry i 1 0) (seqZ 4 198).

Definition crowded_cache : GPUTextureCache :=
  set_hash_cache crowded_table empty_cache.

(** The source pages and the entries of a result, for display. *)
Definition page_lists (r : Result GPUTextureCache) : Result (list SourceList) :=
  do tc <- r; Ok (m_page_sources tc).

(** ** Invariants used in the proofs *)

(** What linking a node does: the node goes on the list of page [pn] and the
    owner gets the [list] pointer of the node; the table is left alone. *)
Definition links_node
    (link : Z -> nat -> Z -> GPUTextureCache -> Result GPUTextureCache) : Prop :=
  forall pn src ri tc tc',
    link pn src ri tc = Ok tc' ->
    exists l l' s refs,
      m_page_sources tc !! Z.to_nat pn = Some l
      /\ sources tc !! src = Some s
      /\ m_page_sources tc' = <[Z.to_nat pn := l']> (m_page_sources tc)
      /\ sources tc'
         = <[src := mkSource (key s) (num_page_refs s) (texture s) (from_hash_cache s) refs]>
             (sources tc)
      /\ m_hash_cache tc' = m_hash_cache tc.

(** What registering pages leaves alone: the table, and the key, texture and
    entry of the source being linked. *)
Definition creation_kept (hc : HashCache) (src : nat) (k : SourceKey) (hk : HashCacheKey)
    (t : Z) (tc : GPUTextureCache) : Prop :=
  m_hash_cache tc = hc
  /\ exists s, sources tc !! src = Some s
       /\ key s = k /\ from_hash_cache s = Some hk /\ texture s = t.

(** The source heads the list of its primary page, which is the first page
    in [page_refns]. *)
Definition anchored (src : nat) (k : SourceKey) (st : list Z * GPUTextureCache) : Prop :=
  exists s rest,
    sources st.2 !! src = Some s
    /\ key s = k
    /\ 1 <= num_page_refs s
    /\ length st.1 = Z.to_nat MAX_PAGE_REFS_PER_SOURCE
    /\ st.1 !! 0%nat = Some (page k)
    /\ m_page_sources st.2 !! Z.to_nat (page k) = Some ((src, 0) :: rest).


(** The cache and the device that a lookup leaves behind. *)
Definition result_cache (r : Result (option nat * GPUTextureCache * GPUDevice))
  : GPUTextureCache :=
  match r with
  | Ok (_, tc, _) => tc
  | Err _ => empty_cache
  end.

Definition result_device (r : Result (option nat * GPUTextureCache * GPUDevice))
  : GPUDevice :=
  match r with
  | Ok (_, _, dev) => dev
  | Err _ => no_texture
  end.

(** The source that a lookup returns, null when it failed. *)
Definition result_source (r : Result (option nat * GPUTextureCache * GPUDevice))
  : option nat :=
  match r with
  | Ok (src, _, _) => src
  | Err _ => None
  end.

(** The first lookup and the first creation on the empty cache. *)
Abbreviation first_lookup :=
  (LookupSource (H := console) white_vram key_p1_4bit empty_cache two_textures).
Abbreviation first_creation :=
  (CreateSource (H := console) white_vram key_p1_4bit empty_cache two_textures).

(** ** Relations and inputs for the further properties *)

(** What invalidation leaves of the table: the keys with their textures and
    ages, in order. *)
Definition table_textures (hc : HashCache) : list (HashCacheKey * GPUTexture * Z) :=
  map (fun ke => (ke.1, he_texture ke.2, age ke.2)) hc.

(** Every list of [ps'] is what is left of the list of [ps] at the same
    page after some nodes were unlinked. *)
Definition lists_shrunk (ps ps' : list SourceList) : Prop :=
  length ps' = length ps
  /\ forall i l', ps' !! i = Some l' -> exists l, ps !! i = Some l /\ l' `sublist_of` l.

(** Invalidation only takes away: sources are deleted, nodes are unlinked,
    and the table keeps its entries with their textures and ages. *)
Definition only_invalidated (tc tc' : GPUTextureCache) : Prop :=
  sources tc' ⊆ sources tc
  /\ lists_shrunk (m_page_sources tc) (m_page_sources tc')
  /\ table_textures (m_hash_cache tc') = table_textures (m_hash_cache tc)
  /\ next_source tc' = next_source tc.

(** A cache shaped like the one a lookup of [key_p1_4bit] leaves, with a
    short table key and no texels: one source at address 0, linked on page
    1, whose entry has one reference. *)
Definition one_source_cache : GPUTextureCache :=
  mkCache empty_rect [table_entry 0 1 0]
    (<[1%nat := [(0%nat, 0)]]> (replicate (Z.to_nat NUM_PAGES) [])) []
    {[0%nat := mkSource key_p1_4bit 1 1000 (Some (table_key 0))
                 (<[0%nat := Some 1]> (replicate (Z.to_nat MAX_PAGE_REFS_PER_SOURCE) None))]}
    1%nat.

(** That cache after the source was destroyed. *)
Definition no_source_cache : GPUTextureCache :=
  mkCache empty_rect [table_entry 0 0 0] (replicate (Z.to_nat NUM_PAGES) []) [] ∅ 1%nat.

(** Two VRAMs hold the same cells in the [rows] rows of [cells] cells that
    start at [ptr]. *)
Definition vram_agree (v1 v2 : VRAM) (ptr rows cells : Z) : Prop :=
  forall y x, 0 <= y < rows -> 0 <= x < cells ->
    v1 (ptr + y * VRAM_WIDTH + x) = v2 (ptr + y * VRAM_WIDTH + x).

(** White but for the cell at column 65 of row 0. *)
Definition written_vram : VRAM := fun i => if i =? 65 then 0 else 32767.

(** The textures of the unused entries that pass 1 evicts, in table order. *)
Definition aged_out_textures (hc : HashCache) : list GPUTexture :=
  map (fun ke => he_texture ke.2)
    (List.filter (fun ke => negb (0 <? ref_count ke.2)
                            && (MAX_HASH_CACHE_AGE <? u32 (age ke.2 + 1))) hc).

(** A table of three entries: one in use, one unused and young, one unused
    and of age 600. *)
Definition small_table : HashCache :=
  [table_entry 0 1 0; table_entry 1 0 5; table_entry 2 0 600].

(** A table whose entries are all unused. *)
Definition unused_table : HashCache :=
  [table_entry 1 0 5; table_entry 2 0 600; table_entry 3 0 0].

(** Whether a lookup gave a pointer, and the parts of its result. *)
Definition lookup_found {A : Type} (r : Result (option A * GPUTextureCache * GPUDevice))
  : bool :=
  match r with
  | Ok (Some _, _, _) => true
  | _ => false
  end.

Definition lookup_value {A : Type} (d : A)
    (r : Result (option A * GPUTextureCache * GPUDevice)) : A :=
  match r with
  | Ok (Some a, _, _) => a
  | _ => d
  end.

Definition lookup_cache {A : Type} (r : Result (option A * GPUTextureCache * GPUDevice))
  : GPUTextureCache :=
  match r with
  | Ok (_, tc, _) => tc
  | Err _ => empty_cache
  end.

Definition lookup_device {A : Type} (r : Result (option A * GPUTextureCache * GPUDevice))
  : GPUDevice :=
  match r with
  | Ok (_, _, dev) => dev
  | Err _ => no_texture
  end.

Definition succeeded {A : Type} (r : Result A) : bool :=
  match r with
  | Ok _ => true
  | Err _ => false
  end.

Definition value_or {A : Type} (d : A) (r : Result A) : A :=
  match r with
  | Ok a => a
  | Err _ => d
  end.

(** The first entry made on the empty cache, and the cache after a write
    over page 1 destroyed the first source. *)
Abbreviation first_entry :=
  (LookupHashCache (H := console) white_vram key_p1_4bit empty_cache two_textures).
Abbreviation first_invalidated :=
  (InvalidateFromWrite (mkRect 64 0 128 16) (result_cache first_creation)).

(** The textures that the table owns, in order. *)
Definition table_texture_list (hc : HashCache) : list GPUTexture :=
  map (fun ke => he_texture ke.2) hc.

(** The nodes of a list that do not belong to the source [src]. *)
Definition other_nodes (src : nat) (l : SourceList) : SourceList :=
  List.filter (fun n => negb (n.1 =? src)%nat) l.

(** [tc'] is [tc] but for the source [src], its nodes and the table. *)
Definition only_linked (src : nat) (tc tc' : GPUTextureCache) : Prop :=
  (forall n, n <> src -> sources tc' !! n = sources tc !! n)
  /\ length (m_page_sources tc') = length (m_page_sources tc)
  /\ (forall p l, m_page_sources tc !! p = Some l ->
        exists l', m_page_sources tc' !! p = Some l'
                   /\ other_nodes src l' = other_nodes src l)
  /\ m_drawn_rect tc' = m_drawn_rect tc
  /\ next_source tc' = next_source tc.

(** [link] adds nodes of the source it is given, and nothing else. *)
Definition links_own_node
    (link : Z -> nat -> Z -> GPUTextureCache -> Result GPUTextureCache) : Prop :=
  forall pn src ri tc tc', link pn src ri tc = Ok tc' -> only_linked src tc tc'.

(** A 4-bit key for page 0 with its CLUT at (0, 8). *)
Definition key_p0_4bit : SourceKey := mkSourceKey 0 Palette4Bit 512.

(** The number of sources whose [from_hash_cache] points to the entry at
    [hk]. *)
Definition source_count (hk : HashCacheKey) (heap : gmap nat Source) : nat :=
  size (filter (fun p : nat * Source => from_hash_cache p.2 = Some hk) heap).

(** The reference count that the table holds for [hk]; none is 0. *)
Definition table_refs (hk : HashCacheKey) (hc : HashCache) : Z :=
  match hc_find hk hc with
  | Some e => ref_count e
  | None => 0
  end.

(** The reference counts are right: the keys of the table are distinct, the
    addresses from [next_source] on are free, there are fewer than 2^32
    sources, and the [ref_count] of every entry is the number of sources
    that point to it. *)
Definition refs_consistent (tc : GPUTextureCache) : Prop :=
  NoDup (m_hash_cache tc).*1
  /\ (forall n, (next_source tc <= n)%nat -> sources tc !! n = None)
  /\ Z.of_nat (size (sources tc)) < 2 ^ 32
  /\ (forall hk, table_refs hk (m_hash_cache tc) = Z.of_nat (source_count hk (sources tc))).

(** The links between the page lists and the sources are sound: there is a
    list for every page; a source has at most one node on a list; every node
    of a list belongs to a live source, at an index below its
    [num_page_refs], whose [list] pointer is that list; and every used node
    of a live source is on the list it points to. *)
Definition links_sound (tc : GPUTextureCache) : Prop :=
  length (m_page_sources tc) = Z.to_nat NUM_PAGES
  /\ (forall p l, m_page_sources tc !! p = Some l -> NoDup l.*1)
  /\ (forall p l src ri, m_page_sources tc !! p = Some l -> (src, ri) ∈ l ->
        exists s, sources tc !! src = Some s
          /\ 0 <= ri < num_page_refs s
          /\ page_refs s !! Z.to_nat ri = Some (Some (Z.of_nat p)))
  /\ (forall src s ri, sources tc !! src = Some s -> 0 <= ri < num_page_refs s ->
        exists p l, page_refs s !! Z.to_nat ri = Some (Some (Z.of_nat p))
          /\ m_page_sources tc !! p = Some l /\ (src, ri) ∈ l).

(** The cache between two calls: the links are sound and every source is
    on a list. *)
Definition cache_wf (tc : GPUTextureCache) : Prop :=
  links_sound tc
  /\ forall src s, sources tc !! src = Some s -> 1 <= num_page_refs s.

(** A rectangle that does not leave the VRAM; it may be empty. *)
Definition rect_in_vram (rc : Rectangle) : Prop :=
  0 <= left rc /\ 0 <= top rc /\ right rc <= VRAM_WIDTH /\ bottom rc <= VRAM_HEIGHT.

(** [link] puts the node [(src, ri)] on the list of page [pn] and writes
    the [list] pointer of the node; nothing else of the lists and the
    sources changes. *)
Definition links_fully
    (link : Z -> nat -> Z -> GPUTextureCache -> Result GPUTextureCache) : Prop :=
  forall pn src ri tc tc',
    link pn src ri tc = Ok tc' ->
    exists l l' s,
      m_page_sources tc !! Z.to_nat pn = Some l
      /\ sources tc !! src = Some s
      /\ (Z.to_nat ri < length (page_refs s))%nat
      /\ l' ≡ₚ (src, ri) :: l
      /\ m_page_sources tc' = <[Z.to_nat pn := l']> (m_page_sources tc)
      /\ sources tc'
         = <[src := mkSource (key s) (num_page_refs s) (texture s) (from_hash_cache s)
                      (<[Z.to_nat ri := Some pn]> (page_refs s))]> (sources tc).

(** The state of the loops of [CreateSource] for the new source [src]: the
    links are sound, every other source is on a list, and the local array
    [page_refns] holds the pages of the used nodes of [src]. *)
Definition creating (src : nat) (st : list Z * GPUTextureCache) : Prop :=
  links_sound st.2
  /\ (forall n s, n <> src -> sources st.2 !! n = Some s -> 1 <= num_page_refs s)
  /\ length st.1 = Z.to_nat MAX_PAGE_REFS_PER_SOURCE
  /\ exists s, sources st.2 !! src = Some s
       /\ 0 <= num_page_refs s
       /\ forall ri, 0 <= ri < num_page_refs s ->
            exists pn, st.1 !! Z.to_nat ri = Some pn
                       /\ page_refs s !! Z.to_nat ri = Some (Some pn).

(** [new Source()] gives an address that holds no live source: the
    addresses from [next_source] on are free. *)
Definition alloc_fresh (tc : GPUTextureCache) : Prop :=
  forall n, (next_source tc <= n)%nat -> sources tc !! n = None.

(** The walk of [LookupSource] for [k] over the list of its primary page
    stops at the node [(src, ri)]. *)
Definition first_match (k : SourceKey) (src : nat) (ri : Z) (tc : GPUTextureCache) : Prop :=
  exists l, m_page_sources tc !! Z.to_nat (page k) = Some l
            /\ LookupSource_walk k (sources tc) l = Ok (Some (src, ri)).

(** Every source of [heap] is in [heap'] with its key. *)
Definition keys_kept (heap heap' : gmap nat Source) : Prop :=
  forall n s, heap !! n = Some s -> exists s', heap' !! n = Some s' /\ key s' = key s.

(** [link] puts the node at the front or at the back of the list of its
    page, and rewrites the owner with its key kept. *)
Definition links_at_an_end
    (link : Z -> nat -> Z -> GPUTextureCache -> Result GPUTextureCache) : Prop :=
  forall pn src ri tc tc',
    link pn src ri tc = Ok tc' ->
    exists l s s',
      m_page_sources tc !! Z.to_nat pn = Some l
      /\ sources tc !! src = Some s
      /\ key s' = key s
      /\ sources tc' = <[src := s']> (sources tc)
      /\ (m_page_sources tc' = <[Z.to_nat pn := (src, ri) :: l]> (m_page_sources tc)
          \/ m_page_sources tc' = <[Z.to_nat pn := l ++ [(src, ri)]]> (m_page_sources tc)).

(** A second 4-bit key for page 1, with its CLUT at (80, 0). *)
Definition key_p1_4bit_b : SourceKey := mkSourceKey 1 Palette4Bit 5.

(** The calls between the two lookups of [key_p1_4bit]: a lookup of the
    second key, and the ageing of the table. *)
Abbreviation between_calls :=
  (run_between (H := console) white_vram [BetweenLookup key_p1_4bit_b; BetweenAge]
     (result_cache first_lookup, result_device first_lookup)).

(** * Properties *)

(** ** The error monad *)

Lemma bind_Ok_inv {A B : Type} (m : Result A) (k : A -> Result B) (b : B) :
  bind m k = Ok b -> exists a, m = Ok a /\ k a = Ok b.
Proof. destruct m as [a|f]; simpl; [eauto | discriminate]. Qed.

Lemma from_option_Ok_inv {A : Type} (f : Fault) (o : option A) (a : A) :
  from_option f o = Ok a -> o = Some a.
Proof. destruct o; simpl; congruence. Qed.

Lemma DebugAssert_Ok_inv (b : bool) (u : unit) : DebugAssert b = Ok u -> b = true.
Proof. destruct b; simpl; congruence. Qed.

(** A result that holds a source is that source with the cache and the
    device it leaves behind. *)
Lemma result_source_Some (r : Result (option nat * GPUTextureCache * GPUDevice)) (src : nat) :
  result_source r = Some src -> r = Ok (Some src, result_cache r, result_device r).
Proof. destruct r as [[[o tc] dev]|f]; simpl; [by intros ->|discriminate]. Qed.

(** Split a successful run of binds into its steps. *)
Ltac inv_bind H :=
  repeat match type of H with
    | bind _ _ = Ok _ =>
        let a := fresh "a" in
        let Ha := fresh "Hstep" in
        apply bind_Ok_inv in H as (a & Ha & H)
    end.

Ltac inv_opt H := apply from_option_Ok_inv in H.

(** ** Machine integers *)

Lemma u32_range (z : Z) : 0 <= u32 z < 2 ^ 32.
Proof. unfold u32. apply Z.mod_pos_bound. lia. Qed.

Lemma u32_small (z : Z) : 0 <= z < 2 ^ 32 -> u32 z = z.
Proof. unfold u32. apply Z.mod_small. Qed.

(** ** Invariants of the page loops *)

Section LoopInvariants.
Context {St : Type}.
Variable f : Z -> St -> Result St.
Variable P : St -> Prop.
Hypothesis f_keeps : forall pn a b, 0 <= pn -> P a -> f pn a = Ok b -> P b.

Lemma LoopPages_x_inv (columns : nat) (pn ypn : Z) (s s' : St) :
  0 <= pn -> P s -> LoopPages_x f columns pn ypn s = Ok s' -> P s'.
Proof.
  intros Hpn. revert ypn s. induction columns as [|n IH]; intros ypn s Hs Hrun; simpl in Hrun.
  - congruence.
  - inv_bind Hrun. eauto.
Qed.

Lemma LoopPages_y_inv (rows columns : nat) (pn : Z) (s s' : St) :
  0 <= pn -> P s -> LoopPages_y f rows columns pn s = Ok s' -> P s'.
Proof.
  revert pn s. induction rows as [|n IH]; intros pn s Hpn Hs Hrun; simpl in Hrun.
  - congruence.
  - inv_bind Hrun. eapply (IH (u32 (pn + VRAM_PAGES_WIDE))); [|  |exact Hrun].
    + unfold u32. apply Z.mod_pos_bound. lia.
    + eauto using LoopPages_x_inv.
Qed.

Lemma LoopPages_inv (x y width height : Z) (s s' : St) :
  P s -> LoopPages f x y width height s = Ok s' -> P s'.
Proof.
  unfold LoopPages. intros Hs Hrun. inv_bind Hrun.
  eapply LoopPages_y_inv; [|exact Hs|exact Hrun].
  unfold PageIndex, u32. apply Z.mod_pos_bound. lia.
Qed.

(** When the rectangle has a page row and a page column, the first call is
    for the page of its top left corner and the invariant carries from
    there. *)
Lemma LoopPages_first (x y width height : Z) (s s' : St) (rows columns : nat) :
  loop_count (y / VRAM_PAGE_HEIGHT) (u32 (y + u32 (height - 1)) / VRAM_PAGE_HEIGHT)
  = S rows ->
  loop_count (x / VRAM_PAGE_WIDTH) (u32 (x + u32 (width - 1)) / VRAM_PAGE_WIDTH)
  = S columns ->
  LoopPages f x y width height s = Ok s' ->
  exists s1,
    f (PageIndex (x / VRAM_PAGE_WIDTH) (y / VRAM_PAGE_HEIGHT)) s = Ok s1
    /\ (P s1 -> P s').
Proof.
  unfold LoopPages. intros Hrows Hcols Hrun.
  apply bind_Ok_inv in Hrun as (_ & _ & Hrun).
  apply bind_Ok_inv in Hrun as (_ & _ & Hrun).
  rewrite Hrows, Hcols in Hrun. simpl in Hrun.
  apply bind_Ok_inv in Hrun as (s2 & Hrow & Hrun).
  apply bind_Ok_inv in Hrow as (s1 & Hcall & Hrow).
  assert (Hpn : 0 <= PageIndex (x / VRAM_PAGE_WIDTH) (y / VRAM_PAGE_HEIGHT)).
  { unfold PageIndex, u32. apply Z.mod_pos_bound. lia. }
  exists s1. split; [exact Hcall|]. intros Hs1.
  eapply (LoopPages_y_inv rows (S columns)); [| |exact Hrun].
  - unfold u32. apply Z.mod_pos_bound. lia.
  - eapply LoopPages_x_inv; [exact Hpn|exact Hs1|exact Hrow].
Qed.
End LoopInvariants.

(** ** Page loops and invalidation *)

(** The callback of [LoopPages] gets the first page of each page row, once
    for every page column of the rectangle. *)
Lemma LoopPages_x_calls (columns : nat) (pn ypn : Z) (calls : list Z) :
  LoopPages_x (fun p (c : list Z) => Ok (c ++ [p])) columns pn ypn calls
  = Ok (calls ++ replicate columns pn).
Proof.
  revert ypn calls. induction columns as [|n IH]; intros ypn calls; simpl.
  - by rewrite app_nil_r.
  - rewrite IH. by rewrite <- app_assoc.
Qed.

(** C1 (defect in [LoopPages]). The rectangle (0,0)-(128,1) lies inside VRAM
    and meets pages 0 and 1, yet the callback is run on page 0 twice and
    never on page 1: a source that sits on page 1 outlives
    [InvalidatePages] of that rectangle. *)
Theorem InvalidatePages_skips_page_columns :
  let rect := mkRect 0 0 128 1 in
  pages_intersecting rect = [0; 1]
  /\ LoopPages_calls (left rect) (top rect) (GetWidth rect) (GetHeight rect) = Ok [0; 0]
  /\ page_lists (cache_after_lookup key_p1_4bit)
     = Ok (<[1%nat := [(0%nat, 0)]]> (replicate 32 []))
  /\ page_lists (do tc <- cache_after_lookup key_p1_4bit; InvalidatePages_rect rect tc)
     = Ok (<[1%nat := [(0%nat, 0)]]> (replicate 32 [])).
Proof. vm_compute. auto. Qed.

(** C2 (defect in [LoopPages]). The footprint of a 16-bit source for page 0
    covers pages 0 to 3, but [CreateSource] links the source on page 0 only
    and leaves [num_page_refs] at 1. *)
Theorem CreateSource_links_first_column_only :
  source_pages (H := console) key_p0_16bit = [0; 1; 2; 3]
  /\ (do tc <- cache_after_lookup key_p0_16bit;
      Ok (linked_pages 0 tc, num_page_refs <$> sources tc !! 0%nat))
     = Ok ([0], Some 1).
Proof. vm_compute. auto. Qed.

(** C3 (defect in [HashPage]). [HashPage] has no case for
    [Reserved_Direct16Bit]: it and every [CreateSource] for such a key end in
    [DefaultCaseIsUnreachable], while [DecodeTexture] decodes the mode as
    [Direct16Bit] and [HashPage] hashes a [Direct16Bit] page. *)
Theorem HashPage_Reserved_Direct16Bit_unreachable
    `{Collaborators} (g_vram : VRAM) (pn pal : Z) (tc : GPUTextureCache) (dev : GPUDevice) :
  HashPage g_vram pn Reserved_Direct16Bit = Err UnreachableCode
  /\ CreateSource g_vram (mkSourceKey pn Reserved_Direct16Bit pal) tc dev = Err UnreachableCode
  /\ DecodeTexture g_vram pn pal Reserved_Direct16Bit = DecodeTexture g_vram pn pal Direct16Bit
  /\ LookupSource (H := console) white_vram (mkSourceKey 0 Reserved_Direct16Bit 0)
       empty_cache two_textures = Err UnreachableCode
  /\ exists h, HashPage (H := console) white_vram 0 Direct16Bit = Ok h.
Proof.
  split; [reflexivity|]. split; [reflexivity|].
  split; [unfold DecodeTexture; reflexivity|]. split; [reflexivity|].
  eexists. vm_compute. reflexivity.
Qed.

(** C5 (same defect in [LoopPages] as C1). After a draw to (0,0)-(128,128) a
    write to (64,64)-(192,192) meets the drawn rectangle, which grows to
    (0,0)-(192,192) and covers pages 0, 1 and 2; the source on page 1 is
    still linked afterwards. *)
Theorem InvalidateFromWrite_leaves_drawn_pages :
  let draw := mkRect 0 0 128 128 in
  let rect := mkRect 64 64 192 192 in
  Intersects draw rect = true
  /\ (do tc <- cache_after_lookup key_p1_4bit;
      do tc' <- InvalidateFromWrite rect (UpdateDrawnRect draw tc);
      Ok (m_drawn_rect tc', pages_intersecting (m_drawn_rect tc'), m_page_sources tc',
          key <$> sources tc' !! 0%nat))
     = Ok (mkRect 0 0 192 192, [0; 1; 2], <[1%nat := [(0%nat, 0)]]> (replicate 32 []),
           Some key_p1_4bit).
Proof. vm_compute. auto. Qed.

(** ** The drawn rectangle *)

Lemma Include_within (rect d : Rectangle) : rect_within rect d = true -> Include d rect = d.
Proof.
  unfold rect_within, Include. destruct d, rect; simpl. intros Hin.
  repeat (apply andb_prop in Hin as [Hin ?]). f_equal; lia.
Qed.

Lemma UpdateDrawnRect_drawn_rect (rect : Rectangle) (tc : GPUTextureCache) :
  m_drawn_rect (UpdateDrawnRect rect tc) = Include (m_drawn_rect tc) rect.
Proof.
  unfold UpdateDrawnRect. destruct (rect_within _ _) eqn:Hin; [|done].
  by rewrite Include_within.
Qed.

Lemma unlink_page_refs_total (src : nat) (s : Source) (count : nat) (i : Z)
    (ps ps' : list SourceList) :
  unlink_page_refs src s count i ps = Ok ps' -> length ps' = length ps.
Proof.
  revert i ps. induction count as [|n IH]; intros i ps Hrun; simpl in Hrun.
  - congruence.
  - inv_bind Hrun. apply IH in Hrun. rewrite Hrun.
    unfold ListUnlink in Hstep1. inv_bind Hstep1. injection Hstep1 as <-.
    by rewrite length_insert.
Qed.

Lemma destroy_source_drawn_rect (src : nat) (tc tc' : GPUTextureCache) :
  destroy_source src tc = Ok tc' -> m_drawn_rect tc' = m_drawn_rect tc.
Proof.
  unfold destroy_source. intros Hrun. inv_bind Hrun. by injection Hrun as <-.
Qed.

Lemma InvalidatePage_walk_drawn_rect (nodes : SourceList) (tc tc' : GPUTextureCache) :
  InvalidatePage_walk nodes tc = Ok tc' -> m_drawn_rect tc' = m_drawn_rect tc.
Proof.
  revert tc. induction nodes as [|n nodes IH]; intros tc Hrun; simpl in Hrun.
  - congruence.
  - inv_bind Hrun. apply IH in Hrun. apply destroy_source_drawn_rect in Hstep. congruence.
Qed.

Lemma InvalidatePage_drawn_rect (pn : Z) (tc tc' : GPUTextureCache) :
  InvalidatePage pn tc = Ok tc' -> m_drawn_rect tc' = m_drawn_rect tc.
Proof.
  unfold InvalidatePage. intros Hrun. inv_bind Hrun. injection Hrun as <-. simpl.
  eauto using InvalidatePage_walk_drawn_rect.
Qed.

Lemma InvalidatePages_rect_drawn_rect (rc : Rectangle) (tc tc' : GPUTextureCache) :
  InvalidatePages_rect rc tc = Ok tc' -> m_drawn_rect tc' = m_drawn_rect tc.
Proof.
  unfold InvalidatePages_rect, InvalidatePages. intros Hrun.
  eapply (LoopPages_inv InvalidatePage (fun t => m_drawn_rect t = m_drawn_rect tc));
    [|reflexivity|exact Hrun].
  intros pn a b _ Ha Hb. apply InvalidatePage_drawn_rect in Hb. congruence.
Qed.

(** [InvalidateFromWrite] leaves in [m_drawn_rect] the rectangle it had,
    grown by the write when the two meet. *)
Lemma InvalidateFromWrite_drawn_rect (rect : Rectangle) (tc tc' : GPUTextureCache) :
  InvalidateFromWrite rect tc = Ok tc' ->
  m_drawn_rect tc'
  = if Intersects (m_drawn_rect tc) rect then Include (m_drawn_rect tc) rect
    else m_drawn_rect tc.
Proof.
  unfold InvalidateFromWrite. destruct (Intersects _ _); intros Hrun;
    apply InvalidatePages_rect_drawn_rect in Hrun; by rewrite Hrun.
Qed.

Lemma rect_contains_refl (r : Rectangle) : rect_contains r r.
Proof. unfold rect_contains. lia. Qed.

Lemma rect_contains_trans (a b c : Rectangle) :
  rect_contains a b -> rect_contains b c -> rect_contains a c.
Proof. unfold rect_contains. lia. Qed.

Lemma Include_contains_l (d r : Rectangle) : rect_contains (Include d r) d.
Proof. unfold rect_contains, Include. simpl. lia. Qed.

Lemma Include_contains_r (d r : Rectangle) : rect_contains (Include d r) r.
Proof. unfold rect_contains, Include. simpl. lia. Qed.

Lemma drawn_accumulated_grows (ops : list DrawOp) (d : Rectangle) :
  rect_contains (drawn_accumulated ops d) d.
Proof.
  revert d. induction ops as [|[r|r] ops IH]; intros d; simpl.
  - apply rect_contains_refl.
  - eapply rect_contains_trans; [apply IH | apply Include_contains_l].
  - eapply rect_contains_trans; [apply IH|].
    destruct (Intersects d r); [apply Include_contains_l | apply rect_contains_refl].
Qed.

Lemma drawn_accumulated_draws (ops : list DrawOp) (d r : Rectangle) :
  In (Draw r) ops -> rect_contains (drawn_accumulated ops d) r.
Proof.
  revert d. induction ops as [|op ops IH]; intros d Hin; [destruct Hin|].
  destruct Hin as [->|Hin].
  - simpl. eapply rect_contains_trans; [apply drawn_accumulated_grows|].
    apply Include_contains_r.
  - destruct op; simpl; by apply IH.
Qed.

(** C4 (as stated, refuted). After a draw to (0,0)-(128,128) and a write to
    (64,64)-(192,192) the drawn rectangle is (0,0)-(192,192), not the empty
    union of the draws since that write: it is not the case that the drawn
    rectangle always equals the union of the draws since the last write. *)
Lemma drawn_rect_not_reset_by_write :
  ~ (forall ops tc',
       run_ops ops empty_cache = Ok tc' ->
       m_drawn_rect tc' = drawn_since_last_write ops (m_drawn_rect empty_cache)).
Proof.
  intros Hclaim.
  specialize (Hclaim [Draw (mkRect 0 0 128 128); Write (mkRect 64 64 192 192)]
                (set_drawn_rect (mkRect 0 0 192 192) empty_cache) eq_refl).
  discriminate Hclaim.
Qed.

(** C4 (amended). The drawn rectangle is never reset: after any run of draws
    and writes it is the bounding union of the rectangle it started from,
    of every draw, and of every write that met it at the time; so it still
    contains what it held before and every draw of the run, whether or not
    a write came in between. *)
Theorem drawn_rect_accumulates (ops : list DrawOp) (tc tc' : GPUTextureCache) :
  run_ops ops tc = Ok tc' ->
  m_drawn_rect tc' = drawn_accumulated ops (m_drawn_rect tc)
  /\ rect_contains (m_drawn_rect tc') (m_drawn_rect tc)
  /\ forall r, In (Draw r) ops -> rect_contains (m_drawn_rect tc') r.
Proof.
  intros Hrun.
  assert (Heq : m_drawn_rect tc' = drawn_accumulated ops (m_drawn_rect tc)).
  { revert tc Hrun. induction ops as [|[r|r] ops IH]; intros tc Hrun; simpl in Hrun.
    - by injection Hrun as <-.
    - apply IH in Hrun. by rewrite Hrun, UpdateDrawnRect_drawn_rect.
    - inv_bind Hrun. apply IH in Hrun. rewrite Hrun. simpl.
      by rewrite (InvalidateFromWrite_drawn_rect _ _ _ Hstep). }
  rewrite Heq. split; [done|]. split.
  - apply drawn_accumulated_grows.
  - intros r Hin. by apply drawn_accumulated_draws.
Qed.

Lemma drawn_rect_accumulates_witness :
  run_ops [Draw (mkRect 0 0 128 128); Write (mkRect 64 64 192 192)] empty_cache
  = Ok (set_drawn_rect (mkRect 0 0 192 192) empty_cache)
  /\ rect_contains (mkRect 0 0 192 192) (mkRect 0 0 128 128).
Proof.
  split; [vm_compute; reflexivity|].
  apply (drawn_rect_accumulates
           [Draw (mkRect 0 0 128 128); Write (mkRect 64 64 192 192)]
           empty_cache (set_drawn_rect (mkRect 0 0 192 192) empty_cache)).
  - vm_compute. reflexivity.
  - left. reflexivity.
Defined.

(** ** The hash cache as a table *)

Lemma hc_find_elem (k : HashCacheKey) (e : HashCacheEntry) (hc : HashCache) :
  hc_find k hc = Some e -> (k, e) ∈ hc.
Proof.
  induction hc as [|[k' e'] hc IH]; simpl; [done|].
  case_decide as Hk.
  - intros [= ->]. subst k'. left.
  - intros Hfind. right. by apply IH.
Qed.

Lemma hc_find_None (k : HashCacheKey) (hc : HashCache) :
  hc_find k hc = None -> k ∉ hc.*1.
Proof.
  induction hc as [|[k' e'] hc IH]; simpl; [intros _; apply not_elem_of_nil|].
  case_decide as Hk; [done|]. intros Hfind.
  apply not_elem_of_cons. split; [congruence | by apply IH].
Qed.

Lemma hc_find_NoDup (k : HashCacheKey) (e : HashCacheEntry) (hc : HashCache) :
  NoDup hc.*1 -> (k, e) ∈ hc -> hc_find k hc = Some e.
Proof.
  induction hc as [|[k' e'] hc IH]; simpl; intros Hnd Hin.
  - by apply elem_of_nil in Hin.
  - apply NoDup_cons in Hnd as [Hfresh Hnd].
    apply elem_of_cons in Hin as [[= <- <-]|Hin].
    + by rewrite decide_True.
    + case_decide as Hk.
      * subst k'. exfalso. apply Hfresh. apply list_elem_of_fmap. by exists (k, e).
      * by apply IH.
Qed.

Lemma hc_store_keys (k : HashCacheKey) (e : HashCacheEntry) (hc : HashCache) :
  (hc_store k e hc).*1 = hc.*1.
Proof.
  induction hc as [|[k' e'] hc IH]; csimpl; [done|].
  case_decide; csimpl; [done|]. by rewrite IH.
Qed.

Lemma hc_find_store (k : HashCacheKey) (e e0 : HashCacheEntry) (hc : HashCache) :
  hc_find k hc = Some e0 -> hc_find k (hc_store k e hc) = Some e.
Proof.
  induction hc as [|[k' e'] hc IH]; simpl; [done|].
  case_decide as Hk; simpl.
  - intros _. by rewrite decide_True.
  - intros Hfind. rewrite decide_False by done. by apply IH.
Qed.

Lemma hc_find_erase_ne (k k' : HashCacheKey) (hc : HashCache) :
  k <> k' -> hc_find k' (hc_erase k hc) = hc_find k' hc.
Proof.
  intros Hne. induction hc as [|[k0 e0] hc IH]; simpl; [done|].
  case_decide as Hk; simpl.
  - subst k0. by rewrite decide_False.
  - by rewrite IH.
Qed.

Lemma hc_erase_sublist (k : HashCacheKey) (hc : HashCache) : hc_erase k hc `sublist_of` hc.
Proof.
  induction hc as [|[k0 e0] hc IH]; simpl; [done|].
  case_decide; [by apply sublist_cons | by apply sublist_skip].
Qed.

Lemma sublist_keys_NoDup (hc hc' : HashCache) :
  hc' `sublist_of` hc -> NoDup hc.*1 -> NoDup hc'.*1.
Proof. intros Hsub Hnd. eapply sublist_NoDup; [exact Hnd|]. by apply fmap_sublist. Qed.

(** ** The first loop of [AgeHashCache] *)

Lemma AgeHashCache_pass_kept (hc : HashCache) (st : AgeState) :
  (AgeHashCache_pass hc st).1 = age_pass_spec hc.
Proof.
  revert st. induction hc as [|[k e] hc IH]; intros st; simpl; [done|].
  destruct (0 <? ref_count e).
  - specialize (IH st). destruct (AgeHashCache_pass hc st). simpl in *. by f_equal.
  - destruct (MAX_HASH_CACHE_AGE <? u32 (age e + 1)); [apply IH|].
    match goal with |- context [AgeHashCache_pass hc ?s] =>
      specialize (IH s); destruct (AgeHashCache_pass hc s) end.
    simpl in *. by f_equal.
Qed.

Lemma age_pass_spec_find (k : HashCacheKey) (e : HashCacheEntry) (hc : HashCache) :
  hc_find k hc = Some e -> 0 < ref_count e -> hc_find k (age_pass_spec hc) = Some e.
Proof.
  intros Hfind Hrefs. induction hc as [|[k' e'] hc IH]; simpl in *; [done|].
  case_decide as Hk.
  - injection Hfind as ->. destruct (0 <? ref_count e) eqn:Hpos; [|lia].
    simpl. by rewrite decide_True.
  - destruct (0 <? ref_count e'); simpl.
    + rewrite decide_False by done. by apply IH.
    + destruct (MAX_HASH_CACHE_AGE <? _); simpl; [by apply IH|].
      rewrite decide_False by done. by apply IH.
Qed.

Lemma age_pass_spec_keys (hc : HashCache) : (age_pass_spec hc).*1 `sublist_of` hc.*1.
Proof.
  induction hc as [|[k e] hc IH]; csimpl; [done|].
  destruct (0 <? ref_count e); csimpl; [by apply sublist_skip|].
  destruct (MAX_HASH_CACHE_AGE <? _); csimpl; [by apply sublist_cons | by apply sublist_skip].
Qed.

(** An entry that stays is an entry of the table, but for its age. *)
Lemma age_pass_spec_elem (k : HashCacheKey) (e : HashCacheEntry) (hc : HashCache) :
  (k, e) ∈ age_pass_spec hc ->
  exists e0, (k, e0) ∈ hc /\ he_texture e = he_texture e0 /\ ref_count e = ref_count e0.
Proof.
  induction hc as [|[k' e'] hc IH]; simpl; intros Hin.
  - by apply elem_of_nil in Hin.
  - assert (Hrest : (k, e) ∈ age_pass_spec hc ->
             exists e0, (k, e0) ∈ (k', e') :: hc
               /\ he_texture e = he_texture e0 /\ ref_count e = ref_count e0).
    { intros Hin'. destruct (IH Hin') as (e0 & ? & ? & ?). exists e0. by rewrite elem_of_cons; auto. }
    destruct (0 <? ref_count e').
    + apply elem_of_cons in Hin as [[= -> ->]|Hin]; [|auto].
      exists e'. split; [left|done].
    + destruct (MAX_HASH_CACHE_AGE <? _); [auto|].
      apply elem_of_cons in Hin as [[= -> ->]|Hin]; [|auto].
      exists e'. split; [left|done].
Qed.

(** Once [might_need_cache_purge] is clear, the loop neither sets it nor
    touches the purge list. *)
Lemma AgeHashCache_pass_no_purge (hc : HashCache) (st : AgeState) :
  might_need_cache_purge st = false ->
  might_need_cache_purge (AgeHashCache_pass hc st).2 = false
  /\ purge_list (AgeHashCache_pass hc st).2 = purge_list st.
Proof.
  revert st. induction hc as [|[k e] hc IH]; intros st Hoff; simpl; [done|].
  destruct (0 <? ref_count e).
  - specialize (IH st Hoff). by destruct (AgeHashCache_pass hc st).
  - destruct (MAX_HASH_CACHE_AGE <? _).
    + match goal with |- context [AgeHashCache_pass hc ?s] => exact (IH s Hoff) end.
    + rewrite Hoff. specialize (IH st Hoff). by destruct (AgeHashCache_pass hc st).
Qed.

(** A key on the purge list was there before or belongs to an unused entry
    of the table. *)
Lemma AgeHashCache_pass_purge_list (hc : HashCache) (st : AgeState) (x : HashCacheKey * Z) :
  x ∈ purge_list (AgeHashCache_pass hc st).2 ->
  x ∈ purge_list st \/ exists e, (x.1, e) ∈ hc /\ ref_count e <= 0.
Proof.
  revert st. induction hc as [|[k e] hc IH]; intros st; simpl; [auto|].
  assert (Hrest : forall st1,
            (x ∈ purge_list st1 -> x ∈ purge_list st \/ (x.1 = k /\ ref_count e <= 0)) ->
            x ∈ purge_list (AgeHashCache_pass hc st1).2 ->
            x ∈ purge_list st \/ exists e0, (x.1, e0) ∈ (k, e) :: hc /\ ref_count e0 <= 0).
  { intros st1 Hst1 Hin. destruct (IH st1 Hin) as [Hold|(e0 & Hin0 & Hrefs)].
    - destruct (Hst1 Hold) as [?|[<- ?]]; [by left|]. right. exists e. split; [left|done].
    - right. exists e0. split; [by right|done]. }
  destruct (0 <? ref_count e) eqn:Hpos.
  - intros Hin. apply (Hrest st); [auto|]. by destruct (AgeHashCache_pass hc st).
  - destruct (MAX_HASH_CACHE_AGE <? _); [apply Hrest; auto|].
    match goal with |- context [AgeHashCache_pass hc ?s] => set (st1 := s) end.
    intros Hin. apply (Hrest st1); [|by destruct (AgeHashCache_pass hc st1)].
    subst st1. destruct (might_need_cache_purge st); [|auto].
    destruct (MAX_HASH_CACHE_SIZE <? table_size st); simpl; [|auto].
    intros [Hold|Hnew]%elem_of_app; [auto|].
    apply list_elem_of_singleton in Hnew as ->. right. simpl. split; [done|lia].
Qed.

(** A texture handed back by the loop was handed back before or belongs to
    an unused entry of the table. *)
Lemma AgeHashCache_pass_recycled (hc : HashCache) (st : AgeState) (t : GPUTexture) :
  t ∈ recycled (age_device (AgeHashCache_pass hc st).2) ->
  t ∈ recycled (age_device st)
  \/ exists k e, (k, e) ∈ hc /\ ref_count e <= 0 /\ he_texture e = t.
Proof.
  revert st. induction hc as [|[k e] hc IH]; intros st; simpl; [auto|].
  assert (Hrest : forall st1,
            (t ∈ recycled (age_device st1) ->
             t ∈ recycled (age_device st) \/ (ref_count e <= 0 /\ he_texture e = t)) ->
            t ∈ recycled (age_device (AgeHashCache_pass hc st1).2) ->
            t ∈ recycled (age_device st)
            \/ exists k0 e0, (k0, e0) ∈ (k, e) :: hc /\ ref_count e0 <= 0 /\ he_texture e0 = t).
  { intros st1 Hst1 Hin. destruct (IH st1 Hin) as [Hold|(k0 & e0 & Hin0 & Hrefs)].
    - destruct (Hst1 Hold) as [?|[? ?]]; [by left|]. right. exists k, e. split; [left|done].
    - right. exists k0, e0. split; [by right|done]. }
  destruct (0 <? ref_count e) eqn:Hpos.
  - intros Hin. apply (Hrest st); [auto|]. by destruct (AgeHashCache_pass hc st).
  - destruct (MAX_HASH_CACHE_AGE <? _).
    + apply Hrest. simpl. intros [->|Hold]%elem_of_cons; [right; split; [lia|done] | auto].
    + match goal with |- context [AgeHashCache_pass hc ?s] => set (st1 := s) end.
      intros Hin. apply (Hrest st1); [|by destruct (AgeHashCache_pass hc st1)].
      subst st1. destruct (might_need_cache_purge st); [|auto].
      destruct (MAX_HASH_CACHE_SIZE <? table_size st); simpl; auto.
Qed.

(** ** The purge *)

Lemma insert_by_age_elem (x y : HashCacheKey * Z) (l : list (HashCacheKey * Z)) :
  y ∈ insert_by_age x l -> y = x \/ y ∈ l.
Proof.
  induction l as [|z l IH]; simpl.
  - intros ->%list_elem_of_singleton. by left.
  - destruct (z.2 <? x.2).
    + intros [->|Hin]%elem_of_cons; auto.
    + intros [->|Hin]%elem_of_cons; [right; left|].
      destruct (IH Hin) as [?|?]; [by left|right; by right].
Qed.

Lemma sort_by_age_elem (y : HashCacheKey * Z) (l : list (HashCacheKey * Z)) :
  y ∈ sort_by_age l -> y ∈ l.
Proof.
  induction l as [|x l IH]; simpl; [done|].
  intros [->|Hin]%insert_by_age_elem; [left | right; by apply IH].
Qed.

Lemma RemoveFromHashCache_sublist (k : HashCacheKey) (st : HashCache * GPUDevice) :
  (RemoveFromHashCache k st).1 `sublist_of` st.1.
Proof.
  unfold RemoveFromHashCache. destruct (hc_find k st.1); simpl; [apply hc_erase_sublist|done].
Qed.

Lemma purge_entries_sublist (n : nat) (l : list (HashCacheKey * Z))
    (st : HashCache * GPUDevice) :
  (purge_entries n l st).1 `sublist_of` st.1.
Proof.
  revert l st. induction n as [|n IH]; intros [|[k a] l] st; simpl; try done.
  etrans; [apply IH | apply RemoveFromHashCache_sublist].
Qed.

(** The purge leaves alone every key that is not on the purge list. *)
Lemma purge_entries_find (k : HashCacheKey) (n : nat) (l : list (HashCacheKey * Z))
    (st : HashCache * GPUDevice) :
  (forall x, x ∈ l -> x.1 <> k) ->
  hc_find k (purge_entries n l st).1 = hc_find k st.1.
Proof.
  revert l st. induction n as [|n IH]; intros [|[k' a] l] st Hother; simpl; try done.
  rewrite IH by (intros x Hx; apply Hother; by right).
  assert (Hne : k' <> k) by (apply (Hother (k', a)); left).
  unfold RemoveFromHashCache. destruct (hc_find k' st.1); simpl; [|done].
  by apply hc_find_erase_ne.
Qed.

(** A texture handed back by the purge belongs to an entry whose key is on
    the purge list. *)
Lemma purge_entries_recycled (t : GPUTexture) (n : nat) (l : list (HashCacheKey * Z))
    (st : HashCache * GPUDevice) :
  t ∈ recycled (purge_entries n l st).2 ->
  t ∈ recycled st.2
  \/ exists x e, x ∈ l /\ (x.1, e) ∈ st.1 /\ he_texture e = t.
Proof.
  revert l st. induction n as [|n IH]; intros [|[k a] l] st; simpl; auto.
  intros Hin. destruct (IH _ _ Hin) as [Hold|(x & e & Hx & He & Ht)].
  - unfold RemoveFromHashCache in Hold. destruct (hc_find k st.1) as [e|] eqn:Hfind; [|auto].
    simpl in Hold. apply elem_of_cons in Hold as [->|Hold]; [|auto].
    right. exists (k, a), e. split; [left|]. split; [by apply hc_find_elem|done].
  - right. exists x, e. split; [by right|]. split; [|done].
    eapply elem_of_sublist; [exact He | apply RemoveFromHashCache_sublist].
Qed.

(** ** [AgeHashCache] as a whole *)

Lemma AgeHashCache_referenced (tc : GPUTextureCache) (dev : GPUDevice) :
  NoDup (m_hash_cache tc).*1 ->
  NoDup (m_hash_cache (AgeHashCache tc dev).1).*1
  /\ sources (AgeHashCache tc dev).1 = sources tc
  /\ m_page_sources (AgeHashCache tc dev).1 = m_page_sources tc
  /\ (forall k e,
        hc_find k (m_hash_cache tc) = Some e -> 0 < ref_count e ->
        hc_find k (m_hash_cache (AgeHashCache tc dev).1) = Some e)
  /\ (forall t,
        t ∈ recycled (AgeHashCache tc dev).2 ->
        t ∈ recycled dev
        \/ exists k e, (k, e) ∈ m_hash_cache tc /\ ref_count e <= 0 /\ he_texture e = t).
Proof.
  intros Hnd. unfold AgeHashCache.
  set (hc := m_hash_cache tc) in *.
  set (st0 := mkAge _ _ _ dev).
  pose proof (AgeHashCache_pass_kept hc st0) as Hkept.
  pose proof (AgeHashCache_pass_purge_list hc st0) as Hpurge.
  pose proof (AgeHashCache_pass_recycled hc st0) as Hrec.
  pose proof (AgeHashCache_pass_no_purge hc st0) as Hoff.
  destruct (AgeHashCache_pass hc st0) as [kept st]. simpl in *. subst kept.
  assert (Hnd1 : NoDup (age_pass_spec hc).*1).
  { eapply sublist_NoDup; [exact Hnd | apply age_pass_spec_keys]. }
  destruct (might_need_cache_purge st) eqn:Hmight.
  - assert (Hzero : forall x, x ∈ sort_by_age (purge_list st) ->
                      exists e, (x.1, e) ∈ hc /\ ref_count e <= 0).
    { intros x Hx%sort_by_age_elem. destruct (Hpurge x Hx) as [Hold|?]; [|done].
      subst st0. simpl in *. destruct (MAX_HASH_CACHE_SIZE <? _).
      - by apply elem_of_nil in Hold.
      - destruct Hoff as [Hoff _]; [done|]. congruence. }
    match goal with |- context [purge_entries ?n ?l ?s] =>
      pose proof (purge_entries_sublist n l s) as Hsub;
      pose proof (fun k => purge_entries_find k n l s) as Hfind;
      pose proof (fun t => purge_entries_recycled t n l s) as Hrec2;
      destruct (purge_entries n l s) as [hc2 dev2]
    end.
    simpl in *. split; [|split; [done|split; [done|split]]].
    + eapply sublist_keys_NoDup; [exact Hsub | exact Hnd1].
    + intros k e Hk Hrefs. rewrite Hfind; [by apply age_pass_spec_find|].
      intros x Hx Heq. destruct (Hzero x Hx) as (e' & He' & Hrefs').
      rewrite Heq in He'. apply (hc_find_NoDup _ _ _ Hnd) in He'. 
      assert (e' = e) by congruence. subst e'. lia.
    + intros t Ht. destruct (Hrec2 t Ht) as [Hold|(x & e & Hx & He & <-)]; [by apply Hrec|].
      right. destruct (Hzero x Hx) as (e' & He' & Hrefs').
      destruct (age_pass_spec_elem _ _ _ He) as (e0 & He0 & Htex & Href).
      apply (hc_find_NoDup _ _ _ Hnd) in He', He0. assert (e0 = e') by congruence. subst e0.
      exists x.1, e'. split; [by apply hc_find_elem|]. split; [done|congruence].
  - simpl. split; [done|]. split; [done|]. split; [done|]. split.
    + intros k e Hk Hrefs. by apply age_pass_spec_find.
    + intros t Ht. by apply Hrec.
Qed.

(** C6 (defect in [AgeHashCache]). On the crowded table the first loop leaves
    199 entries, below the limit of 200, but [might_need_cache_purge] is
    still set from the first entry; [size() - MAX_HASH_CACHE_SIZE] wraps and
    the unused entry of age 1 is purged, which the specification keeps. *)
Theorem AgeHashCache_purges_below_the_limit :
  let pass := AgeHashCache_pass crowded_table (mkAge 202 true [] two_textures) in
  let after := AgeHashCache crowded_cache two_textures in
  length crowded_table = 202%nat
  /\ (table_size pass.2, might_need_cache_purge pass.2, purge_list pass.2)
     = (199, true, [(table_key 0, 1)])
  /\ u32 (u64 (199 - MAX_HASH_CACHE_SIZE)) = 2 ^ 32 - 1
  /\ hc_find (table_key 0) (AgeHashCache_spec crowded_table)
     = Some (mkEntry (mkTexture 1000 []) 0 1)
  /\ length (AgeHashCache_spec crowded_table) = 199%nat
  /\ hc_find (table_key 0) (m_hash_cache after.1) = None
  /\ length (m_hash_cache after.1) = 198%nat.
Proof. vm_compute. auto 10. Qed.

(** ** Texture allocation failure *)

(** C8. When [FetchTexture] gives null: a [LookupSource] that reaches it
    returns null and leaves the cache as it was, with no entry inserted, no
    reference count touched, no [Source] allocated and no page list changed;
    and a [LookupSource] that returned after calling the device did so with
    null and the cache unchanged. *)
Theorem LookupSource_fetch_null `{Collaborators} (g_vram : VRAM) (k : SourceKey)
    (tc : GPUTextureCache) (dev : GPUDevice) :
  (FetchTexture dev).1 = None ->
  (lookup_reaches_fetch g_vram k tc ->
   LookupSource g_vram k tc dev = Ok (None, tc, (FetchTexture dev).2))
  /\ (forall r tc' dev',
        LookupSource g_vram k tc dev = Ok (r, tc', dev') ->
        fetches dev' <> fetches dev ->
        r = None /\ tc' = tc /\ dev' = (FetchTexture dev).2).
Proof.
  intros Hnull. split.
  - intros (l & th & ph & Hl & Hwalk & Hth & Hph & Hfind).
    unfold LookupSource. rewrite Hl. simpl. rewrite Hwalk. simpl.
    unfold CreateSource, LookupHashCache. rewrite Hth. simpl. rewrite Hph. simpl.
    rewrite Hfind. destruct (FetchTexture dev) as [t dev1]. simpl in *. subst t.
    reflexivity.
  - intros r tc' dev' Hrun Hcalled.
    unfold LookupSource in Hrun. inv_bind Hrun.
    destruct a0 as [n|].
    + inv_bind Hrun. injection Hrun as <- <- <-. done.
    + unfold CreateSource in Hrun. inv_bind Hrun.
      destruct a0 as [[hcentry tc1] dev1].
      unfold LookupHashCache in Hstep1. inv_bind Hstep1.
      destruct (hc_find _ _).
      * injection Hstep1 as <- <- <-. inv_bind Hrun. injection Hrun as <- <- <-. done.
      * destruct (FetchTexture dev) as [t dev2]. simpl in Hnull. subst t.
        injection Hstep1 as <- <- <-. by injection Hrun as <- <- <-.
Qed.

Lemma LookupSource_fetch_null_witness :
  (FetchTexture no_texture).1 = None
  /\ LookupSource (H := console) white_vram key_p0_16bit empty_cache no_texture
     = Ok (None, empty_cache, (FetchTexture no_texture).2).
Proof.
  split; [reflexivity|].
  apply (LookupSource_fetch_null (H := console) white_vram key_p0_16bit empty_cache
           no_texture); [reflexivity|].
  eexists _, _, _.
  split; [vm_compute; reflexivity|]. split; [vm_compute; reflexivity|].
  split; [vm_compute; reflexivity|]. split; vm_compute; reflexivity.
Defined.

(** ** Decoders *)

Lemma vram_read_Ok (g_vram : VRAM) (i : Z) :
  0 <= i < VRAM_WIDTH * VRAM_HEIGHT -> vram_read g_vram i = Ok (g_vram i).
Proof.
  intros Hi. unfold vram_read.
  destruct (0 <=? i) eqn:H0; [|lia]. destruct (i <? _) eqn:H1; [done|lia].
Qed.

Lemma land_15 (c : Z) : 0 <= Z.land c 15 < 16.
Proof. change 15 with (Z.ones 4). rewrite Z.land_ones by lia. apply Z.mod_pos_bound. lia. Qed.

Lemma land_255 (c : Z) : 0 <= Z.land c 255 < 256.
Proof. change 255 with (Z.ones 8). rewrite Z.land_ones by lia. apply Z.mod_pos_bound. lia. Qed.

Lemma shiftr_12_u16 (c : Z) : 0 <= c < 2 ^ 16 -> Z.shiftr c 12 = Z.land (Z.shiftr c 12) 15.
Proof.
  intros Hc. change 15 with (Z.ones 4). rewrite Z.land_ones by lia.
  rewrite Z.shiftr_div_pow2 by lia. rewrite Z.mod_small; [done|].
  split; [apply Z.div_pos; lia|]. apply Z.div_lt_upper_bound; lia.
Qed.

Lemma shiftr_8_u16 (c : Z) : 0 <= c < 2 ^ 16 -> Z.shiftr c 8 = Z.land (Z.shiftr c 8) 255.
Proof.
  intros Hc. change 255 with (Z.ones 8). rewrite Z.land_ones by lia.
  rewrite Z.shiftr_div_pow2 by lia. rewrite Z.mod_small; [done|].
  split; [apply Z.div_pos; lia|]. apply Z.div_lt_upper_bound; lia.
Qed.

Section DecoderProofs.
Context `{Collaborators}.
Variable g_vram : VRAM.
Hypothesis cells_u16 : vram_u16 g_vram.

Lemma DecodeTexture16_row_spec (n : nat) (ptr : Z) :
  0 <= ptr -> ptr + Z.of_nat n <= VRAM_WIDTH * VRAM_HEIGHT ->
  exists row, DecodeTexture16_row g_vram n ptr = Ok row
    /\ forall x : nat, (x < n)%nat ->
         row !! x = Some (VRAMRGBA5551ToRGBA8888 (g_vram (ptr + Z.of_nat x))).
Proof.
  revert ptr. induction n as [|n IH]; intros ptr H0 Hend; simpl.
  - eexists. split; [done|]. intros x Hx. lia.
  - rewrite vram_read_Ok by lia. simpl.
    destruct (IH (ptr + 1)) as (rest & -> & Hrest); [lia..|]. simpl.
    eexists. split; [done|]. intros [|x] Hx; simpl.
    + by rewrite Z.add_0_r.
    + replace (ptr + Z.of_nat (S x)) with (ptr + 1 + Z.of_nat x) by lia.
      apply Hrest. lia.
Qed.

Lemma DecodeTexture8_row_spec (pal : Z) (n : nat) (ptr : Z) :
  0 <= ptr -> ptr + Z.of_nat n <= VRAM_WIDTH * VRAM_HEIGHT ->
  0 <= pal -> pal + 256 <= VRAM_WIDTH * VRAM_HEIGHT ->
  exists row, DecodeTexture8_row g_vram pal n ptr = Ok row
    /\ forall i k : nat, (i < n)%nat -> (k < 2)%nat ->
         row !! (i * 2 + k)%nat
         = Some (VRAMRGBA5551ToRGBA8888
                   (g_vram (pal + byte_of (g_vram (ptr + Z.of_nat i)) (Z.of_nat k)))).
Proof.
  intros H0 Hend Hp0 Hpend. revert ptr H0 Hend.
  induction n as [|n IH]; intros ptr H0 Hend; simpl.
  - eexists. split; [done|]. intros i k Hi. lia.
  - rewrite vram_read_Ok by lia. simpl.
    pose proof (cells_u16 ptr) as Hc.
    pose proof (land_255 (g_vram ptr)) as Hlo.
    pose proof (land_255 (Z.shiftr (g_vram ptr) 8)) as Hhi.
    rewrite (shiftr_8_u16 _ Hc).
    rewrite !vram_read_Ok by lia. simpl.
    destruct (IH (ptr + 1)) as (rest & -> & Hrest); [lia..|]. simpl.
    eexists. split; [done|]. intros [|i] k Hi Hk.
    + rewrite Z.add_0_r. destruct k as [|[|k]]; [done|done|lia].
    + replace (ptr + Z.of_nat (S i)) with (ptr + 1 + Z.of_nat i) by lia.
      assert (Hi' : (i < n)%nat) by lia.
      apply (Hrest i k Hi' Hk).
Qed.

Lemma DecodeTexture4_row_spec (pal : Z) (n : nat) (ptr : Z) :
  0 <= ptr -> ptr + Z.of_nat n <= VRAM_WIDTH * VRAM_HEIGHT ->
  0 <= pal -> pal + 16 <= VRAM_WIDTH * VRAM_HEIGHT ->
  exists row, DecodeTexture4_row g_vram pal n ptr = Ok row
    /\ forall i k : nat, (i < n)%nat -> (k < 4)%nat ->
         row !! (i * 4 + k)%nat
         = Some (VRAMRGBA5551ToRGBA8888
                   (g_vram (pal + nibble (g_vram (ptr + Z.of_nat i)) (Z.of_nat k)))).
Proof.
  intros H0 Hend Hp0 Hpend. revert ptr H0 Hend.
  induction n as [|n IH]; intros ptr H0 Hend; simpl.
  - eexists. split; [done|]. intros i k Hi. lia.
  - rewrite vram_read_Ok by lia. simpl.
    pose proof (cells_u16 ptr) as Hc.
    pose proof (land_15 (g_vram ptr)) as Hn0.
    pose proof (land_15 (Z.shiftr (g_vram ptr) 4)) as Hn1.
    pose proof (land_15 (Z.shiftr (g_vram ptr) 8)) as Hn2.
    pose proof (land_15 (Z.shiftr (g_vram ptr) 12)) as Hn3.
    rewrite (shiftr_12_u16 _ Hc).
    rewrite !vram_read_Ok by lia. simpl.
    destruct (IH (ptr + 1)) as (rest & -> & Hrest); [lia..|]. simpl.
    eexists. split; [done|]. intros [|i] k Hi Hk.
    + rewrite Z.add_0_r. destruct k as [|[|[|[|k]]]]; [done|done|done|done|lia].
    + replace (ptr + Z.of_nat (S i)) with (ptr + 1 + Z.of_nat i) by lia.
      assert (Hi' : (i < n)%nat) by lia.
      apply (Hrest i k Hi' Hk).
Qed.

Lemma decode_rows_spec (row : Z -> Result (list Z)) (Q : Z -> list Z -> Prop)
    (n : nat) (ptr : Z) :
  (forall y : nat, (y < n)%nat ->
     exists r, row (ptr + Z.of_nat y * VRAM_WIDTH) = Ok r /\ Q (ptr + Z.of_nat y * VRAM_WIDTH) r) ->
  exists dest, decode_rows row n ptr = Ok dest
    /\ length dest = n
    /\ forall y : nat, (y < n)%nat ->
         exists r, dest !! y = Some r /\ Q (ptr + Z.of_nat y * VRAM_WIDTH) r.
Proof.
  revert ptr. induction n as [|n IH]; intros ptr Hrows; simpl.
  - eexists. split; [done|]. split; [done|]. intros y Hy. lia.
  - destruct (Hrows 0%nat) as (r0 & Hr0 & HQ0); [lia|].
    rewrite Z.mul_0_l, Z.add_0_r in Hr0, HQ0. rewrite Hr0. simpl.
    destruct (IH (ptr + VRAM_WIDTH)) as (rest & -> & Hlen & Hrest).
    { intros y Hy. destruct (Hrows (S y)) as (r & Hr & HQ); [lia|].
      replace (ptr + VRAM_WIDTH + Z.of_nat y * VRAM_WIDTH)
        with (ptr + Z.of_nat (S y) * VRAM_WIDTH) by lia. eauto. }
    simpl. eexists. split; [done|]. split; [simpl; lia|].
    intros [|y] Hy; simpl.
    + exists r0. by rewrite Z.mul_0_l, Z.add_0_r.
    + destruct (Hrest y) as (r & Hr & HQ); [lia|]. exists r. split; [done|].
      replace (ptr + Z.of_nat (S y) * VRAM_WIDTH)
        with (ptr + VRAM_WIDTH + Z.of_nat y * VRAM_WIDTH) by lia. done.
Qed.
End DecoderProofs.

Lemma to_nat_div_mod (x d : Z) :
  0 <= x -> 0 < d ->
  Z.to_nat x = (Z.to_nat (x / d) * Z.to_nat d + Z.to_nat (x mod d))%nat
  /\ 0 <= x / d /\ 0 <= x mod d < d /\ (0 < d * 64 -> x < d * 64 -> x / d < 64).
Proof.
  intros Hx Hd.
  pose proof (Z.div_mod x d ltac:(lia)) as Heq.
  pose proof (Z.mod_pos_bound x d Hd) as Hr.
  assert (Hq : 0 <= x / d) by (apply Z.div_pos; lia).
  split; [|split; [done|split; [done|]]].
  - rewrite <- Z2Nat.inj_mul, <- Z2Nat.inj_add by lia. f_equal. lia.
  - intros _ Hlt. apply Z.div_lt_upper_bound; lia.
Qed.

Lemma texel_lookup (dest : list (list Z)) (row : list Z) (y x : Z) :
  dest !! Z.to_nat y = Some row -> texel dest y x = row !! Z.to_nat x.
Proof. unfold texel. by intros ->. Qed.

(** C9. For a VRAM of 16-bit cells and a page, mode and palette whose cells
    lie inside it, the decoders give the reference mapping: in the 16-bit
    modes texel (y, x) is the conversion of [page[y*VRAM_WIDTH + x]]; in the
    4-bit mode the four texels of a cell come from its nibbles, low to high,
    each through the 16-entry CLUT; in the 8-bit mode the two texels of a
    cell come from its low and its high byte through the 256-entry CLUT. *)
Theorem DecodeTexture_reference `{Collaborators} (g_vram : VRAM) (pn pal : Z)
    (m : GPUTextureMode) :
  vram_u16 g_vram ->
  decode_in_bounds pn pal m ->
  exists dest,
    DecodeTexture g_vram pn pal m = Ok dest
    /\ length dest = Z.to_nat TEXTURE_PAGE_HEIGHT
    /\ forall y x,
         0 <= y < TEXTURE_PAGE_HEIGHT -> 0 <= x < TEXTURE_PAGE_WIDTH ->
         texel dest y x = Some (reference_texel g_vram pn pal m y x).
Proof.
  intros Hu16 [Hpage Hpal].
  pose proof (u32_range (u32 (PageStartY pn * VRAM_WIDTH) + PageStartX pn)) as Hptr.
  pose proof (u32_range (u32 (GetYBase pal * VRAM_WIDTH) + GetXBase pal)) as Hclut.
  fold (VRAMPagePointer pn) in Hptr. fold (PalettePointer pal) in Hclut.
  unfold DecodeTexture, reference_texel.
  set (page_ptr := VRAMPagePointer pn) in *. set (clut := PalettePointer pal) in *.
  unfold VRAM_WIDTH, VRAM_HEIGHT, TEXTURE_PAGE_HEIGHT, TEXTURE_PAGE_WIDTH in *.
  destruct m; cbn in Hpal;
    match type of Hpage with context [WidthForMode ?m] =>
      let w := eval vm_compute in (WidthForMode m) in
      change (WidthForMode m) with w in Hpage
    end.
  - (* Palette4Bit *)
    specialize (Hpal eq_refl).
    destruct (decode_rows_spec
                (DecodeTexture4_row g_vram clut 64%nat)
                (fun ptr r => forall i k : nat, (i < 64)%nat -> (k < 4)%nat ->
                   r !! (i * 4 + k)%nat
                   = Some (VRAMRGBA5551ToRGBA8888
                             (g_vram (clut + nibble (g_vram (ptr + Z.of_nat i)) (Z.of_nat k)))))
                256%nat page_ptr) as (dest & Hdest & Hlen & Hrows).
    { intros y Hy. unfold VRAM_WIDTH.
      destruct (DecodeTexture4_row_spec g_vram Hu16 clut 64%nat
                  (page_ptr + Z.of_nat y * 1024)) as (r & Hr & Hcells);
        unfold VRAM_WIDTH, VRAM_HEIGHT; try lia.
      exists r. split; [done|]. intros i k Hi Hk. apply Hcells; lia. }
    exists dest. split; [exact Hdest|]. split; [exact Hlen|].
    intros y x Hy Hx.
    destruct (Hrows (Z.to_nat y)) as (r & Hr & Hcells); [lia|].
    rewrite (texel_lookup _ _ _ _ Hr).
    destruct (to_nat_div_mod x 4) as (-> & Hq & Hrm & Hq64); [lia..|].
    change (Z.to_nat 4) with 4%nat. rewrite Hcells by lia. unfold VRAM_WIDTH.
    rewrite !Z2Nat.id by lia. done.
  - (* Palette8Bit *)
    specialize (Hpal eq_refl).
    destruct (decode_rows_spec
                (DecodeTexture8_row g_vram clut 128%nat)
                (fun ptr r => forall i k : nat, (i < 128)%nat -> (k < 2)%nat ->
                   r !! (i * 2 + k)%nat
                   = Some (VRAMRGBA5551ToRGBA8888
                             (g_vram (clut + byte_of (g_vram (ptr + Z.of_nat i)) (Z.of_nat k)))))
                256%nat page_ptr) as (dest & Hdest & Hlen & Hrows).
    { intros y Hy. unfold VRAM_WIDTH.
      destruct (DecodeTexture8_row_spec g_vram Hu16 clut 128%nat
                  (page_ptr + Z.of_nat y * 1024)) as (r & Hr & Hcells);
        unfold VRAM_WIDTH, VRAM_HEIGHT; try lia.
      exists r. split; [done|]. intros i k Hi Hk. apply Hcells; lia. }
    exists dest. split; [exact Hdest|]. split; [exact Hlen|].
    intros y x Hy Hx.
    destruct (Hrows (Z.to_nat y)) as (r & Hr & Hcells); [lia|].
    rewrite (texel_lookup _ _ _ _ Hr).
    destruct (to_nat_div_mod x 2) as (-> & Hq & Hrm & Hq64); [lia..|].
    assert (x / 2 < 128) by (apply Z.div_lt_upper_bound; lia).
    change (Z.to_nat 2) with 2%nat. rewrite Hcells by lia. unfold VRAM_WIDTH.
    rewrite !Z2Nat.id by lia. done.
  - (* Direct16Bit *)
    destruct (decode_rows_spec
                (DecodeTexture16_row g_vram 256%nat)
                (fun ptr r => forall x : nat, (x < 256)%nat ->
                   r !! x = Some (VRAMRGBA5551ToRGBA8888 (g_vram (ptr + Z.of_nat x))))
                256%nat page_ptr) as (dest & Hdest & Hlen & Hrows).
    { intros y Hy. unfold VRAM_WIDTH.
      destruct (DecodeTexture16_row_spec g_vram 256%nat
                  (page_ptr + Z.of_nat y * 1024)) as (r & Hr & Hcells);
        unfold VRAM_WIDTH, VRAM_HEIGHT; try lia.
      exists r. split; [done|]. intros x Hx. apply Hcells; lia. }
    exists dest. split; [exact Hdest|]. split; [exact Hlen|].
    intros y x Hy Hx.
    destruct (Hrows (Z.to_nat y)) as (r & Hr & Hcells); [lia|].
    rewrite (texel_lookup _ _ _ _ Hr). rewrite Hcells by lia. unfold VRAM_WIDTH.
    rewrite !Z2Nat.id by lia. done.
  - (* Reserved_Direct16Bit *)
    destruct (decode_rows_spec
                (DecodeTexture16_row g_vram 256%nat)
                (fun ptr r => forall x : nat, (x < 256)%nat ->
                   r !! x = Some (VRAMRGBA5551ToRGBA8888 (g_vram (ptr + Z.of_nat x))))
                256%nat page_ptr) as (dest & Hdest & Hlen & Hrows).
    { intros y Hy. unfold VRAM_WIDTH.
      destruct (DecodeTexture16_row_spec g_vram 256%nat
                  (page_ptr + Z.of_nat y * 1024)) as (r & Hr & Hcells);
        unfold VRAM_WIDTH, VRAM_HEIGHT; try lia.
      exists r. split; [done|]. intros x Hx. apply Hcells; lia. }
    exists dest. split; [exact Hdest|]. split; [exact Hlen|].
    intros y x Hy Hx.
    destruct (Hrows (Z.to_nat y)) as (r & Hr & Hcells); [lia|].
    rewrite (texel_lookup _ _ _ _ Hr). rewrite Hcells by lia. unfold VRAM_WIDTH.
    rewrite !Z2Nat.id by lia. done.
Qed.

Lemma DecodeTexture_reference_witness :
  vram_u16 white_vram
  /\ decode_in_bounds (H := console) 0 0 Palette4Bit
  /\ exists dest,
       DecodeTexture (H := console) white_vram 0 0 Palette4Bit = Ok dest
       /\ length dest = Z.to_nat TEXTURE_PAGE_HEIGHT
       /\ forall y x,
            0 <= y < TEXTURE_PAGE_HEIGHT -> 0 <= x < TEXTURE_PAGE_WIDTH ->
            texel dest y x
            = Some (reference_texel (H := console) white_vram 0 0 Palette4Bit y x).
Proof.
  assert (Hcells : vram_u16 white_vram) by (intros i; unfold white_vram; lia).
  assert (Hin : decode_in_bounds (H := console) 0 0 Palette4Bit).
  { split; [vm_compute; discriminate | intros _; vm_compute; discriminate]. }
  split; [exact Hcells|]. split; [exact Hin|].
  exact (DecodeTexture_reference (H := console) white_vram 0 0 Palette4Bit Hcells Hin).
Defined.

(** ** Source creation *)

Lemma set_page_sources_same (tc : GPUTextureCache) :
  set_page_sources (m_page_sources tc) tc = tc.
Proof. by destruct tc. Qed.

Lemma set_node_list_effect (src : nat) (ri pn : Z) (tc tc1 : GPUTextureCache) :
  set_node_list src ri pn tc = Ok tc1 ->
  exists s refs,
    sources tc !! src = Some s
    /\ m_page_sources tc1 = m_page_sources tc
    /\ m_hash_cache tc1 = m_hash_cache tc
    /\ sources tc1
       = <[src := mkSource (key s) (num_page_refs s) (texture s) (from_hash_cache s) refs]>
           (sources tc).
Proof.
  unfold set_node_list. intros Hset.
  apply bind_Ok_inv in Hset as (s & Hs & Hset). inv_opt Hs.
  apply bind_Ok_inv in Hset as (? & _ & Hset). injection Hset as <-.
  by exists s, (<[Z.to_nat ri := Some pn]> (page_refs s)).
Qed.

(** [ListPrepend] puts the node at the head of the list of its page. *)
Lemma ListPrepend_front (pn : Z) (src : nat) (ri : Z) (tc tc' : GPUTextureCache) :
  ListPrepend pn src ri tc = Ok tc' ->
  exists l, m_page_sources tc' !! Z.to_nat pn = Some ((src, ri) :: l).
Proof.
  unfold ListPrepend. intros Hrun.
  apply bind_Ok_inv in Hrun as (l & Hl & Hrun). inv_opt Hl.
  apply bind_Ok_inv in Hrun as (tc1 & Hset & Hrun). injection Hrun as <-.
  destruct (set_node_list_effect _ _ _ _ _ Hset) as (s & refs & Hs & Hps & Hhc & Hsrc).
  exists l. simpl. rewrite Hps. apply list_lookup_insert_eq. by eapply lookup_lt_Some.
Qed.

Lemma ListPrepend_links : links_node ListPrepend.
Proof.
  intros pn src ri tc tc' Hrun. unfold ListPrepend in Hrun.
  apply bind_Ok_inv in Hrun as (l & Hl & Hrun). inv_opt Hl.
  apply bind_Ok_inv in Hrun as (tc1 & Hset & Hrun). injection Hrun as <-.
  destruct (set_node_list_effect _ _ _ _ _ Hset) as (s & refs & Hs & Hps & Hhc & Hsrc).
  exists l, ((src, ri) :: l), s, refs. simpl. by rewrite Hps.
Qed.

Lemma ListAppend_links : links_node ListAppend.
Proof.
  intros pn src ri tc tc' Hrun. unfold ListAppend in Hrun.
  apply bind_Ok_inv in Hrun as (l & Hl & Hrun). inv_opt Hl.
  apply bind_Ok_inv in Hrun as (tc1 & Hset & Hrun). injection Hrun as <-.
  destruct (set_node_list_effect _ _ _ _ _ Hset) as (s & refs & Hs & Hps & Hhc & Hsrc).
  exists l, (l ++ [(src, ri)]), s, refs. simpl. by rewrite Hps.
Qed.

Section AddPageRef.
Variable link : Z -> nat -> Z -> GPUTextureCache -> Result GPUTextureCache.
Hypothesis link_links : links_node link.
Variable src : nat.
Variable k : SourceKey.

(** Registering a page touches neither the table nor the key, the texture
    and the entry of the source. *)
Lemma add_page_ref_with_kept (hc : HashCache) (hk : HashCacheKey) (t : Z) (pn : Z)
    (st st' : list Z * GPUTextureCache) :
  add_page_ref_with link src pn st = Ok st' ->
  creation_kept hc src k hk t st.2 -> creation_kept hc src k hk t st'.2.
Proof.
  destruct st as [refns tc]. unfold add_page_ref_with. simpl.
  intros Hrun (Hhc & s & Hs & Hk & Hfrom & Htex).
  rewrite Hs in Hrun. simpl in Hrun.
  destruct (existsb _ _).
  { injection Hrun as <-. simpl. split; [done|]. eauto. }
  apply bind_Ok_inv in Hrun as (? & _ & Hrun).
  apply bind_Ok_inv in Hrun as (tc2 & Hlink & Hrun). injection Hrun as <-. simpl.
  destruct (link_links _ _ _ _ _ Hlink) as (l & l' & s1 & refs & _ & Hs1 & _ & Hsrc & Hhc2).
  simpl in *. rewrite lookup_insert_eq in Hs1. injection Hs1 as <-.
  split; [congruence|]. rewrite Hsrc, lookup_insert_eq. eexists. split; [done|]. done.
Qed.

(** Once the source heads the list of its primary page, registering
    further pages keeps it there. *)
Lemma add_page_ref_with_anchored (pn : Z) (st st' : list Z * GPUTextureCache) :
  0 <= page k -> 0 <= pn ->
  add_page_ref_with link src pn st = Ok st' ->
  anchored src k st -> anchored src k st'.
Proof.
  destruct st as [refns tc]. unfold add_page_ref_with, anchored. simpl.
  intros Hpage Hpn Hrun (s & rest & Hs & Hk & Hnum & Hlen & Hfirst & Hhead).
  rewrite Hs in Hrun. simpl in Hrun.
  destruct (existsb _ _) eqn:Hdup.
  { injection Hrun as <-. simpl. eauto 10. }
  apply bind_Ok_inv in Hrun as (old & Hri & Hrun). inv_opt Hri.
  apply lookup_lt_Some in Hri.
  apply bind_Ok_inv in Hrun as (tc2 & Hlink & Hrun). injection Hrun as <-. simpl.
  destruct (link_links _ _ _ _ _ Hlink) as (l & l' & s1 & refs & Hl & Hs1 & Hps & Hsrc & _).
  simpl in *. rewrite lookup_insert_eq in Hs1. injection Hs1 as <-. simpl in *.
  assert (Hne : pn <> page k).
  { intros ->. apply not_true_iff_false in Hdup. apply Hdup.
    apply existsb_exists. exists (page k). split; [|apply Z.eqb_refl].
    apply list_elem_of_In. apply (list_elem_of_lookup_2 _ 0%nat).
    rewrite lookup_take_lt by lia. exact Hfirst. }
  unfold MAX_PAGE_REFS_PER_SOURCE in *.
  eexists _, rest. rewrite Hsrc, lookup_insert_eq. split; [done|]. simpl.
  split; [done|]. split; [rewrite u32_small; lia|].
  split; [by rewrite length_insert|].
  split; [rewrite list_lookup_insert_ne by lia; done|].
  rewrite Hps, list_lookup_insert_ne by lia. done.
Qed.
End AddPageRef.

(** The first page registered for a new source is anchored at once. *)
Lemma add_page_ref_first (src : nat) (k : SourceKey) (t : Z) (from : option HashCacheKey)
    (refs : list (option Z)) (tc : GPUTextureCache) (st' : list Z * GPUTextureCache) :
  0 <= page k ->
  sources tc !! src = Some (mkSource k 0 t from refs) ->
  add_page_ref src (page k) (replicate (Z.to_nat MAX_PAGE_REFS_PER_SOURCE) 0, tc) = Ok st' ->
  anchored src k st'.
Proof.
  intros Hpage Hs. unfold add_page_ref, add_page_ref_with. rewrite Hs. simpl. intros Hrun.
  apply bind_Ok_inv in Hrun as (tc2 & Hlink & Hrun). injection Hrun as <-.
  destruct (ListPrepend_front _ _ _ _ _ Hlink) as (l & Hhead).
  destruct (ListPrepend_links _ _ _ _ _ Hlink) as (? & ? & s1 & refs1 & _ & Hs1 & _ & Hsrc & _).
  simpl in Hs1. rewrite lookup_insert_eq in Hs1. injection Hs1 as <-. simpl in Hsrc.
  unfold anchored. simpl. eexists _, l. rewrite Hsrc, lookup_insert_eq.
  split; [done|]. simpl. split; [done|]. split; [done|]. split; [done|]. split; [done|].
  exact Hhead.
Qed.

(** The footprint of a page has one page row and at least one page column,
    and its top left corner is in the page itself. *)
Lemma footprint_loop (p : Z) (m : GPUTextureMode) :
  0 <= p < 2 ^ 8 ->
  (exists rows,
     loop_count (PageStartY p / VRAM_PAGE_HEIGHT)
       (u32 (PageStartY p + u32 (TEXTURE_PAGE_HEIGHT - 1)) / VRAM_PAGE_HEIGHT) = S rows)
  /\ (exists columns,
        loop_count (PageStartX p / VRAM_PAGE_WIDTH)
          (u32 (PageStartX p + u32 (WidthForMode m - 1)) / VRAM_PAGE_WIDTH) = S columns)
  /\ PageIndex (PageStartX p / VRAM_PAGE_WIDTH) (PageStartY p / VRAM_PAGE_HEIGHT) = p.
Proof.
  intros Hp.
  assert (Hw : WidthForMode m = 64 \/ WidthForMode m = 128 \/ WidthForMode m = 256)
    by (destruct m; vm_compute; auto).
  unfold PageStartX, PageStartY, PageIndex, loop_count.
  change VRAM_PAGES_WIDE with 16. change VRAM_PAGE_WIDTH with 64.
  change VRAM_PAGE_HEIGHT with 256. change TEXTURE_PAGE_HEIGHT with 256.
  change (u32 (256 - 1)) with 255.
  pose proof (Z.div_mod p 16 ltac:(lia)) as Hdm.
  pose proof (Z.mod_pos_bound p 16 ltac:(lia)) as Hr.
  assert (Hq : 0 <= p / 16 < 16).
  { split; [apply Z.div_pos; lia | apply Z.div_lt_upper_bound; lia]. }
  set (q := p / 16) in *. set (r := p mod 16) in *.
  rewrite (u32_small (r * 64)) by lia. rewrite (u32_small (q * 256)) by lia.
  rewrite (u32_small (q * 256 + 255)) by lia.
  rewrite Z.div_mul by lia. rewrite Z.div_mul by lia.
  assert (Hey : (q * 256 + 255) / 256 = q).
  { symmetry. apply (Z.div_unique _ _ q 255); lia. }
  rewrite Hey.
  split; [exists 0%nat; lia|]. split.
  - assert (Hwm : u32 (WidthForMode m - 1) = WidthForMode m - 1) by (apply u32_small; lia).
    rewrite Hwm. rewrite u32_small by lia.
    assert (Hex : r <= (r * 64 + (WidthForMode m - 1)) / 64).
    { apply Z.div_le_lower_bound; lia. }
    exists (Z.to_nat ((r * 64 + (WidthForMode m - 1)) / 64 - r)). lia.
  - rewrite (u32_small (q * 16)) by lia. rewrite u32_small by lia. lia.
Qed.

Section Creation.
Context `{Collaborators}.
Variable g_vram : VRAM.

Lemma LookupHashCache_entry (k : SourceKey) (tc tc1 : GPUTextureCache)
    (dev dev1 : GPUDevice) (hk : HashCacheKey) :
  hash_cache_wf (m_hash_cache tc) ->
  LookupHashCache g_vram k tc dev = Ok (Some hk, tc1, dev1) ->
  sources tc1 = sources tc
  /\ m_page_sources tc1 = m_page_sources tc
  /\ NoDup (m_hash_cache tc1).*1
  /\ exists e, hc_find hk (m_hash_cache tc1) = Some e /\ 0 <= ref_count e < 2 ^ 32 - 1.
Proof.
  intros [Hnd Hrefs] Hrun. unfold LookupHashCache in Hrun.
  apply bind_Ok_inv in Hrun as (th & _ & Hrun).
  apply bind_Ok_inv in Hrun as (ph & _ & Hrun).
  destruct (hc_find _ _) as [e|] eqn:Hfind.
  - injection Hrun as <- <- <-. repeat (split; [done|]). exists e. split; [done|].
    apply hc_find_elem in Hfind. rewrite Forall_forall in Hrefs.
    apply (Hrefs _ Hfind).
  - destruct (FetchTexture dev) as [[t|] dev2]; [|discriminate].
    apply bind_Ok_inv in Hrun as (texels & _ & Hrun). injection Hrun as <- <- <-.
    simpl. split; [done|]. split; [done|]. split.
    + apply NoDup_cons. split; [by apply hc_find_None | done].
    + eexists. rewrite decide_True by done. split; [done|]. simpl. lia.
Qed.

(** What [CreateSource] leaves behind for the source it returns. *)
Lemma CreateSource_created (k : SourceKey) (tc tc1 : GPUTextureCache)
    (dev dev1 : GPUDevice) (src : nat) :
  CreateSource g_vram k tc dev = Ok (Some src, tc1, dev1) ->
  (0 <= page k < 2 ^ 8 ->
     exists s rest, sources tc1 !! src = Some s /\ key s = k
       /\ m_page_sources tc1 !! Z.to_nat (page k) = Some ((src, 0) :: rest))
  /\ (hash_cache_wf (m_hash_cache tc) ->
      NoDup (m_hash_cache tc1).*1
      /\ exists s hk e,
           sources tc1 !! src = Some s
           /\ from_hash_cache s = Some hk
           /\ hc_find hk (m_hash_cache tc1) = Some e
           /\ texture s = tex_id (he_texture e)
           /\ 0 < ref_count e).
Proof.
  unfold CreateSource. intros Hrun.
  apply bind_Ok_inv in Hrun as ([[hcentry tc0] dev0] & Hlook & Hrun).
  destruct hcentry as [hk|]; [|discriminate].
  apply bind_Ok_inv in Hrun as (e & He & Hrun). inv_opt He.
  apply bind_Ok_inv in Hrun as (st4 & Hfoot & Hrun).
  apply bind_Ok_inv in Hrun as (st5 & Hclut & Hrun).
  injection Hrun as <- <- <-.
  set (e' := mkEntry (he_texture e) (u32 (ref_count e + 1)) 0) in *.
  set (hc2 := hc_store hk e' (m_hash_cache tc0)) in *.
  set (s0 := mkSource k 0 (tex_id (he_texture e)) (Some hk) _) in *.
  set (tc3 := set_next_source _ _) in *.
  change (next_source (set_hash_cache hc2 tc0)) with (next_source tc0) in *.
  assert (Hs0 : sources tc3 !! next_source tc0 = Some s0).
  { subst tc3. simpl. apply lookup_insert_eq. }
  split.
  - intros Hpage.
    destruct (footprint_loop (page k) (mode k) Hpage) as ((rows & Hrows) & (cols & Hcols) & Hpn).
    destruct (LoopPages_first (add_page_ref (next_source tc0))
                (anchored (next_source tc0) k)
                (fun pn a b Hpn' Ha Hb =>
                   add_page_ref_with_anchored ListPrepend ListPrepend_links
                     (next_source tc0) k pn a b (proj1 Hpage) Hpn' Hb Ha)
                _ _ _ _ _ _ rows cols Hrows Hcols Hfoot) as (st1 & Hcall & Hkeep).
    rewrite Hpn in Hcall.
    apply (add_page_ref_first _ _ _ _ _ _ _ (proj1 Hpage) Hs0) in Hcall.
    apply Hkeep in Hcall.
    assert (Hanch : anchored (next_source tc0) k st5).
    { destruct (is_paletted (mode k)); [|by injection Hclut as <-].
      eapply (LoopPages_inv (add_page_ref_back (next_source tc0))
                (anchored (next_source tc0) k)); [|exact Hcall|exact Hclut].
      intros pn a b Hpn' Ha Hb.
      eapply (add_page_ref_with_anchored ListAppend ListAppend_links); eauto. lia. }
    destruct Hanch as (s & rest & Hs & Hk & _ & _ & _ & Hhead). eauto.
  - intros Hwf.
    destruct (LookupHashCache_entry _ _ _ _ _ _ Hwf Hlook)
      as (Hsrc & Hps & Hnd & e1 & He1 & Hrefs).
    assert (e1 = e) by congruence. subst e1.
    assert (Hkept3 : creation_kept hc2 (next_source tc0) k hk (tex_id (he_texture e)) tc3).
    { split; [done|]. exists s0. done. }
    assert (Hkept4 : creation_kept hc2 (next_source tc0) k hk (tex_id (he_texture e)) st4.2).
    { eapply (LoopPages_inv (add_page_ref (next_source tc0))
                (fun st => creation_kept hc2 (next_source tc0) k hk
                             (tex_id (he_texture e)) st.2));
        [| |exact Hfoot]; [|exact Hkept3].
      intros pn a b _ Ha Hb.
      eapply (add_page_ref_with_kept ListPrepend ListPrepend_links); eauto. }
    assert (Hkept5 : creation_kept hc2 (next_source tc0) k hk (tex_id (he_texture e)) st5.2).
    { destruct (is_paletted (mode k)); [|by injection Hclut as <-].
      eapply (LoopPages_inv (add_page_ref_back (next_source tc0))
                (fun st => creation_kept hc2 (next_source tc0) k hk
                             (tex_id (he_texture e)) st.2));
        [| |exact Hclut]; [|exact Hkept4].
      intros pn a b _ Ha Hb.
      eapply (add_page_ref_with_kept ListAppend ListAppend_links); eauto. }
    destruct Hkept5 as (Hhc & s & Hs & Hk & Hfrom & Htex).
    rewrite Hhc. subst hc2. split; [by rewrite hc_store_keys|].
    exists s, hk, e'. split; [done|]. split; [done|].
    split; [by eapply hc_find_store|]. split; [done|].
    subst e'. simpl. rewrite u32_small; lia.
Qed.
End Creation.

(** ** Repeated lookup *)

Lemma LookupSource_walk_Some (k : SourceKey) (heap : gmap nat Source) (l : SourceList)
    (n : SourceListNode) :
  LookupSource_walk k heap l = Ok (Some n) ->
  exists s, heap !! n.1 = Some s /\ key s = k.
Proof.
  induction l as [|n' l IH]; simpl; [discriminate|]. intros Hrun.
  apply bind_Ok_inv in Hrun as (s & Hs & Hrun). inv_opt Hs.
  case_decide as Hk; [|by apply IH]. injection Hrun as <-. eauto.
Qed.

Lemma ListMoveToFront_head (l l' : SourceList) (n : SourceListNode) :
  ListMoveToFront l n = Ok l' -> exists rest, l' = n :: rest.
Proof.
  destruct l as [|h l]; simpl; [discriminate|].
  case_decide as Hh; intros [= <-]; subst; eauto.
Qed.

Section Lookup.
Context `{Collaborators}.
Variable g_vram : VRAM.

(** A lookup for the key of the source at the head of its primary list
    returns that source and changes nothing. *)
Lemma LookupSource_head (k : SourceKey) (tc : GPUTextureCache) (dev : GPUDevice)
    (n : SourceListNode) (rest : SourceList) (s : Source) :
  m_page_sources tc !! Z.to_nat (page k) = Some (n :: rest) ->
  sources tc !! n.1 = Some s -> key s = k ->
  LookupSource g_vram k tc dev = Ok (Some n.1, tc, dev).
Proof.
  intros Hl Hs Hk. unfold LookupSource. unfold SourceList, SourceListNode in *.
  rewrite Hl. simpl. rewrite Hs. simpl.
  rewrite decide_True by done. simpl. rewrite decide_True by done. simpl.
  rewrite list_insert_id by done. by rewrite set_page_sources_same.
Qed.

(** When [LookupSource] has returned a source for a key, a second
    [LookupSource] for the key on the state it left returns the same
    source and leaves that state as it is: no [Source] and no table entry
    is allocated, no reference count changes, the device is not called;
    and the node of the source is at the front of the list of the primary
    page. *)
Lemma LookupSource_immediately (k : SourceKey) (tc tc1 : GPUTextureCache)
    (dev dev1 : GPUDevice) (src : nat) :
  0 <= page k < 2 ^ 8 ->
  LookupSource g_vram k tc dev = Ok (Some src, tc1, dev1) ->
  LookupSource g_vram k tc1 dev1 = Ok (Some src, tc1, dev1)
  /\ exists ri rest s,
       m_page_sources tc1 !! Z.to_nat (page k) = Some ((src, ri) :: rest)
       /\ sources tc1 !! src = Some s /\ key s = k.
Proof.
  intros Hpage Hrun. unfold LookupSource in Hrun.
  apply bind_Ok_inv in Hrun as (l & Hl & Hrun). inv_opt Hl.
  apply bind_Ok_inv in Hrun as (hit & Hwalk & Hrun).
  destruct hit as [[src0 ri]|].
  - apply bind_Ok_inv in Hrun as (l' & Hmove & Hrun). injection Hrun as <- <- <-.
    destruct (LookupSource_walk_Some _ _ _ _ Hwalk) as (s & Hs & Hk).
    destruct (ListMoveToFront_head _ _ _ Hmove) as (rest & ->).
    assert (Hhead : m_page_sources
                      (set_page_sources
                         (<[Z.to_nat (page k) := (src0, ri) :: rest]> (m_page_sources tc)) tc)
                    !! Z.to_nat (page k) = Some ((src0, ri) :: rest)).
    { simpl. apply list_lookup_insert_eq. by eapply lookup_lt_Some. }
    split.
    + by apply (LookupSource_head k _ dev (src0, ri) rest s).
    + exists ri, rest, s. done.
  - destruct (CreateSource_created g_vram _ _ _ _ _ _ Hrun) as [Hanch _].
    destruct (Hanch Hpage) as (s & rest & Hs & Hk & Hhead).
    split.
    + by apply (LookupSource_head k _ dev1 (src, 0) rest s).
    + exists 0, rest, s. done.
Qed.
End Lookup.

(** ** Live sources and ageing *)

(** An entry of the table after [AgeHashCache] is an entry of the table
    before it, but for its age. *)
Lemma AgeHashCache_entries (tc : GPUTextureCache) (dev : GPUDevice)
    (k : HashCacheKey) (e : HashCacheEntry) :
  (k, e) ∈ m_hash_cache (AgeHashCache tc dev).1 ->
  exists e0, (k, e0) ∈ m_hash_cache tc
    /\ he_texture e = he_texture e0 /\ ref_count e = ref_count e0.
Proof.
  unfold AgeHashCache.
  match goal with |- context [AgeHashCache_pass ?hc ?s] =>
    pose proof (AgeHashCache_pass_kept hc s) as Hkept;
    destruct (AgeHashCache_pass hc s) as [kept st]
  end.
  simpl in Hkept. subst kept.
  destruct (might_need_cache_purge st).
  - match goal with |- context [purge_entries ?n ?l ?s] =>
      pose proof (purge_entries_sublist n l s) as Hsub;
      destruct (purge_entries n l s) as [hc2 dev2]
    end.
    simpl in *. intros Hin. apply age_pass_spec_elem. by eapply elem_of_sublist.
  - simpl. apply age_pass_spec_elem.
Qed.

(** Any number of ageing passes keeps the entries in use, hands back only
    textures of unused entries and leaves the sources alone. *)
Lemma AgeHashCache_times_referenced (n : nat) (tc : GPUTextureCache) (dev : GPUDevice) :
  NoDup (m_hash_cache tc).*1 ->
  sources (AgeHashCache_times n tc dev).1 = sources tc
  /\ (forall k e,
        hc_find k (m_hash_cache tc) = Some e -> 0 < ref_count e ->
        hc_find k (m_hash_cache (AgeHashCache_times n tc dev).1) = Some e)
  /\ (forall t,
        t ∈ recycled (AgeHashCache_times n tc dev).2 ->
        t ∈ recycled dev
        \/ exists k e, (k, e) ∈ m_hash_cache tc /\ ref_count e <= 0 /\ he_texture e = t).
Proof.
  revert tc dev. induction n as [|n IH]; intros tc dev Hnd; simpl.
  - split; [done|]. split; [done|]. auto.
  - destruct (AgeHashCache_referenced tc dev Hnd) as (Hnd1 & Hsrc & _ & Hkeep & Hrec).
    pose proof (AgeHashCache_entries tc dev) as Hent.
    destruct (AgeHashCache tc dev) as [tc1 dev1]. simpl in *.
    destruct (IH tc1 dev1 Hnd1) as (Hsrc' & Hkeep' & Hrec').
    split; [congruence|]. split; [by auto|].
    intros t Ht. destruct (Hrec' t Ht) as [Hold|(k & e & Hin & Hrefs & Htex)]; [by auto|].
    right. destruct (Hent k e Hin) as (e0 & Hin0 & Htex0 & Hrefs0).
    exists k, e0. split; [done|]. split; [lia|congruence].
Qed.

(** C10. [AgeHashCache], however often it runs, keeps every entry whose
    [ref_count] is above zero as it is and hands back to the device only
    textures of entries whose [ref_count] is zero; so a source fresh from
    [CreateSource], which has raised the [ref_count] of its entry, still
    finds its entry and its texture in the table afterwards. *)
Theorem AgeHashCache_keeps_referenced_entries `{Collaborators}
    (tc : GPUTextureCache) (dev : GPUDevice) (n : nat) :
  NoDup (m_hash_cache tc).*1 ->
  (forall k e,
     hc_find k (m_hash_cache tc) = Some e -> 0 < ref_count e ->
     hc_find k (m_hash_cache (AgeHashCache_times n tc dev).1) = Some e)
  /\ (forall t,
        t ∈ recycled (AgeHashCache_times n tc dev).2 ->
        t ∈ recycled dev
        \/ exists k e, (k, e) ∈ m_hash_cache tc /\ ref_count e <= 0 /\ he_texture e = t)
  /\ (forall g_vram key0 tc0 dev0 src,
        hash_cache_wf (m_hash_cache tc0) ->
        CreateSource g_vram key0 tc0 dev0 = Ok (Some src, tc, dev) ->
        exists s hk e,
          sources (AgeHashCache_times n tc dev).1 !! src = Some s
          /\ from_hash_cache s = Some hk
          /\ hc_find hk (m_hash_cache (AgeHashCache_times n tc dev).1) = Some e
          /\ texture s = tex_id (he_texture e)
          /\ 0 < ref_count e).
Proof.
  intros Hnd.
  destruct (AgeHashCache_times_referenced n tc dev Hnd) as (Hsrc & Hkeep & Hrec).
  split; [exact Hkeep|]. split; [exact Hrec|].
  intros g_vram key0 tc0 dev0 src Hwf Hcreate.
  destruct (CreateSource_created g_vram _ _ _ _ _ _ Hcreate) as [_ Hentry].
  destruct (Hentry Hwf) as (_ & s & hk & e & Hs & Hfrom & Hfind & Htex & Hrefs).
  exists s, hk, e. rewrite Hsrc. auto 10.
Qed.

Lemma AgeHashCache_keeps_referenced_entries_witness :
  NoDup (m_hash_cache (result_cache first_creation)).*1
  /\ exists s hk e,
       sources (AgeHashCache_times 3 (result_cache first_creation)
                  (result_device first_creation)).1 !! 0%nat = Some s
       /\ from_hash_cache s = Some hk
       /\ hc_find hk (m_hash_cache (AgeHashCache_times 3 (result_cache first_creation)
                                      (result_device first_creation)).1) = Some e
       /\ texture s = tex_id (he_texture e)
       /\ 0 < ref_count e.
Proof.
  assert (Hnd : NoDup (m_hash_cache (result_cache first_creation)).*1).
  { apply (bool_decide_unpack _). vm_compute. exact I. }
  assert (Hwf : hash_cache_wf (m_hash_cache empty_cache)).
  { split; simpl; constructor. }
  assert (Hsrc : result_source first_creation = Some 0%nat).
  { vm_cast_no_check (eq_refl (Some 0%nat)). }
  pose proof (result_source_Some first_creation 0%nat Hsrc) as Hcreate.
  split; [exact Hnd|].
  exact (proj2 (proj2 (AgeHashCache_keeps_referenced_entries (H := console)
                         (result_cache first_creation) (result_device first_creation) 3 Hnd))
           white_vram key_p1_4bit empty_cache two_textures 0%nat Hwf Hcreate).
Defined.

(** * Further properties of the code *)

Ltac unfold_consts :=
  unfold VRAMCoordinateToPage, PageIndex, PageStartX, PageStartY, NUM_PAGES,
    VRAM_PAGES_WIDE, VRAM_PAGES_HIGH, VRAM_PAGE_WIDTH, VRAM_PAGE_HEIGHT,
    VRAM_WIDTH, VRAM_HEIGHT, TEXTURE_PAGE_WIDTH, TEXTURE_PAGE_HEIGHT, u32 in *;
  change (1024 / 64) with 16 in *; change (512 / 256) with 2 in *;
  change (2 ^ 32) with 4294967296 in *.

(** X1. For a page number below [NUM_PAGES], the page of the coordinate
    ([PageStartX], [PageStartY]) is that page again, and the 64x256 page that
    starts there lies inside the VRAM. *)
Theorem page_start_round_trip (pn : Z) :
  0 <= pn < NUM_PAGES ->
  VRAMCoordinateToPage (PageStartX pn) (PageStartY pn) = pn
  /\ PageStartX pn + VRAM_PAGE_WIDTH <= VRAM_WIDTH
  /\ PageStartY pn + VRAM_PAGE_HEIGHT <= VRAM_HEIGHT.
Proof.
  intros Hpn. unfold_consts. Z.div_mod_to_equations. lia.
Qed.

Lemma page_start_round_trip_witness :
  0 <= 17 < NUM_PAGES
  /\ VRAMCoordinateToPage (PageStartX 17) (PageStartY 17) = 17.
Proof.
  assert (Hpn : 0 <= 17 < NUM_PAGES) by (unfold_consts; lia).
  split; [exact Hpn|]. exact (proj1 (page_start_round_trip 17 Hpn)).
Defined.

(** X2. A coordinate of the VRAM has a page number below [NUM_PAGES], and it
    lies in the 64x256 rectangle that starts at ([PageStartX], [PageStartY])
    of that page. *)
Theorem coordinate_in_its_page (x y : Z) :
  0 <= x < VRAM_WIDTH -> 0 <= y < VRAM_HEIGHT ->
  0 <= VRAMCoordinateToPage x y < NUM_PAGES
  /\ PageStartX (VRAMCoordinateToPage x y) <= x
     < PageStartX (VRAMCoordinateToPage x y) + VRAM_PAGE_WIDTH
  /\ PageStartY (VRAMCoordinateToPage x y) <= y
     < PageStartY (VRAMCoordinateToPage x y) + VRAM_PAGE_HEIGHT.
Proof.
  intros Hx Hy. unfold_consts. Z.div_mod_to_equations. lia.
Qed.

Lemma coordinate_in_its_page_witness :
  0 <= 1000 < VRAM_WIDTH /\ 0 <= 300 < VRAM_HEIGHT
  /\ 0 <= VRAMCoordinateToPage 1000 300 < NUM_PAGES.
Proof.
  assert (Hx : 0 <= 1000 < VRAM_WIDTH) by (unfold_consts; lia).
  assert (Hy : 0 <= 300 < VRAM_HEIGHT) by (unfold_consts; lia).
  split; [exact Hx|]. split; [exact Hy|].
  exact (proj1 (coordinate_in_its_page 1000 300 Hx Hy)).
Defined.

(** The calls of the outer loop: [columns] calls for the first page of each
    page row. *)
Lemma LoopPages_y_calls (rows columns : nat) (pn : Z) (calls : list Z) :
  0 <= pn -> pn + VRAM_PAGES_WIDE * Z.of_nat rows < 2 ^ 32 ->
  LoopPages_y (fun p (c : list Z) => Ok (c ++ [p])) rows columns pn calls
  = Ok (calls ++ flat_map (fun j => replicate columns (pn + VRAM_PAGES_WIDE * Z.of_nat j))
                   (seq 0 rows)).
Proof.
  change VRAM_PAGES_WIDE with 16.
  revert pn calls. induction rows as [|rows IH]; intros pn calls Hpn Hmax; simpl.
  - by rewrite app_nil_r.
  - rewrite LoopPages_x_calls. simpl. change VRAM_PAGES_WIDE with 16.
    assert (Hstep : 0 <= pn + 16 < 2 ^ 32) by lia.
    rewrite (u32_small _ Hstep).
    rewrite IH by lia.
    rewrite <- app_assoc. replace (pn + 16 * Z.of_nat 0) with pn by lia.
    rewrite <- seq_shift, (flat_map_concat_map _ (map S _)), map_map,
      <- flat_map_concat_map.
    do 3 f_equal. apply flat_map_ext. intros j. f_equal. lia.
Qed.

(** X3. For a rectangle that is not empty and lies inside the VRAM,
    [LoopPages] returns, its first call is for the page of the top left
    corner, and every page it hands to the callback is a page of the VRAM
    that the rectangle overlaps. *)
Theorem LoopPages_calls_sound (x y width height : Z) :
  0 <= x -> 0 <= y -> 0 < width -> 0 < height ->
  x + width <= VRAM_WIDTH -> y + height <= VRAM_HEIGHT ->
  exists calls,
    LoopPages_calls x y width height = Ok calls
    /\ head calls = Some (VRAMCoordinateToPage x y)
    /\ forall pn, pn ∈ calls ->
         0 <= pn < NUM_PAGES
         /\ Intersects (page_rect pn) (mkRect x y (x + width) (y + height)) = true.
Proof.
  intros Hx Hy Hw Hh Hxw Hyh.
  unfold LoopPages_calls, LoopPages.
  assert (Ha1 : (0 <? width) && (0 <? height) = true) by lia.
  assert (Ha2 : (u32 (x + width) <=? VRAM_WIDTH) && (u32 (y + height) <=? VRAM_HEIGHT) = true).
  { rewrite !u32_small by (unfold_consts; lia). lia. }
  rewrite Ha1, Ha2. simpl.
  rewrite (u32_small (width - 1)) by (unfold_consts; lia).
  rewrite (u32_small (height - 1)) by (unfold_consts; lia).
  rewrite (u32_small (x + (width - 1))) by (unfold_consts; lia).
  rewrite (u32_small (y + (height - 1))) by (unfold_consts; lia).
  set (sx := x / VRAM_PAGE_WIDTH). set (sy := y / VRAM_PAGE_HEIGHT).
  set (ex := (x + (width - 1)) / VRAM_PAGE_WIDTH).
  set (ey := (y + (height - 1)) / VRAM_PAGE_HEIGHT).
  assert (Hsx : 0 <= sx <= ex /\ ex < 16 /\ sx * 64 <= x < sx * 64 + 64).
  { subst sx ex. unfold_consts. Z.div_mod_to_equations. lia. }
  assert (Hsy : 0 <= sy <= ey /\ ey < 2 /\ sy * 256 <= y < sy * 256 + 256
                /\ ey * 256 <= y + height - 1).
  { subst sy ey. unfold_consts. Z.div_mod_to_equations. lia. }
  assert (Hpi : PageIndex sx sy = sy * 16 + sx).
  { unfold PageIndex. change VRAM_PAGES_WIDE with 16.
    rewrite (u32_small (sy * 16)) by (unfold_consts; lia).
    apply u32_small. unfold_consts. lia. }
  rewrite LoopPages_y_calls;
    [|rewrite Hpi; lia
     |rewrite Hpi; unfold loop_count; change VRAM_PAGES_WIDE with 16; lia].
  eexists. split; [reflexivity|]. rewrite app_nil_l.
  assert (Hrows : exists r, loop_count sy ey = S r) by (exists (Z.to_nat (ey - sy)); unfold loop_count; lia).
  assert (Hcols : exists c, loop_count sx ex = S c) by (exists (Z.to_nat (ex - sx)); unfold loop_count; lia).
  destruct Hrows as (r & Hr). destruct Hcols as (c & Hc).
  split.
  - rewrite Hr, Hc. simpl. f_equal. fold sx sy. unfold VRAMCoordinateToPage. fold sx sy. lia.
  - intros pn Hin. apply list_elem_of_In, in_flat_map in Hin as (j & Hj & Hin).
    apply in_seq in Hj. apply list_elem_of_In, elem_of_replicate in Hin as [-> _].
    rewrite Hpi. change VRAM_PAGES_WIDE with 16.
    assert (Hjz : 0 <= Z.of_nat j <= ey - sy) by (unfold loop_count in Hj; lia).
    set (jz := Z.of_nat j) in *.
    split; [unfold_consts; lia|].
    unfold Intersects, page_rect. simpl.
    assert (HX : PageStartX (sy * 16 + sx + 16 * jz) = sx * 64).
    { unfold_consts. Z.div_mod_to_equations. lia. }
    assert (HY : PageStartY (sy * 16 + sx + 16 * jz) = (sy + jz) * 256).
    { unfold_consts. Z.div_mod_to_equations. lia. }
    rewrite HX, HY. unfold VRAM_PAGE_WIDTH, VRAM_PAGE_HEIGHT.
    apply negb_true_iff. lia.
Qed.

Lemma LoopPages_calls_sound_witness :
  exists calls,
    LoopPages_calls 100 200 400 100 = Ok calls
    /\ head calls = Some (VRAMCoordinateToPage 100 200)
    /\ forall pn, pn ∈ calls ->
         0 <= pn < NUM_PAGES
         /\ Intersects (page_rect pn) (mkRect 100 200 (100 + 400) (200 + 100)) = true.
Proof.
  apply (LoopPages_calls_sound 100 200 400 100); unfold_consts; lia.
Defined.

Lemma list_without_sublist (n : SourceListNode) (l : SourceList) :
  list_without n l `sublist_of` l.
Proof.
  induction l as [|h l IH]; simpl; [done|].
  case_decide; [by apply sublist_cons | by apply sublist_skip].
Qed.

Lemma lists_shrunk_refl (ps : list SourceList) : lists_shrunk ps ps.
Proof. split; [done|]. intros i l Hl. by exists l. Qed.

Lemma lists_shrunk_trans (ps1 ps2 ps3 : list SourceList) :
  lists_shrunk ps1 ps2 -> lists_shrunk ps2 ps3 -> lists_shrunk ps1 ps3.
Proof.
  intros [Hlen1 H1] [Hlen2 H2]. split; [congruence|].
  intros i l3 Hl3. destruct (H2 i l3 Hl3) as (l2 & Hl2 & Hsub2).
  destruct (H1 i l2 Hl2) as (l1 & Hl1 & Hsub1). exists l1. split; [done|]. by etrans.
Qed.

Lemma lists_shrunk_insert (ps : list SourceList) (i : nat) (l l' : SourceList) :
  ps !! i = Some l -> l' `sublist_of` l -> lists_shrunk ps (<[i := l']> ps).
Proof.
  intros Hl Hsub. split; [by rewrite length_insert|].
  intros j lj Hj. destruct (decide (i = j)) as [->|Hne].
  - rewrite list_lookup_insert_eq in Hj by (by eapply lookup_lt_Some).
    injection Hj as <-. eauto.
  - rewrite list_lookup_insert_ne in Hj by done. exists lj. done.
Qed.

Lemma ListUnlink_shrunk (node : SourceListNode) (pn : Z) (ps ps' : list SourceList) :
  ListUnlink node pn ps = Ok ps' -> lists_shrunk ps ps'.
Proof.
  unfold ListUnlink. intros Hrun.
  apply bind_Ok_inv in Hrun as (l & Hl & Hrun). inv_opt Hl. injection Hrun as <-.
  eapply lists_shrunk_insert; [exact Hl | apply list_without_sublist].
Qed.

Lemma unlink_page_refs_shrunk (src : nat) (s : Source) (count : nat) (i : Z)
    (ps ps' : list SourceList) :
  unlink_page_refs src s count i ps = Ok ps' -> lists_shrunk ps ps'.
Proof.
  revert i ps. induction count as [|n IH]; intros i ps Hrun; simpl in Hrun.
  - injection Hrun as <-. apply lists_shrunk_refl.
  - apply bind_Ok_inv in Hrun as (nl & _ & Hrun).
    apply bind_Ok_inv in Hrun as (pn & _ & Hrun).
    apply bind_Ok_inv in Hrun as (ps1 & Hunlink & Hrun).
    eapply lists_shrunk_trans; [by eapply ListUnlink_shrunk | by eapply IH].
Qed.

Lemma table_textures_store (k : HashCacheKey) (e e' : HashCacheEntry) (hc : HashCache) :
  hc_find k hc = Some e -> he_texture e' = he_texture e -> age e' = age e ->
  table_textures (hc_store k e' hc) = table_textures hc.
Proof.
  intros Hfind Htex Hage. induction hc as [|[k0 e0] hc IH]; simpl in *; [done|].
  case_decide as Hk; simpl.
  - injection Hfind as ->. unfold table_textures. simpl. by rewrite Htex, Hage.
  - unfold table_textures in *. simpl. by rewrite IH.
Qed.

(** What destroying a source does to the cache. *)
Lemma destroy_source_effect (src : nat) (tc tc' : GPUTextureCache) :
  destroy_source src tc = Ok tc' ->
  sources tc' = delete src (sources tc)
  /\ lists_shrunk (m_page_sources tc) (m_page_sources tc')
  /\ table_textures (m_hash_cache tc') = table_textures (m_hash_cache tc)
  /\ next_source tc' = next_source tc.
Proof.
  unfold destroy_source. intros Hrun.
  apply bind_Ok_inv in Hrun as (s & Hs & Hrun).
  apply bind_Ok_inv in Hrun as (ps & Hunlink & Hrun).
  apply bind_Ok_inv in Hrun as (hc & Hhc & Hrun). injection Hrun as <-. simpl.
  split; [done|]. split; [by eapply unlink_page_refs_shrunk|]. split; [|done].
  destruct (from_hash_cache s) as [hk|]; [|by injection Hhc as <-].
  apply bind_Ok_inv in Hhc as (e & He & Hhc). inv_opt He.
  apply bind_Ok_inv in Hhc as (? & _ & Hhc). injection Hhc as <-.
  by eapply table_textures_store.
Qed.

Lemma InvalidatePage_walk_effect (nodes : SourceList) (tc tc' : GPUTextureCache) :
  InvalidatePage_walk nodes tc = Ok tc' ->
  sources tc' = foldl (fun h n => delete n.1 h) (sources tc) nodes
  /\ lists_shrunk (m_page_sources tc) (m_page_sources tc')
  /\ table_textures (m_hash_cache tc') = table_textures (m_hash_cache tc)
  /\ next_source tc' = next_source tc.
Proof.
  revert tc. induction nodes as [|n nodes IH]; intros tc Hrun; simpl in Hrun.
  - injection Hrun as <-. split; [done|]. split; [apply lists_shrunk_refl|done].
  - apply bind_Ok_inv in Hrun as (tc1 & Hsrc & Hrun).
    destruct (destroy_source_effect _ _ _ Hsrc) as (Hs1 & Hp1 & Ht1 & Hn1).
    destruct (IH _ Hrun) as (Hs2 & Hp2 & Ht2 & Hn2).
    simpl. rewrite Hs2, Hs1. split; [done|].
    split; [by eapply lists_shrunk_trans|]. split; congruence.
Qed.

Lemma foldl_delete_other (nodes : SourceList) (h : gmap nat Source) (src : nat) :
  src ∉ nodes.*1 -> foldl (fun h n => delete n.1 h) h nodes !! src = h !! src.
Proof.
  revert h. induction nodes as [|n nodes IH]; intros h Hnin; [done|].
  rewrite fmap_cons in Hnin. apply not_elem_of_cons in Hnin as [Hne Hnin].
  simpl. rewrite IH by done. by apply lookup_delete_ne.
Qed.

Lemma foldl_delete_gone (nodes : SourceList) (h : gmap nat Source) (src : nat) :
  src ∈ nodes.*1 -> foldl (fun h n => delete n.1 h) h nodes !! src = None.
Proof.
  revert h. induction nodes as [|n nodes IH]; intros h Hin.
  - by apply elem_of_nil in Hin.
  - rewrite fmap_cons in Hin. simpl.
    destruct (decide (src ∈ nodes.*1)) as [Hrest|Hrest]; [by apply IH|].
    rewrite foldl_delete_other by done.
    apply elem_of_cons in Hin as [->|Hin]; [apply lookup_delete_eq | done].
Qed.

(** What [InvalidatePage] does to the cache. *)
Lemma InvalidatePage_effect (pn : Z) (tc tc' : GPUTextureCache) :
  InvalidatePage pn tc = Ok tc' ->
  exists l,
    m_page_sources tc !! Z.to_nat pn = Some l
    /\ pn < NUM_PAGES
    /\ m_page_sources tc' !! Z.to_nat pn = Some []
    /\ sources tc' = foldl (fun h n => delete n.1 h) (sources tc) l
    /\ lists_shrunk (m_page_sources tc) (m_page_sources tc')
    /\ table_textures (m_hash_cache tc') = table_textures (m_hash_cache tc)
    /\ next_source tc' = next_source tc.
Proof.
  unfold InvalidatePage. intros Hrun.
  apply bind_Ok_inv in Hrun as (? & Hpn & Hrun). apply DebugAssert_Ok_inv in Hpn.
  apply bind_Ok_inv in Hrun as (l & Hl & Hrun). inv_opt Hl.
  apply bind_Ok_inv in Hrun as (tc1 & Hwalk & Hrun). injection Hrun as <-.
  destruct (InvalidatePage_walk_effect _ _ _ Hwalk) as (Hs & [Hlen Hp] & Ht & Hn).
  assert (Hlt : (Z.to_nat pn < length (m_page_sources tc1))%nat).
  { rewrite Hlen. by eapply lookup_lt_Some. }
  destruct (lookup_lt_is_Some_2 _ _ Hlt) as (l1 & Hl1).
  exists l. simpl. split; [done|]. split; [lia|].
  split; [by apply list_lookup_insert_eq|]. split; [done|]. split; [|done].
  eapply lists_shrunk_trans; [by split|].
  eapply lists_shrunk_insert; [exact Hl1 | apply sublist_nil_l].
Qed.

(** X4. When [InvalidatePage] returns, the list of the page is empty, every
    source that had a node on it is gone from the store, every other source
    is as before, and invalidating the page again changes nothing. *)
Theorem InvalidatePage_destroys_page (pn : Z) (tc tc' : GPUTextureCache) :
  InvalidatePage pn tc = Ok tc' ->
  m_page_sources tc' !! Z.to_nat pn = Some []
  /\ (forall l n, m_page_sources tc !! Z.to_nat pn = Some l -> n ∈ l ->
        sources tc' !! n.1 = None)
  /\ (forall l src, m_page_sources tc !! Z.to_nat pn = Some l -> src ∉ l.*1 ->
        sources tc' !! src = sources tc !! src)
  /\ InvalidatePage pn tc' = Ok tc'.
Proof.
  intros Hrun.
  destruct (InvalidatePage_effect _ _ _ Hrun) as (l & Hl & Hpn & Hempty & Hs & _).
  unfold SourceList, SourceListNode in *.
  split; [done|]. split; [|split].
  - intros l0 n Hl0 Hn. assert (l0 = l) by congruence. subst l0.
    rewrite Hs. apply foldl_delete_gone. apply list_elem_of_fmap. by exists n.
  - intros l0 src Hl0 Hsrc. assert (l0 = l) by congruence. subst l0.
    rewrite Hs. by apply foldl_delete_other.
  - unfold InvalidatePage. destruct (pn <? NUM_PAGES) eqn:Hlt; [|lia]. simpl.
    unfold SourceList, SourceListNode in *. rewrite Hempty. simpl.
    rewrite list_insert_id by done. by rewrite set_page_sources_same.
Qed.

Lemma foldl_delete_subseteq (nodes : SourceList) (h : gmap nat Source) :
  foldl (fun h n => delete n.1 h) h nodes ⊆ h.
Proof.
  revert h. induction nodes as [|n nodes IH]; intros h; simpl; [done|].
  etrans; [apply IH | apply delete_subseteq].
Qed.

Lemma only_invalidated_refl (tc : GPUTextureCache) : only_invalidated tc tc.
Proof. split; [done|]. split; [apply lists_shrunk_refl|done]. Qed.

Lemma only_invalidated_trans (tc1 tc2 tc3 : GPUTextureCache) :
  only_invalidated tc1 tc2 -> only_invalidated tc2 tc3 -> only_invalidated tc1 tc3.
Proof.
  intros (Hs1 & Hp1 & Ht1 & Hn1) (Hs2 & Hp2 & Ht2 & Hn2).
  split; [by etrans|]. split; [by eapply lists_shrunk_trans|]. split; congruence.
Qed.

Lemma InvalidatePage_only_invalidated (pn : Z) (tc tc' : GPUTextureCache) :
  InvalidatePage pn tc = Ok tc' -> only_invalidated tc tc'.
Proof.
  intros Hrun. destruct (InvalidatePage_effect _ _ _ Hrun) as (l & _ & _ & _ & Hs & Hp & Ht & Hn).
  split; [rewrite Hs; apply foldl_delete_subseteq|]. done.
Qed.

Lemma InvalidatePages_only_invalidated (x y width height : Z) (tc tc' : GPUTextureCache) :
  InvalidatePages x y width height tc = Ok tc' -> only_invalidated tc tc'.
Proof.
  unfold InvalidatePages. intros Hrun.
  eapply (LoopPages_inv InvalidatePage (only_invalidated tc));
    [|apply only_invalidated_refl|exact Hrun].
  intros pn a b _ Ha Hb. eapply only_invalidated_trans; [exact Ha|].
  by eapply InvalidatePage_only_invalidated.
Qed.

Lemma InvalidateFromWrite_invalidated (rect : Rectangle) (tc tc' : GPUTextureCache) :
  InvalidateFromWrite rect tc = Ok tc' -> only_invalidated tc tc'.
Proof.
  unfold InvalidateFromWrite, InvalidatePages_rect. intros Hrun.
  destruct (Intersects _ _); apply InvalidatePages_only_invalidated in Hrun;
    destruct Hrun as (Hs & Hp & Ht & Hn); done.
Qed.

(** X5. [InvalidateFromWrite] only destroys sources: the store it leaves holds
    no source that was not there, every page list is what is left of the old
    one, the table keeps its keys, textures and ages (only reference counts
    change), and no source address is given out. *)
Theorem InvalidateFromWrite_only_invalidates (rect : Rectangle) (tc tc' : GPUTextureCache) :
  InvalidateFromWrite rect tc = Ok tc' ->
  sources tc' ⊆ sources tc
  /\ table_textures (m_hash_cache tc') = table_textures (m_hash_cache tc)
  /\ length (m_page_sources tc') = length (m_page_sources tc)
  /\ (forall i l', m_page_sources tc' !! i = Some l' ->
        exists l, m_page_sources tc !! i = Some l /\ l' `sublist_of` l)
  /\ next_source tc' = next_source tc.
Proof.
  intros Hrun.
  destruct (InvalidateFromWrite_invalidated _ _ _ Hrun) as (Hs & [Hlen Hp] & Ht & Hn). done.
Qed.

Lemma InvalidateFromWrite_only_invalidates_witness :
  InvalidateFromWrite (mkRect 64 0 128 16) one_source_cache = Ok no_source_cache
  /\ sources no_source_cache ⊆ sources one_source_cache
  /\ table_textures (m_hash_cache no_source_cache)
     = table_textures (m_hash_cache one_source_cache).
Proof.
  assert (Hrun : InvalidateFromWrite (mkRect 64 0 128 16) one_source_cache
                 = Ok no_source_cache) by (vm_compute; reflexivity).
  split; [exact Hrun|].
  destruct (InvalidateFromWrite_only_invalidates _ _ _ Hrun) as (Hs & Ht & _).
  split; [exact Hs | exact Ht].
Defined.

(** [InvalidatePage] on the cache with one source. *)
Lemma InvalidatePage_destroys_page_witness :
  InvalidatePage 1 one_source_cache = Ok no_source_cache
  /\ m_page_sources no_source_cache !! Z.to_nat 1 = Some []
  /\ InvalidatePage 1 no_source_cache = Ok no_source_cache.
Proof.
  assert (Hrun : InvalidatePage 1 one_source_cache = Ok no_source_cache)
    by (vm_compute; reflexivity).
  split; [exact Hrun|].
  destruct (InvalidatePage_destroys_page _ _ _ Hrun) as (Hempty & _ & _ & Hagain).
  split; [exact Hempty | exact Hagain].
Defined.

(** ** Clear *)

Lemma lists_shrunk_empty (ps ps' : list SourceList) (i : nat) :
  lists_shrunk ps ps' -> ps !! i = Some [] -> ps' !! i = Some [].
Proof.
  intros [Hlen Hsub] Hi.
  assert (Hlt : (i < length ps')%nat) by (rewrite Hlen; by eapply lookup_lt_Some).
  destruct (lookup_lt_is_Some_2 _ _ Hlt) as (l' & Hl').
  destruct (Hsub i l' Hl') as (l & Hl & Hsl).
  assert (l = []) by congruence. subst l. apply sublist_nil_r in Hsl. by subst l'.
Qed.

Lemma Clear_loop_empties (count : nat) (i : Z) (tc tc' : GPUTextureCache) :
  0 <= i ->
  Clear_loop count i tc = Ok tc' ->
  only_invalidated tc tc'
  /\ forall j, i <= j < i + Z.of_nat count -> m_page_sources tc' !! Z.to_nat j = Some [].
Proof.
  revert i tc. induction count as [|n IH]; intros i tc Hi Hrun; simpl in Hrun.
  - injection Hrun as <-. split; [apply only_invalidated_refl|]. intros j Hj. lia.
  - apply bind_Ok_inv in Hrun as (tc1 & Hpage & Hrun).
    destruct (InvalidatePage_effect _ _ _ Hpage) as (l & _ & _ & Hempty & _).
    pose proof (InvalidatePage_only_invalidated _ _ _ Hpage) as Hinv1.
    destruct (IH (i + 1) tc1 ltac:(lia) Hrun) as (Hinv2 & Hrest).
    split; [by eapply only_invalidated_trans|].
    intros j Hj. destruct (decide (j = i)) as [->|Hne].
    + destruct Hinv2 as (_ & Hp & _). by eapply lists_shrunk_empty.
    + apply Hrest. lia.
Qed.

(** X6. When [Clear] returns, the list of every page is empty, the table
    keeps its keys, textures and ages, and no source was added. *)
Theorem Clear_empties_every_list (tc tc' : GPUTextureCache) :
  Clear tc = Ok tc' ->
  (forall pn, 0 <= pn < NUM_PAGES -> m_page_sources tc' !! Z.to_nat pn = Some [])
  /\ table_textures (m_hash_cache tc') = table_textures (m_hash_cache tc)
  /\ sources tc' ⊆ sources tc.
Proof.
  unfold Clear. intros Hrun.
  destruct (Clear_loop_empties (Z.to_nat NUM_PAGES) 0 tc tc' ltac:(lia) Hrun)
    as ((Hs & _ & Ht & _) & Hempty).
  split; [|done]. intros pn Hpn. apply Hempty.
  rewrite Z2Nat.id by (vm_compute; discriminate). lia.
Qed.

Lemma Clear_empties_every_list_witness :
  Clear one_source_cache = Ok no_source_cache
  /\ (forall pn, 0 <= pn < NUM_PAGES ->
        m_page_sources no_source_cache !! Z.to_nat pn = Some []).
Proof.
  assert (Hrun : Clear one_source_cache = Ok no_source_cache) by (vm_compute; reflexivity).
  split; [exact Hrun|]. exact (proj1 (Clear_empties_every_list _ _ Hrun)).
Defined.

(** ** The drawn rectangle, again *)

(** X7. After [UpdateDrawnRect] the drawn rectangle contains the rectangle
    given and the drawn rectangle of before, a second call with the same
    rectangle changes nothing, and nothing but the drawn rectangle is
    written. *)
Theorem UpdateDrawnRect_covers (rect : Rectangle) (tc : GPUTextureCache) :
  rect_within rect (m_drawn_rect (UpdateDrawnRect rect tc)) = true
  /\ rect_contains (m_drawn_rect (UpdateDrawnRect rect tc)) (m_drawn_rect tc)
  /\ UpdateDrawnRect rect (UpdateDrawnRect rect tc) = UpdateDrawnRect rect tc
  /\ set_drawn_rect (m_drawn_rect tc) (UpdateDrawnRect rect tc) = tc.
Proof.
  unfold UpdateDrawnRect. destruct (rect_within rect (m_drawn_rect tc)) eqn:Hin.
  - rewrite Hin. split; [done|]. split; [apply rect_contains_refl|]. split; [done|].
    by destruct tc.
  - assert (Hnow : rect_within rect (Include (m_drawn_rect tc) rect) = true).
    { unfold rect_within, Include. simpl. lia. }
    simpl. rewrite Hnow. split; [done|]. split; [apply Include_contains_l|].
    split; [done|]. by destruct tc.
Qed.

(** ** Hashing *)

Lemma vram_read_agree (v1 v2 : VRAM) (i : Z) : v1 i = v2 i -> vram_read v1 i = vram_read v2 i.
Proof. unfold vram_read. by intros ->. Qed.

Lemma vram_cells_agree (v1 v2 : VRAM) (n : nat) (ptr : Z) :
  (forall x, 0 <= x < Z.of_nat n -> v1 (ptr + x) = v2 (ptr + x)) ->
  vram_cells v1 n ptr = vram_cells v2 n ptr.
Proof.
  revert ptr. induction n as [|n IH]; intros ptr Hagree; simpl; [done|].
  rewrite (vram_read_agree v1 v2 ptr).
  - rewrite (IH (ptr + 1)); [done|]. intros x Hx.
    replace (ptr + 1 + x) with (ptr + (1 + x)) by lia. apply Hagree. lia.
  - replace ptr with (ptr + 0) by lia. apply Hagree. lia.
Qed.

Lemma HashPage_rows_agree (v1 v2 : VRAM) (rows : nat) (cells ptr : Z) :
  vram_agree v1 v2 ptr (Z.of_nat rows) cells ->
  HashPage_rows v1 rows cells ptr = HashPage_rows v2 rows cells ptr.
Proof.
  revert ptr. induction rows as [|rows IH]; intros ptr Hagree; simpl; [done|].
  rewrite (vram_cells_agree v1 v2).
  - rewrite (IH (ptr + VRAM_WIDTH)); [done|]. intros y x Hy Hx.
    replace (ptr + VRAM_WIDTH + y * VRAM_WIDTH + x) with (ptr + (y + 1) * VRAM_WIDTH + x) by lia.
    apply Hagree; lia.
  - intros x Hx. replace (ptr + x) with (ptr + 0 * VRAM_WIDTH + x) by lia.
    apply Hagree; lia.
Qed.



(** ** The table on the lookup path *)

Section TableLookup.
Context `{Collaborators}.
Variable g_vram : VRAM.

(** The key that [LookupHashCache] returns is the one it computes from the
    VRAM and the source key; with an entry for it in the table, any cache
    gives a hit. *)
Lemma LookupHashCache_key (k : SourceKey) (tc tc1 : GPUTextureCache) (dev dev1 : GPUDevice)
    (hk : HashCacheKey) :
  LookupHashCache g_vram k tc dev = Ok (Some hk, tc1, dev1) ->
  is_Some (hc_find hk (m_hash_cache tc1))
  /\ forall tc2 dev2,
       is_Some (hc_find hk (m_hash_cache tc2)) ->
       LookupHashCache g_vram k tc2 dev2 = Ok (Some hk, tc2, dev2).
Proof.
  unfold LookupHashCache. intros Hrun.
  apply bind_Ok_inv in Hrun as (th & Hth & Hrun).
  apply bind_Ok_inv in Hrun as (ph & Hph & Hrun).
  rewrite Hth, Hph. simpl.
  assert (Hhk : hk = mkHashCacheKey th ph (mode_u8 (mode k))
                /\ is_Some (hc_find hk (m_hash_cache tc1))).
  { destruct (hc_find _ (m_hash_cache tc)) as [e|] eqn:Hfind.
    - injection Hrun as <- <- <-. by rewrite Hfind.
    - destruct (FetchTexture dev) as [[t|] dev2]; [|discriminate].
      apply bind_Ok_inv in Hrun as (texels & _ & Hrun). injection Hrun as <- <- <-.
      split; [done|]. simpl. by rewrite decide_True. }
  destruct Hhk as [-> Hsome]. split; [done|].
  intros tc2 dev2 [e He]. by rewrite He.
Qed.

(** X9. When [LookupHashCache] has returned an entry, the same call on the
    cache and device it left returns that entry again and changes neither:
    a new entry is found by the key it was stored under. *)
Theorem LookupHashCache_again (k : SourceKey) (tc tc1 : GPUTextureCache)
    (dev dev1 : GPUDevice) (hk : HashCacheKey) :
  LookupHashCache g_vram k tc dev = Ok (Some hk, tc1, dev1) ->
  LookupHashCache g_vram k tc1 dev1 = Ok (Some hk, tc1, dev1).
Proof.
  intros Hrun. destruct (LookupHashCache_key _ _ _ _ _ _ Hrun) as [Hsome Hhit].
  by apply Hhit.
Qed.

(** X10. [LookupHashCache] keeps the keys of the table distinct and writes
    nothing but the table. When it returns an entry, either nothing changed
    (a hit), or there was no entry for the key, one texture was fetched, and
    the table has one more entry: the fetched texture holding the decoded
    page, with reference count 0 and age 0. *)
Theorem LookupHashCache_table (k : SourceKey) (tc tc1 : GPUTextureCache)
    (dev dev1 : GPUDevice) (hk : HashCacheKey) :
  NoDup (m_hash_cache tc).*1 ->
  LookupHashCache g_vram k tc dev = Ok (Some hk, tc1, dev1) ->
  NoDup (m_hash_cache tc1).*1
  /\ set_hash_cache (m_hash_cache tc) tc1 = tc
  /\ ((tc1 = tc /\ dev1 = dev)
      \/ exists t texels,
           FetchTexture dev = (Some t, dev1)
           /\ DecodeTexture g_vram (page k) (palette k) (mode k) = Ok texels
           /\ hc_find hk (m_hash_cache tc) = None
           /\ m_hash_cache tc1
              = (hk, mkEntry (mkTexture (tex_id t) texels) 0 0) :: m_hash_cache tc).
Proof.
  intros Hnd Hrun. unfold LookupHashCache in Hrun.
  apply bind_Ok_inv in Hrun as (th & Hth & Hrun).
  apply bind_Ok_inv in Hrun as (ph & Hph & Hrun).
  destruct (hc_find _ (m_hash_cache tc)) as [e|] eqn:Hfind.
  - injection Hrun as <- <- <-. split; [done|]. split; [by destruct tc|]. by left.
  - destruct (FetchTexture dev) as [[t|] dev2]; [|discriminate].
    apply bind_Ok_inv in Hrun as (texels & Hdec & Hrun). injection Hrun as <- <- <-.
    simpl. split; [|split; [by destruct tc|]].
    + apply NoDup_cons. split; [by apply hc_find_None | done].
    + right. exists t, texels. done.
Qed.

(** What [CreateSource] does to the table and to the store of sources. *)
Lemma CreateSource_table (k : SourceKey) (tc tc1 : GPUTextureCache)
    (dev dev1 : GPUDevice) (src : nat) :
  CreateSource g_vram k tc dev = Ok (Some src, tc1, dev1) ->
  exists hk tc0 e s,
    LookupHashCache g_vram k tc dev = Ok (Some hk, tc0, dev1)
    /\ hc_find hk (m_hash_cache tc0) = Some e
    /\ m_hash_cache tc1
       = hc_store hk (mkEntry (he_texture e) (u32 (ref_count e + 1)) 0) (m_hash_cache tc0)
    /\ src = next_source tc0
    /\ sources tc1 !! src = Some s
    /\ key s = k /\ from_hash_cache s = Some hk /\ texture s = tex_id (he_texture e).
Proof.
  unfold CreateSource. intros Hrun.
  apply bind_Ok_inv in Hrun as ([[hcentry tc0] dev0] & Hlook & Hrun).
  destruct hcentry as [hk|]; [|discriminate].
  apply bind_Ok_inv in Hrun as (e & He & Hrun). inv_opt He.
  apply bind_Ok_inv in Hrun as (st4 & Hfoot & Hrun).
  apply bind_Ok_inv in Hrun as (st5 & Hclut & Hrun).
  injection Hrun as <- <- <-.
  set (e' := mkEntry (he_texture e) (u32 (ref_count e + 1)) 0) in *.
  set (hc2 := hc_store hk e' (m_hash_cache tc0)) in *.
  set (s0 := mkSource k 0 (tex_id (he_texture e)) (Some hk) _) in *.
  set (tc3 := set_next_source _ _) in *.
  change (next_source (set_hash_cache hc2 tc0)) with (next_source tc0) in *.
  assert (Hkept3 : creation_kept hc2 (next_source tc0) k hk (tex_id (he_texture e)) tc3).
  { split; [done|]. exists s0. split; [|done]. subst tc3. simpl. apply lookup_insert_eq. }
  assert (Hkept4 : creation_kept hc2 (next_source tc0) k hk (tex_id (he_texture e)) st4.2).
  { eapply (LoopPages_inv (add_page_ref (next_source tc0))
              (fun st => creation_kept hc2 (next_source tc0) k hk
                           (tex_id (he_texture e)) st.2));
      [| |exact Hfoot]; [|exact Hkept3].
    intros pn a b _ Ha Hb.
    eapply (add_page_ref_with_kept ListPrepend ListPrepend_links); eauto. }
  assert (Hkept5 : creation_kept hc2 (next_source tc0) k hk (tex_id (he_texture e)) st5.2).
  { destruct (is_paletted (mode k)); [|by injection Hclut as <-].
    eapply (LoopPages_inv (add_page_ref_back (next_source tc0))
              (fun st => creation_kept hc2 (next_source tc0) k hk
                           (tex_id (he_texture e)) st.2));
      [| |exact Hclut]; [|exact Hkept4].
    intros pn a b _ Ha Hb.
    eapply (add_page_ref_with_kept ListAppend ListAppend_links); eauto. }
  destruct Hkept5 as (Hhc & s & Hs & Hk & Hfrom & Htex).
  exists hk, tc0, e, s. done.
Qed.
End TableLookup.

Lemma table_textures_find (hc hc' : HashCache) (k : HashCacheKey) (e : HashCacheEntry) :
  table_textures hc' = table_textures hc ->
  hc_find k hc = Some e ->
  exists e', hc_find k hc' = Some e' /\ he_texture e' = he_texture e.
Proof.
  revert hc'. induction hc as [|[k0 e0] hc IH]; intros [|[k1 e1] hc'] Heq Hfind;
    simpl in *; try discriminate.
  injection Heq as Hk Htex _ Hrest. subst k1.
  case_decide as Hk0.
  - injection Hfind as ->. eauto.
  - by apply IH.
Qed.

Lemma table_textures_length (hc hc' : HashCache) :
  table_textures hc' = table_textures hc -> length hc' = length hc.
Proof.
  unfold table_textures. intros Heq. apply (f_equal length) in Heq.
  by rewrite !length_map in Heq.
Qed.

Lemma hc_store_length (k : HashCacheKey) (e : HashCacheEntry) (hc : HashCache) :
  length (hc_store k e hc) = length hc.
Proof.
  induction hc as [|[k0 e0] hc IH]; simpl; [done|]. case_decide; simpl; [done|].
  by rewrite IH.
Qed.

(** X11. A source created for a key, destroyed or not by a write, and created
    again for the same key borrows the same texture: the second creation
    finds the entry of the first, asks the device for nothing, and the table
    does not grow. *)
Theorem CreateSource_after_invalidation `{Collaborators} (g_vram : VRAM) (k : SourceKey)
    (rect : Rectangle) (tc tc1 tc2 tc3 : GPUTextureCache) (dev dev1 dev3 : GPUDevice)
    (src1 src2 : nat) :
  CreateSource g_vram k tc dev = Ok (Some src1, tc1, dev1) ->
  InvalidateFromWrite rect tc1 = Ok tc2 ->
  CreateSource g_vram k tc2 dev1 = Ok (Some src2, tc3, dev3) ->
  dev3 = dev1
  /\ length (m_hash_cache tc3) = length (m_hash_cache tc1)
  /\ exists s1 s2,
       sources tc1 !! src1 = Some s1 /\ sources tc3 !! src2 = Some s2
       /\ texture s2 = texture s1.
Proof.
  intros Hfirst Hinv Hsecond.
  destruct (CreateSource_table _ _ _ _ _ _ _ Hfirst)
    as (hk & tc0 & e & s1 & Hlook & He & Hhc1 & _ & Hs1 & _ & _ & Htex).
  assert (Hfind1 : hc_find hk (m_hash_cache tc1)
                   = Some (mkEntry (he_texture e) (u32 (ref_count e + 1)) 0)).
  { rewrite Hhc1. by eapply hc_find_store. }
  destruct (InvalidateFromWrite_invalidated rect tc1 tc2 Hinv) as (_ & _ & Ht & _).
  destruct (table_textures_find _ _ _ _ Ht Hfind1) as (e2 & He2 & Htex2). simpl in Htex2.
  destruct (LookupHashCache_key _ _ _ _ _ _ _ Hlook) as [_ Hhit].
  specialize (Hhit tc2 dev1 (ex_intro _ e2 He2)).
  destruct (CreateSource_table _ _ _ _ _ _ _ Hsecond)
    as (hk' & tc0' & e' & s2 & Hlook' & He' & Hhc3 & _ & Hs2 & _ & _ & Htex').
  rewrite Hhit in Hlook'. injection Hlook' as <- <- <-.
  assert (e' = e2) by congruence. subst e'.
  split; [done|]. split.
  - rewrite Hhc3, hc_store_length. by apply table_textures_length.
  - exists s1, s2. split; [done|]. split; [done|]. congruence.
Qed.

(** ** Ageing, again *)

Lemma age_pass_spec_age (k : HashCacheKey) (e : HashCacheEntry) (hc : HashCache) :
  (k, e) ∈ age_pass_spec hc -> ref_count e <= 0 -> 0 <= age e <= MAX_HASH_CACHE_AGE.
Proof.
  induction hc as [|[k0 e0] hc IH]; simpl; intros Hin Hrefs.
  - by apply elem_of_nil in Hin.
  - destruct (0 <? ref_count e0) eqn:Hpos.
    + apply elem_of_cons in Hin as [[= -> ->]|Hin]; [lia|by apply IH].
    + destruct (MAX_HASH_CACHE_AGE <? u32 (age e0 + 1)) eqn:Hold; [by apply IH|].
      apply elem_of_cons in Hin as [[= -> ->]|Hin]; [|by apply IH].
      simpl. pose proof (u32_range (age e0 + 1)). lia.
Qed.

(** The table after [AgeHashCache] is what pass 1 keeps, less what the purge
    removes. *)
Lemma AgeHashCache_sublist (tc : GPUTextureCache) (dev : GPUDevice) :
  m_hash_cache (AgeHashCache tc dev).1 `sublist_of` age_pass_spec (m_hash_cache tc).
Proof.
  unfold AgeHashCache.
  match goal with |- context [AgeHashCache_pass ?hc ?s] =>
    pose proof (AgeHashCache_pass_kept hc s) as Hkept;
    destruct (AgeHashCache_pass hc s) as [kept st]
  end.
  simpl in Hkept. subst kept.
  destruct (might_need_cache_purge st); [|done].
  match goal with |- context [purge_entries ?n ?l ?s] =>
    pose proof (purge_entries_sublist n l s) as Hsub;
    destruct (purge_entries n l s) as [hc2 dev2]
  end.
  done.
Qed.

(** X12. After [AgeHashCache] no unused entry of the table is older than
    [MAX_HASH_CACHE_AGE]. *)
Theorem AgeHashCache_bounds_age (tc : GPUTextureCache) (dev : GPUDevice)
    (k : HashCacheKey) (e : HashCacheEntry) :
  (k, e) ∈ m_hash_cache (AgeHashCache tc dev).1 ->
  ref_count e <= 0 ->
  0 <= age e <= MAX_HASH_CACHE_AGE.
Proof.
  intros Hin. apply (age_pass_spec_age k e (m_hash_cache tc)).
  eapply elem_of_sublist; [exact Hin | apply AgeHashCache_sublist].
Qed.

Lemma AgeHashCache_bounds_age_witness :
  (table_key 1, mkEntry (mkTexture 1001 []) 0 6)
    ∈ m_hash_cache (AgeHashCache (set_hash_cache small_table empty_cache) no_texture).1
  /\ 0 <= 6 <= MAX_HASH_CACHE_AGE.
Proof.
  assert (Hin : (table_key 1, mkEntry (mkTexture 1001 []) 0 6)
                  ∈ m_hash_cache
                      (AgeHashCache (set_hash_cache small_table empty_cache) no_texture).1).
  { vm_compute. right. left. }
  split; [exact Hin|].
  apply (AgeHashCache_bounds_age _ _ _ _ Hin). simpl. lia.
Defined.

(** The device after pass 1 has got the textures of the entries that aged
    out, the latest first. *)
Lemma AgeHashCache_pass_device (hc : HashCache) (st : AgeState) :
  recycled (age_device (AgeHashCache_pass hc st).2)
  = rev (aged_out_textures hc) ++ recycled (age_device st)
  /\ pool (age_device (AgeHashCache_pass hc st).2) = pool (age_device st)
  /\ fetches (age_device (AgeHashCache_pass hc st).2) = fetches (age_device st).
Proof.
  revert st. induction hc as [|[k e] hc IH]; intros st; [done|].
  unfold aged_out_textures. simpl.
  destruct (0 <? ref_count e) eqn:Hpos; simpl.
  - specialize (IH st). by destruct (AgeHashCache_pass hc st).
  - destruct (MAX_HASH_CACHE_AGE <? u32 (age e + 1)); simpl.
    + match goal with |- context [AgeHashCache_pass hc ?s] => destruct (IH s) as (-> & -> & ->) end.
      simpl. split; [|done]. fold (aged_out_textures hc). by rewrite <- app_assoc.
    + match goal with |- context [AgeHashCache_pass hc ?s] =>
        destruct (IH s) as (Hr & Hp & Hf); destruct (AgeHashCache_pass hc s) end.
      simpl in *. rewrite Hr, Hp, Hf.
      destruct (might_need_cache_purge st); [destruct (MAX_HASH_CACHE_SIZE <? _)|]; done.
Qed.

(** X13. With at most [MAX_HASH_CACHE_SIZE] entries in the table,
    [AgeHashCache] only ages: the table is the one that pass 1 of the
    reference leaves, the textures of the entries that aged out are recycled
    (the latest first), and the purge list, the sources and the page lists
    are as before. *)
Theorem AgeHashCache_small_table (tc : GPUTextureCache) (dev : GPUDevice) :
  Z.of_nat (length (m_hash_cache tc)) <= MAX_HASH_CACHE_SIZE ->
  m_hash_cache (AgeHashCache tc dev).1 = age_pass_spec (m_hash_cache tc)
  /\ recycled (AgeHashCache tc dev).2
     = rev (aged_out_textures (m_hash_cache tc)) ++ recycled dev
  /\ fetches (AgeHashCache tc dev).2 = fetches dev
  /\ s_hash_cache_purge_list (AgeHashCache tc dev).1 = s_hash_cache_purge_list tc
  /\ sources (AgeHashCache tc dev).1 = sources tc
  /\ m_page_sources (AgeHashCache tc dev).1 = m_page_sources tc.
Proof.
  intros Hsmall. unfold AgeHashCache.
  destruct (MAX_HASH_CACHE_SIZE <? Z.of_nat (length (m_hash_cache tc))) eqn:Hbig; [lia|].
  match goal with |- context [AgeHashCache_pass ?hc ?s] =>
    pose proof (AgeHashCache_pass_kept hc s) as Hkept;
    pose proof (AgeHashCache_pass_no_purge hc s eq_refl) as [Hoff Hlist];
    pose proof (AgeHashCache_pass_device hc s) as (Hrec & _ & Hfetch);
    destruct (AgeHashCache_pass hc s) as [kept st]
  end.
  simpl in *. rewrite Hoff. simpl. by rewrite Hlist.
Qed.

Lemma AgeHashCache_small_table_witness :
  Z.of_nat (length (m_hash_cache (set_hash_cache small_table empty_cache)))
    <= MAX_HASH_CACHE_SIZE
  /\ m_hash_cache (AgeHashCache (set_hash_cache small_table empty_cache) no_texture).1
     = age_pass_spec small_table.
Proof.
  assert (Hsmall : Z.of_nat (length (m_hash_cache (set_hash_cache small_table empty_cache)))
                   <= MAX_HASH_CACHE_SIZE) by (vm_compute; discriminate).
  split; [exact Hsmall|].
  exact (proj1 (AgeHashCache_small_table (set_hash_cache small_table empty_cache)
                  no_texture Hsmall)).
Defined.

Lemma age_pass_spec_length (hc : HashCache) :
  (length (age_pass_spec hc) <= length hc)%nat.
Proof.
  induction hc as [|[k e] hc IH]; simpl; [done|].
  destruct (0 <? ref_count e); [simpl; lia|].
  destruct (MAX_HASH_CACHE_AGE <? u32 (age e + 1)); simpl; lia.
Qed.

(** The first loop keeps [size] equal to the number of entries of the
    table. *)
Lemma AgeHashCache_pass_size (hc : HashCache) (st : AgeState) :
  table_size (AgeHashCache_pass hc st).2
  = table_size st - (Z.of_nat (length hc) - Z.of_nat (length (age_pass_spec hc))).
Proof.
  revert st. induction hc as [|[k e] hc IH]; intros st; simpl; [lia|].
  destruct (0 <? ref_count e).
  - specialize (IH st). destruct (AgeHashCache_pass hc st). simpl in *. lia.
  - destruct (MAX_HASH_CACHE_AGE <? u32 (age e + 1)).
    + rewrite IH. simpl. lia.
    + match goal with |- context [AgeHashCache_pass hc ?s] =>
        specialize (IH s); destruct (AgeHashCache_pass hc s) end.
      simpl in *. rewrite IH.
      destruct (might_need_cache_purge st); [destruct (MAX_HASH_CACHE_SIZE <? _)|]; simpl; lia.
Qed.

(** Once the flag is cleared in the first loop, the table is within the
    limit. *)
Lemma AgeHashCache_pass_cleared (hc : HashCache) (st : AgeState) :
  might_need_cache_purge st = true ->
  might_need_cache_purge (AgeHashCache_pass hc st).2 = false ->
  table_size (AgeHashCache_pass hc st).2 <= MAX_HASH_CACHE_SIZE.
Proof.
  revert st. induction hc as [|[k e] hc IH]; intros st Hon; simpl; [congruence|].
  destruct (0 <? ref_count e).
  - specialize (IH st Hon). by destruct (AgeHashCache_pass hc st).
  - destruct (MAX_HASH_CACHE_AGE <? u32 (age e + 1)); [by apply IH|].
    rewrite Hon.
    destruct (MAX_HASH_CACHE_SIZE <? table_size st) eqn:Hbig.
    + match goal with |- context [AgeHashCache_pass hc ?s] =>
        specialize (IH s eq_refl); destruct (AgeHashCache_pass hc s) end.
      done.
    + intros _.
      match goal with |- context [AgeHashCache_pass hc ?s] =>
        pose proof (AgeHashCache_pass_size hc s) as Hsize;
        destruct (AgeHashCache_pass hc s) end.
      simpl in *. pose proof (age_pass_spec_length hc). lia.
Qed.

(** While the table stays over the limit, every unused entry that is kept
    goes on the purge list. *)
Lemma AgeHashCache_pass_full (hc : HashCache) (st : AgeState) :
  might_need_cache_purge st = true ->
  MAX_HASH_CACHE_SIZE < table_size (AgeHashCache_pass hc st).2 ->
  (forall k e, (k, e) ∈ hc -> ref_count e = 0) ->
  might_need_cache_purge (AgeHashCache_pass hc st).2 = true
  /\ (purge_list (AgeHashCache_pass hc st).2).*1
     = (purge_list st).*1 ++ (age_pass_spec hc).*1.
Proof.
  revert st. induction hc as [|[k e] hc IH]; intros st Hon Hbig Hunused.
  - simpl. by rewrite app_nil_r.
  - assert (Hrest : forall k' e', (k', e') ∈ hc -> ref_count e' = 0)
      by (intros k' e' Hin; apply (Hunused k' e'); by right).
    assert (He : ref_count e = 0) by (apply (Hunused k e); left).
    simpl in *. rewrite He in *. simpl in *.
    destruct (MAX_HASH_CACHE_AGE <? u32 (age e + 1)).
    { match type of Hbig with context [AgeHashCache_pass hc ?s] =>
        exact (IH s Hon Hbig Hrest) end. }
    rewrite Hon in *.
    destruct (MAX_HASH_CACHE_SIZE <? table_size st) eqn:Hsize.
    + match type of Hbig with context [AgeHashCache_pass hc ?s] =>
        specialize (IH s eq_refl); destruct (AgeHashCache_pass hc s) end.
      simpl in *. destruct (IH Hbig Hrest) as [-> ->].
      split; [done|]. rewrite fmap_app. csimpl. by rewrite <- app_assoc.
    + exfalso.
      match type of Hbig with context [AgeHashCache_pass hc ?s] =>
        pose proof (AgeHashCache_pass_size hc s) as Hpass;
        destruct (AgeHashCache_pass hc s) end.
      simpl in *. pose proof (age_pass_spec_length hc). lia.
Qed.

Lemma insert_by_age_Permutation (x : HashCacheKey * Z) (l : list (HashCacheKey * Z)) :
  insert_by_age x l ≡ₚ x :: l.
Proof.
  induction l as [|y l IH]; simpl; [done|].
  destruct (y.2 <? x.2); [done|]. rewrite IH. apply Permutation_swap.
Qed.

Lemma sort_by_age_Permutation (l : list (HashCacheKey * Z)) : sort_by_age l ≡ₚ l.
Proof.
  induction l as [|x l IH]; simpl; [done|].
  rewrite insert_by_age_Permutation. by rewrite IH.
Qed.

Lemma hc_erase_length (k : HashCacheKey) (e : HashCacheEntry) (hc : HashCache) :
  hc_find k hc = Some e -> length hc = S (length (hc_erase k hc)).
Proof.
  induction hc as [|[k' e'] hc IH]; simpl; [done|].
  case_decide; simpl; [done|]. intros Hfind. by rewrite <- IH.
Qed.

Lemma hc_find_key (k : HashCacheKey) (hc : HashCache) :
  k ∈ hc.*1 -> is_Some (hc_find k hc).
Proof.
  intros Hin. destruct (hc_find k hc) eqn:Hfind; [done|].
  by apply hc_find_None in Hfind.
Qed.

(** The purge removes one entry for each of the first [n] candidates when
    they name distinct entries of the table. *)
Lemma purge_entries_length (n : nat) (l : list (HashCacheKey * Z))
    (st : HashCache * GPUDevice) :
  NoDup l.*1 ->
  (forall k, k ∈ l.*1 -> is_Some (hc_find k st.1)) ->
  (n <= length l)%nat ->
  length st.1 = (n + length (purge_entries n l st).1)%nat.
Proof.
  revert l st. induction n as [|n IH]; intros [|[k a] l] st Hnd Hin Hn; simpl in *;
    try done; try lia.
  apply NoDup_cons in Hnd as [Hfresh Hnd].
  destruct (Hin k) as [e He]; [left|].
  rewrite <- IH; [| done | | lia].
  - unfold RemoveFromHashCache. rewrite He. simpl. by apply (hc_erase_length k e).
  - intros k' Hk'. unfold RemoveFromHashCache. rewrite He. simpl.
    rewrite hc_find_erase_ne by (intros ->; done).
    apply Hin. by right.
Qed.

(** X14. When no entry of the table is in use, the table holds at most
    [MAX_HASH_CACHE_SIZE] entries after [AgeHashCache]. *)
Theorem AgeHashCache_unused_table_bounded (tc : GPUTextureCache) (dev : GPUDevice) :
  NoDup (m_hash_cache tc).*1 ->
  (forall k e, (k, e) ∈ m_hash_cache tc -> ref_count e = 0) ->
  Z.of_nat (length (m_hash_cache tc)) < 2 ^ 32 ->
  Z.of_nat (length (m_hash_cache (AgeHashCache tc dev).1)) <= MAX_HASH_CACHE_SIZE.
Proof.
  intros Hnd Hunused Hlen. unfold AgeHashCache.
  pose proof (age_pass_spec_length (m_hash_cache tc)) as Hshort.
  match goal with |- context [AgeHashCache_pass ?hc ?s] =>
    pose proof (AgeHashCache_pass_kept hc s) as Hkept;
    pose proof (AgeHashCache_pass_size hc s) as Hsize;
    pose proof (AgeHashCache_pass_cleared hc s) as Hcleared;
    pose proof (AgeHashCache_pass_full hc s) as Hfull;
    pose proof (AgeHashCache_pass_no_purge hc s) as Hoff;
    destruct (AgeHashCache_pass hc s) as [kept st]
  end.
  simpl in *. subst kept.
  destruct (might_need_cache_purge st) eqn:Hmight.
  - match goal with |- context [purge_entries ?n ?l ?s] =>
      pose proof (purge_entries_sublist n l s) as Hsub;
      pose proof (purge_entries_length n l s) as Hpurged;
      destruct (purge_entries n l s) as [hc2 dev2]
    end.
    simpl in *.
    destruct (MAX_HASH_CACHE_SIZE <? Z.of_nat (length (m_hash_cache tc))) eqn:Hbig0;
      [|by destruct (Hoff eq_refl)].
    destruct (decide (MAX_HASH_CACHE_SIZE < table_size st)) as [Hbig|Hsmall].
    + destruct (Hfull eq_refl Hbig Hunused) as [_ Hkeys]. simpl in Hkeys.
      assert (Hsorted : (sort_by_age (purge_list st)).*1 ≡ₚ
                        (age_pass_spec (m_hash_cache tc)).*1).
      { rewrite sort_by_age_Permutation. by rewrite Hkeys. }
      assert (Hnd' : NoDup (age_pass_spec (m_hash_cache tc)).*1).
      { eapply sublist_NoDup; [exact Hnd | apply age_pass_spec_keys]. }
      assert (Hcount : length (sort_by_age (purge_list st))
                       = length (age_pass_spec (m_hash_cache tc))).
      { rewrite <- (length_fmap fst (sort_by_age _)), Hsorted. apply length_fmap. }
      rewrite Hcount in *.
      unfold u64, u32 in Hpurged |- *. unfold MAX_HASH_CACHE_SIZE in *.
      rewrite (Z.mod_small (table_size st - 200)) in Hpurged by lia.
      rewrite (Z.mod_small (table_size st - 200)) in Hpurged by lia.
      rewrite (Z.mod_small (Z.of_nat _)) in Hpurged by lia.
      assert (Hdistinct : NoDup (sort_by_age (purge_list st)).*1) by (by rewrite Hsorted).
      assert (Hpresent : forall k, k ∈ (sort_by_age (purge_list st)).*1 ->
                is_Some (hc_find k (age_pass_spec (m_hash_cache tc)))).
      { intros k Hk. rewrite Hsorted in Hk. by apply hc_find_key. }
      specialize (Hpurged Hdistinct Hpresent).
      set (kept := length (age_pass_spec (m_hash_cache tc))) in *.
      rewrite Z.min_l in Hpurged by lia.
      assert (Hn : (Z.to_nat (table_size st - 200) <= kept)%nat) by lia.
      specialize (Hpurged Hn). lia.
    + apply sublist_length in Hsub. unfold MAX_HASH_CACHE_SIZE in *. lia.
  - unfold MAX_HASH_CACHE_SIZE in *.
    destruct (200 <? Z.of_nat (length (m_hash_cache tc))) eqn:Hbig0.
    + specialize (Hcleared eq_refl eq_refl). simpl. lia.
    + simpl. lia.
Qed.

Lemma AgeHashCache_unused_table_bounded_witness :
  NoDup (m_hash_cache (set_hash_cache unused_table empty_cache)).*1
  /\ Z.of_nat (length (m_hash_cache
                         (AgeHashCache (set_hash_cache unused_table empty_cache)
                            no_texture).1)) <= MAX_HASH_CACHE_SIZE.
Proof.
  assert (Hnd : NoDup (m_hash_cache (set_hash_cache unused_table empty_cache)).*1).
  { apply (bool_decide_unpack _). vm_compute. exact I. }
  split; [exact Hnd|].
  apply (AgeHashCache_unused_table_bounded _ no_texture Hnd).
  - intros k e Hin. simpl in Hin. unfold unused_table, table_entry in Hin.
    repeat (apply elem_of_cons in Hin; destruct Hin as [Heq|Hin]; [by inversion Heq|]).
    by apply elem_of_nil in Hin.
  - vm_compute. reflexivity.
Defined.

Lemma lookup_found_Ok {A : Type} (d : A)
    (r : Result (option A * GPUTextureCache * GPUDevice)) :
  lookup_found r = true -> r = Ok (Some (lookup_value d r), lookup_cache r, lookup_device r).
Proof. by destruct r as [[[[a|] tc] dev]|f]. Qed.

Lemma succeeded_Ok {A : Type} (d : A) (r : Result A) :
  succeeded r = true -> r = Ok (value_or d r).
Proof. by destruct r. Qed.

Lemma LookupHashCache_again_witness :
  exists hk tc1 dev1,
    first_entry = Ok (Some hk, tc1, dev1)
    /\ LookupHashCache (H := console) white_vram key_p1_4bit tc1 dev1
       = Ok (Some hk, tc1, dev1).
Proof.
  assert (Hfound : lookup_found first_entry = true).
  { vm_cast_no_check (eq_refl true). }
  pose proof (lookup_found_Ok (mkHashCacheKey 0 0 0) first_entry Hfound) as Hrun.
  eexists _, _, _. split; [exact Hrun|].
  exact (LookupHashCache_again (H := console) white_vram key_p1_4bit _ _ _ _ _ Hrun).
Defined.

Lemma LookupHashCache_table_witness :
  NoDup (m_hash_cache empty_cache).*1
  /\ exists hk tc1 dev1,
       first_entry = Ok (Some hk, tc1, dev1)
       /\ NoDup (m_hash_cache tc1).*1.
Proof.
  assert (Hnd : NoDup (m_hash_cache empty_cache).*1) by constructor.
  assert (Hfound : lookup_found first_entry = true).
  { vm_cast_no_check (eq_refl true). }
  pose proof (lookup_found_Ok (mkHashCacheKey 0 0 0) first_entry Hfound) as Hrun.
  split; [exact Hnd|]. eexists _, _, _. split; [exact Hrun|].
  exact (proj1 (LookupHashCache_table (H := console) white_vram key_p1_4bit _ _ _ _ _
                  Hnd Hrun)).
Defined.

Lemma CreateSource_after_invalidation_witness :
  exists src1 tc1 dev1 tc2 src2 tc3 dev3,
    first_creation = Ok (Some src1, tc1, dev1)
    /\ InvalidateFromWrite (mkRect 64 0 128 16) tc1 = Ok tc2
    /\ CreateSource (H := console) white_vram key_p1_4bit tc2 dev1
       = Ok (Some src2, tc3, dev3)
    /\ dev3 = dev1.
Proof.
  assert (Hsrc : result_source first_creation = Some 0%nat).
  { vm_cast_no_check (eq_refl (Some 0%nat)). }
  pose proof (result_source_Some first_creation 0%nat Hsrc) as Hfirst.
  assert (Hok : succeeded first_invalidated = true).
  { vm_cast_no_check (eq_refl true). }
  pose proof (succeeded_Ok empty_cache first_invalidated Hok) as Hinv.
  assert (Hagain : lookup_found
                     (CreateSource (H := console) white_vram key_p1_4bit
                        (value_or empty_cache first_invalidated)
                        (result_device first_creation)) = true).
  { vm_cast_no_check (eq_refl true). }
  pose proof (lookup_found_Ok 0%nat _ Hagain) as Hsecond.
  eexists _, _, _, _, _, _, _.
  split; [exact Hfirst|]. split; [exact Hinv|]. split; [exact Hsecond|].
  exact (proj1 (CreateSource_after_invalidation (H := console) white_vram key_p1_4bit
                  _ _ _ _ _ _ _ _ _ _ Hfirst Hinv Hsecond)).
Defined.

(** ** Lookups after an invalidation, and hits *)

Lemma list_without_Permutation (n : SourceListNode) (l : SourceList) :
  n ∈ l -> n :: list_without n l ≡ₚ l.
Proof.
  induction l as [|h l IH]; simpl; intros Hin; [by apply elem_of_nil in Hin|].
  case_decide as Hh; [by subst|].
  apply elem_of_cons in Hin as [->|Hin]; [done|].
  rewrite Permutation_swap. by rewrite IH.
Qed.

Lemma LookupSource_walk_elem (k : SourceKey) (heap : gmap nat Source) (l : SourceList)
    (n : SourceListNode) :
  LookupSource_walk k heap l = Ok (Some n) -> n ∈ l.
Proof.
  induction l as [|n' l IH]; simpl; [discriminate|]. intros Hrun.
  apply bind_Ok_inv in Hrun as (s & Hs & Hrun).
  case_decide as Hk; [|right; by apply IH]. injection Hrun as <-. left.
Qed.

Section Hits.
Context `{Collaborators}.
Variable g_vram : VRAM.

(** X15. After [InvalidatePage] of the primary page of a key, [LookupSource]
    for that key is [CreateSource]: no source is found on the page. *)
Theorem LookupSource_after_InvalidatePage (k : SourceKey) (tc tc' : GPUTextureCache)
    (dev : GPUDevice) :
  InvalidatePage (page k) tc = Ok tc' ->
  LookupSource g_vram k tc' dev = CreateSource g_vram k tc' dev.
Proof.
  intros Hrun. apply InvalidatePage_effect in Hrun as (l & _ & _ & Hempty & _).
  unfold LookupSource. unfold SourceList, SourceListNode in *. by rewrite Hempty.
Qed.

(** X16. When the walk of [LookupSource] finds a node, the lookup returns the
    owner of that node, whose key is the one looked up; the list of the
    primary page holds the same nodes with that node first and the others in
    their old order; the sources, the table and the device are untouched. *)
Theorem LookupSource_hit_moves_to_front (k : SourceKey) (tc : GPUTextureCache)
    (dev : GPUDevice) (l : SourceList) (n : SourceListNode) :
  m_page_sources tc !! Z.to_nat (page k) = Some l ->
  LookupSource_walk k (sources tc) l = Ok (Some n) ->
  exists l',
    LookupSource g_vram k tc dev
    = Ok (Some n.1, set_page_sources (<[Z.to_nat (page k) := l']> (m_page_sources tc)) tc, dev)
    /\ l' ≡ₚ l
    /\ head l' = Some n
    /\ list_without n l' = list_without n l
    /\ exists s, sources tc !! n.1 = Some s /\ key s = k.
Proof.
  intros Hl Hwalk.
  pose proof (LookupSource_walk_elem _ _ _ _ Hwalk) as Hin.
  pose proof (LookupSource_walk_Some _ _ _ _ Hwalk) as Hs.
  unfold LookupSource. unfold SourceList, SourceListNode in *.
  rewrite Hl. simpl. rewrite Hwalk. simpl.
  destruct l as [|h l0]; [by apply elem_of_nil in Hin|].
  unfold ListMoveToFront. case_decide as Hh; simpl.
  - subst h. exists (n :: l0). simpl. rewrite decide_True by done. done.
  - exists (n :: list_without n (h :: l0)). split; [done|].
    split; [by apply list_without_Permutation|]. split; [done|].
    split; [|done]. simpl. by rewrite decide_True.
Qed.

(** X17. In a mode that is not paletted, [LookupHashCache] does not depend on
    the palette field of the key. *)
Theorem LookupHashCache_direct_ignores_palette (k : SourceKey) (pal : Z)
    (tc : GPUTextureCache) (dev : GPUDevice) :
  is_paletted (mode k) = false ->
  LookupHashCache g_vram (mkSourceKey (page k) (mode k) pal) tc dev
  = LookupHashCache g_vram k tc dev.
Proof.
  intros Hmode. unfold LookupHashCache. cbn [page mode palette]. rewrite Hmode.
  destruct (mode k); [discriminate|discriminate| |]; unfold DecodeTexture; reflexivity.
Qed.
End Hits.

Lemma LookupSource_after_InvalidatePage_witness :
  InvalidatePage (page key_p1_4bit) one_source_cache = Ok no_source_cache
  /\ LookupSource (H := console) white_vram key_p1_4bit no_source_cache two_textures
     = CreateSource (H := console) white_vram key_p1_4bit no_source_cache two_textures.
Proof.
  assert (Hrun : InvalidatePage (page key_p1_4bit) one_source_cache = Ok no_source_cache)
    by (vm_compute; reflexivity).
  split; [exact Hrun|].
  exact (LookupSource_after_InvalidatePage (H := console) white_vram key_p1_4bit _ _
           two_textures Hrun).
Defined.

Lemma LookupSource_hit_moves_to_front_witness :
  m_page_sources one_source_cache !! Z.to_nat (page key_p1_4bit) = Some [(0%nat, 0)]
  /\ LookupSource_walk key_p1_4bit (sources one_source_cache) [(0%nat, 0)]
     = Ok (Some (0%nat, 0))
  /\ exists l',
       LookupSource (H := console) white_vram key_p1_4bit one_source_cache two_textures
       = Ok (Some 0%nat,
             set_page_sources (<[Z.to_nat (page key_p1_4bit) := l']>
                                 (m_page_sources one_source_cache)) one_source_cache,
             two_textures)
       /\ head l' = Some (0%nat, 0).
Proof.
  assert (Hl : m_page_sources one_source_cache !! Z.to_nat (page key_p1_4bit)
               = Some [(0%nat, 0)]) by (vm_compute; reflexivity).
  assert (Hwalk : LookupSource_walk key_p1_4bit (sources one_source_cache) [(0%nat, 0)]
                  = Ok (Some (0%nat, 0))) by (vm_compute; reflexivity).
  split; [exact Hl|]. split; [exact Hwalk|].
  destruct (LookupSource_hit_moves_to_front (H := console) white_vram key_p1_4bit
              one_source_cache two_textures _ _ Hl Hwalk) as (l' & Hrun & _ & Hhead & _).
  exists l'. split; [exact Hrun | exact Hhead].
Defined.

Lemma LookupHashCache_direct_ignores_palette_witness :
  is_paletted (mode key_p0_16bit) = false
  /\ LookupHashCache (H := console) white_vram (mkSourceKey 0 Direct16Bit 77)
       empty_cache two_textures
     = LookupHashCache (H := console) white_vram key_p0_16bit empty_cache two_textures.
Proof.
  assert (Hmode : is_paletted (mode key_p0_16bit) = false) by reflexivity.
  split; [exact Hmode|].
  exact (LookupHashCache_direct_ignores_palette (H := console) white_vram key_p0_16bit 77
           empty_cache two_textures Hmode).
Defined.

(** ** No texture is lost by ageing *)

Lemma hc_erase_textures (k : HashCacheKey) (e : HashCacheEntry) (hc : HashCache) :
  hc_find k hc = Some e ->
  table_texture_list hc ≡ₚ he_texture e :: table_texture_list (hc_erase k hc).
Proof.
  induction hc as [|[k' e'] hc IH]; simpl; [done|].
  case_decide as Hk; simpl.
  - by intros [= ->].
  - intros Hfind. rewrite IH by done. apply Permutation_swap.
Qed.

Lemma RemoveFromHashCache_conserves (k : HashCacheKey) (st : HashCache * GPUDevice) :
  table_texture_list (RemoveFromHashCache k st).1 ++ recycled (RemoveFromHashCache k st).2
  ≡ₚ table_texture_list st.1 ++ recycled st.2.
Proof.
  unfold RemoveFromHashCache. destruct (hc_find k st.1) as [e|] eqn:Hfind; [|done].
  simpl. rewrite (hc_erase_textures k e st.1 Hfind). simpl.
  by rewrite Permutation_middle.
Qed.

Lemma purge_entries_conserves (n : nat) (l : list (HashCacheKey * Z))
    (st : HashCache * GPUDevice) :
  table_texture_list (purge_entries n l st).1 ++ recycled (purge_entries n l st).2
  ≡ₚ table_texture_list st.1 ++ recycled st.2.
Proof.
  revert l st. induction n as [|n IH]; intros [|[k a] l] st; simpl; try done.
  rewrite IH. apply RemoveFromHashCache_conserves.
Qed.

Lemma age_pass_spec_conserves (hc : HashCache) :
  table_texture_list (age_pass_spec hc) ++ rev (aged_out_textures hc)
  ≡ₚ table_texture_list hc.
Proof.
  rewrite <- Permutation_rev.
  induction hc as [|[k e] hc IH]; [done|].
  unfold aged_out_textures in *. simpl.
  destruct (0 <? ref_count e); simpl; [by rewrite IH|].
  destruct (MAX_HASH_CACHE_AGE <? u32 (age e + 1)); simpl; [|by rewrite IH].
  rewrite <- Permutation_middle. by rewrite IH.
Qed.

(** X18. [AgeHashCache] loses no texture and makes none: the textures of the
    table together with the recycled ones are the same before and after, up
    to order. *)
Theorem AgeHashCache_conserves_textures (tc : GPUTextureCache) (dev : GPUDevice) :
  table_texture_list (m_hash_cache (AgeHashCache tc dev).1)
    ++ recycled (AgeHashCache tc dev).2
  ≡ₚ table_texture_list (m_hash_cache tc) ++ recycled dev.
Proof.
  unfold AgeHashCache.
  match goal with |- context [AgeHashCache_pass ?hc ?s] =>
    pose proof (AgeHashCache_pass_kept hc s) as Hkept;
    pose proof (AgeHashCache_pass_device hc s) as (Hrec & _ & _);
    destruct (AgeHashCache_pass hc s) as [kept st]
  end.
  simpl in Hkept, Hrec. subst kept.
  assert (Hpass : table_texture_list (age_pass_spec (m_hash_cache tc))
                    ++ recycled (age_device st)
                  ≡ₚ table_texture_list (m_hash_cache tc) ++ recycled dev).
  { rewrite Hrec, app_assoc. by rewrite age_pass_spec_conserves. }
  destruct (might_need_cache_purge st); [|done].
  match goal with |- context [purge_entries ?n ?l ?s] =>
    pose proof (purge_entries_conserves n l s) as Hpurge;
    destruct (purge_entries n l s) as [hc2 dev2]
  end.
  simpl in *. by rewrite Hpurge.
Qed.

Lemma only_linked_refl (src : nat) (tc : GPUTextureCache) : only_linked src tc tc.
Proof. repeat split; eauto. Qed.

Lemma only_linked_trans (src : nat) (tc1 tc2 tc3 : GPUTextureCache) :
  only_linked src tc1 tc2 -> only_linked src tc2 tc3 -> only_linked src tc1 tc3.
Proof.
  intros (Hs1 & Hlen1 & Hl1 & Hd1 & Hn1) (Hs2 & Hlen2 & Hl2 & Hd2 & Hn2).
  split; [intros n Hn; rewrite Hs2, Hs1; done|].
  split; [congruence|]. split; [|split; congruence].
  intros p l Hl. destruct (Hl1 p l Hl) as (l' & Hl' & Heq).
  destruct (Hl2 p l' Hl') as (l'' & Hl'' & Heq'). exists l''. split; [done|congruence].
Qed.

Lemma only_linked_source (src : nat) (s : Source) (tc : GPUTextureCache) :
  only_linked src tc (set_sources (<[src := s]> (sources tc)) tc).
Proof.
  split; [intros n Hn; simpl; by rewrite lookup_insert_ne|].
  repeat split; simpl; eauto.
Qed.

Lemma only_linked_list (src : nat) (pn : nat) (l l' : SourceList) (tc : GPUTextureCache) :
  m_page_sources tc !! pn = Some l ->
  other_nodes src l' = other_nodes src l ->
  only_linked src tc (set_page_sources (<[pn := l']> (m_page_sources tc)) tc).
Proof.
  intros Hl Heq. split; [done|]. split; [simpl; by rewrite length_insert|].
  split; [|done]. intros p l0 Hl0. simpl.
  destruct (decide (p = pn)) as [->|Hp].
  - exists l'. split; [|congruence].
    apply list_lookup_insert_eq. by eapply lookup_lt_Some.
  - exists l0. by rewrite list_lookup_insert_ne.
Qed.

Lemma set_node_list_only_linked (src : nat) (ri pn : Z) (tc tc1 : GPUTextureCache) :
  set_node_list src ri pn tc = Ok tc1 ->
  only_linked src tc tc1 /\ m_page_sources tc1 = m_page_sources tc.
Proof.
  unfold set_node_list. intros Hset.
  apply bind_Ok_inv in Hset as (s & Hs & Hset).
  apply bind_Ok_inv in Hset as (? & _ & Hset). injection Hset as <-.
  split; [apply only_linked_source | done].
Qed.

Lemma ListPrepend_own : links_own_node ListPrepend.
Proof.
  intros pn src ri tc tc' Hrun. unfold ListPrepend in Hrun.
  apply bind_Ok_inv in Hrun as (l & Hl & Hrun). inv_opt Hl.
  apply bind_Ok_inv in Hrun as (tc1 & Hset & Hrun). injection Hrun as <-.
  apply set_node_list_only_linked in Hset as [Hlinked Hps].
  eapply only_linked_trans; [exact Hlinked|].
  apply (only_linked_list src _ l); [by rewrite Hps|].
  unfold other_nodes. simpl. by rewrite Nat.eqb_refl.
Qed.

Lemma ListAppend_own : links_own_node ListAppend.
Proof.
  intros pn src ri tc tc' Hrun. unfold ListAppend in Hrun.
  apply bind_Ok_inv in Hrun as (l & Hl & Hrun). inv_opt Hl.
  apply bind_Ok_inv in Hrun as (tc1 & Hset & Hrun). injection Hrun as <-.
  apply set_node_list_only_linked in Hset as [Hlinked Hps].
  eapply only_linked_trans; [exact Hlinked|].
  apply (only_linked_list src _ l); [by rewrite Hps|].
  unfold other_nodes. rewrite List.filter_app. simpl. rewrite Nat.eqb_refl. simpl.
  apply app_nil_r.
Qed.

Lemma add_page_ref_with_own
    (link : Z -> nat -> Z -> GPUTextureCache -> Result GPUTextureCache)
    (src : nat) (pn : Z) (st st' : list Z * GPUTextureCache) :
  links_own_node link ->
  add_page_ref_with link src pn st = Ok st' -> only_linked src st.2 st'.2.
Proof.
  intros Hlink. destruct st as [refns tc]. unfold add_page_ref_with. simpl. intros Hrun.
  apply bind_Ok_inv in Hrun as (s & Hs & Hrun).
  destruct (existsb _ _).
  { injection Hrun as <-. apply only_linked_refl. }
  apply bind_Ok_inv in Hrun as (? & _ & Hrun).
  apply bind_Ok_inv in Hrun as (tc2 & Hrun2 & Hrun). injection Hrun as <-. simpl.
  eapply only_linked_trans; [apply only_linked_source|]. by eapply Hlink.
Qed.

Section Frame.
Context `{Collaborators}.
Variable g_vram : VRAM.

(** [LookupHashCache] writes to the table only. *)
Lemma LookupHashCache_cache (k : SourceKey) (tc tc1 : GPUTextureCache)
    (dev dev1 : GPUDevice) (r : option HashCacheKey) :
  LookupHashCache g_vram k tc dev = Ok (r, tc1, dev1) ->
  tc1 = set_hash_cache (m_hash_cache tc1) tc.
Proof.
  unfold LookupHashCache. intros Hrun.
  apply bind_Ok_inv in Hrun as (th & Hth & Hrun).
  apply bind_Ok_inv in Hrun as (ph & Hph & Hrun).
  destruct (hc_find _ (m_hash_cache tc)) as [e|].
  - injection Hrun as <- <- <-. by destruct tc.
  - destruct (FetchTexture dev) as [[t|] dev2].
    + apply bind_Ok_inv in Hrun as (texels & _ & Hrun). by injection Hrun as <- <- <-.
    + injection Hrun as <- <- <-. by destruct tc.
Qed.

(** X19. [CreateSource] gives the new source the next address, and touches no
    other source: every other source of the store is as before, every page
    list holds the nodes of the other sources as before and in the same
    order, and the drawn rectangle is as before. *)
Theorem CreateSource_links_own_nodes_only (k : SourceKey) (tc tc1 : GPUTextureCache)
    (dev dev1 : GPUDevice) (src : nat) :
  CreateSource g_vram k tc dev = Ok (Some src, tc1, dev1) ->
  src = next_source tc
  /\ next_source tc1 = S src
  /\ m_drawn_rect tc1 = m_drawn_rect tc
  /\ (forall n, n <> src -> sources tc1 !! n = sources tc !! n)
  /\ length (m_page_sources tc1) = length (m_page_sources tc)
  /\ (forall p l, m_page_sources tc !! p = Some l ->
        exists l', m_page_sources tc1 !! p = Some l'
                   /\ other_nodes src l' = other_nodes src l).
Proof.
  unfold CreateSource. intros Hrun.
  apply bind_Ok_inv in Hrun as ([[hcentry tc0] dev0] & Hlook & Hrun).
  apply LookupHashCache_cache in Hlook.
  destruct hcentry as [hk|]; [|discriminate].
  apply bind_Ok_inv in Hrun as (e & He & Hrun).
  apply bind_Ok_inv in Hrun as (st4 & Hfoot & Hrun).
  apply bind_Ok_inv in Hrun as (st5 & Hclut & Hrun).
  injection Hrun as <- <- <-.
  set (hc2 := hc_store hk _ (m_hash_cache tc0)) in *.
  set (s0 := mkSource k 0 (tex_id (he_texture e)) (Some hk) _) in *.
  set (tc3 := set_next_source _ _) in *.
  change (next_source (set_hash_cache hc2 tc0)) with (next_source tc0) in *.
  assert (Hnext : next_source tc0 = next_source tc) by (rewrite Hlook; done).
  assert (H4 : only_linked (next_source tc0) tc3 st4.2).
  { eapply (LoopPages_inv (add_page_ref (next_source tc0))
              (fun st => only_linked (next_source tc0) tc3 st.2));
      [| |exact Hfoot]; [|apply only_linked_refl].
    intros pn a b _ Ha Hb. eapply only_linked_trans; [exact Ha|].
    by eapply (add_page_ref_with_own ListPrepend), Hb; apply ListPrepend_own. }
  assert (H5 : only_linked (next_source tc0) tc3 st5.2).
  { destruct (is_paletted (mode k)); [|by injection Hclut as <-].
    eapply (LoopPages_inv (add_page_ref_back (next_source tc0))
              (fun st => only_linked (next_source tc0) tc3 st.2));
      [| |exact Hclut]; [|exact H4].
    intros pn a b _ Ha Hb. eapply only_linked_trans; [exact Ha|].
    by eapply (add_page_ref_with_own ListAppend), Hb; apply ListAppend_own. }
  destruct H5 as (Hs & Hlen & Hl & Hd & Hn).
  assert (Hps3 : m_page_sources tc3 = m_page_sources tc) by (subst tc3; rewrite Hlook; done).
  split; [done|]. split; [by rewrite Hn|].
  split; [rewrite Hd; subst tc3; rewrite Hlook; done|].
  split.
  { intros n Hne. rewrite Hs by done. subst tc3. simpl.
    rewrite lookup_insert_ne by done. by rewrite Hlook. }
  split; [by rewrite Hlen, Hps3|].
  intros p l Hp. apply Hl. by rewrite Hps3.
Qed.
End Frame.

Lemma CreateSource_links_own_nodes_only_witness :
  exists tc1 dev1,
    first_creation = Ok (Some 0%nat, tc1, dev1)
    /\ next_source tc1 = 1%nat
    /\ m_drawn_rect tc1 = m_drawn_rect empty_cache.
Proof.
  assert (Hsrc : result_source first_creation = Some 0%nat).
  { vm_cast_no_check (eq_refl (Some 0%nat)). }
  pose proof (result_source_Some first_creation 0%nat Hsrc) as Hfirst.
  eexists _, _. split; [exact Hfirst|].
  destruct (CreateSource_links_own_nodes_only (H := console) white_vram key_p1_4bit
              _ _ _ _ _ Hfirst) as (_ & Hnext & Hrect & _).
  split; [exact Hnext | exact Hrect].
Defined.

(** ** What a table lookup reads of the VRAM *)

Lemma vram_read_inv (g_vram : VRAM) (i c : Z) : vram_read g_vram i = Ok c -> c = g_vram i.
Proof. unfold vram_read. destruct (_ && _); [by intros [= <-]|discriminate]. Qed.

Section ReadsAgree.
Context `{Collaborators}.
Variables v1 v2 : VRAM.
Hypothesis cells_u16 : vram_u16 v1.

Lemma DecodeTexture16_row_agree (n : nat) (ptr : Z) :
  (forall x, 0 <= x < Z.of_nat n -> v1 (ptr + x) = v2 (ptr + x)) ->
  DecodeTexture16_row v1 n ptr = DecodeTexture16_row v2 n ptr.
Proof.
  revert ptr. induction n as [|n IH]; intros ptr Hagree; simpl; [done|].
  rewrite (vram_read_agree v1 v2 ptr)
    by (replace ptr with (ptr + 0) by lia; apply Hagree; lia).
  rewrite (IH (ptr + 1)); [done|]. intros x Hx.
  replace (ptr + 1 + x) with (ptr + (1 + x)) by lia. apply Hagree. lia.
Qed.

Lemma DecodeTexture8_row_agree (pal : Z) (n : nat) (ptr : Z) :
  (forall x, 0 <= x < Z.of_nat n -> v1 (ptr + x) = v2 (ptr + x)) ->
  (forall i, 0 <= i < 256 -> v1 (pal + i) = v2 (pal + i)) ->
  DecodeTexture8_row v1 pal n ptr = DecodeTexture8_row v2 pal n ptr.
Proof.
  intros Hagree Hpal. revert ptr Hagree.
  induction n as [|n IH]; intros ptr Hagree; simpl; [done|].
  assert (Hcell : v1 ptr = v2 ptr)
    by (replace ptr with (ptr + 0) by lia; apply Hagree; lia).
  rewrite (vram_read_agree v1 v2 ptr Hcell).
  destruct (vram_read v2 ptr) as [pp|] eqn:Hpp; [|done]. simpl.
  apply vram_read_inv in Hpp. rewrite <- Hcell in Hpp. subst pp.
  pose proof (cells_u16 ptr) as Hc.
  pose proof (land_255 (v1 ptr)) as Hlo.
  pose proof (land_255 (Z.shiftr (v1 ptr) 8)) as Hhi.
  rewrite (shiftr_8_u16 _ Hc).
  rewrite (vram_read_agree v1 v2 (pal + Z.land (v1 ptr) 255)) by (apply Hpal; lia).
  rewrite (vram_read_agree v1 v2 (pal + Z.land (Z.shiftr (v1 ptr) 8) 255))
    by (apply Hpal; lia).
  rewrite (IH (ptr + 1)); [done|]. intros x Hx.
  replace (ptr + 1 + x) with (ptr + (1 + x)) by lia. apply Hagree. lia.
Qed.

Lemma DecodeTexture4_row_agree (pal : Z) (n : nat) (ptr : Z) :
  (forall x, 0 <= x < Z.of_nat n -> v1 (ptr + x) = v2 (ptr + x)) ->
  (forall i, 0 <= i < 16 -> v1 (pal + i) = v2 (pal + i)) ->
  DecodeTexture4_row v1 pal n ptr = DecodeTexture4_row v2 pal n ptr.
Proof.
  intros Hagree Hpal. revert ptr Hagree.
  induction n as [|n IH]; intros ptr Hagree; simpl; [done|].
  assert (Hcell : v1 ptr = v2 ptr)
    by (replace ptr with (ptr + 0) by lia; apply Hagree; lia).
  rewrite (vram_read_agree v1 v2 ptr Hcell).
  destruct (vram_read v2 ptr) as [pp|] eqn:Hpp; [|done]. simpl.
  apply vram_read_inv in Hpp. rewrite <- Hcell in Hpp. subst pp.
  pose proof (cells_u16 ptr) as Hc.
  pose proof (land_15 (v1 ptr)) as Hn0.
  pose proof (land_15 (Z.shiftr (v1 ptr) 4)) as Hn1.
  pose proof (land_15 (Z.shiftr (v1 ptr) 8)) as Hn2.
  pose proof (land_15 (Z.shiftr (v1 ptr) 12)) as Hn3.
  rewrite (shiftr_12_u16 _ Hc).
  rewrite (vram_read_agree v1 v2 (pal + Z.land (v1 ptr) 15)) by (apply Hpal; lia).
  rewrite (vram_read_agree v1 v2 (pal + Z.land (Z.shiftr (v1 ptr) 4) 15))
    by (apply Hpal; lia).
  rewrite (vram_read_agree v1 v2 (pal + Z.land (Z.shiftr (v1 ptr) 8) 15))
    by (apply Hpal; lia).
  rewrite (vram_read_agree v1 v2 (pal + Z.land (Z.shiftr (v1 ptr) 12) 15))
    by (apply Hpal; lia).
  rewrite (IH (ptr + 1)); [done|]. intros x Hx.
  replace (ptr + 1 + x) with (ptr + (1 + x)) by lia. apply Hagree. lia.
Qed.

Lemma decode_rows_agree (row1 row2 : Z -> Result (list Z)) (n : nat) (ptr : Z) :
  (forall y, 0 <= y < Z.of_nat n -> row1 (ptr + y * VRAM_WIDTH) = row2 (ptr + y * VRAM_WIDTH)) ->
  decode_rows row1 n ptr = decode_rows row2 n ptr.
Proof.
  revert ptr. induction n as [|n IH]; intros ptr Hrows; simpl; [done|].
  specialize (Hrows 0) as Hfirst. rewrite Z.mul_0_l, Z.add_0_r in Hfirst.
  rewrite Hfirst by lia.
  rewrite (IH (ptr + VRAM_WIDTH)); [done|]. intros y Hy.
  replace (ptr + VRAM_WIDTH + y * VRAM_WIDTH) with (ptr + (y + 1) * VRAM_WIDTH) by lia.
  apply Hrows. lia.
Qed.

Lemma palette_agree (pal w : Z) :
  vram_agree v1 v2 pal 1 w -> forall i, 0 <= i < w -> v1 (pal + i) = v2 (pal + i).
Proof.
  intros Hpal i Hi. replace (pal + i) with (pal + 0 * VRAM_WIDTH + i) by lia.
  apply Hpal; lia.
Qed.

Lemma row_agree (ptr rows w y : Z) :
  vram_agree v1 v2 ptr rows w -> 0 <= y < rows ->
  forall x, 0 <= x < w -> v1 (ptr + y * VRAM_WIDTH + x) = v2 (ptr + y * VRAM_WIDTH + x).
Proof. intros Hpage Hy x Hx. by apply Hpage. Qed.

Lemma DecodeTexture_agree (pn pal : Z) (m : GPUTextureMode) :
  vram_agree v1 v2 (VRAMPagePointer pn) VRAM_PAGE_HEIGHT (WidthForMode m) ->
  (is_paletted m = true -> vram_agree v1 v2 (PalettePointer pal) 1 (PaletteGetWidth m)) ->
  DecodeTexture v1 pn pal m = DecodeTexture v2 pn pal m.
Proof.
  intros Hpage Hpal. unfold DecodeTexture.
  destruct m; unfold DecodeTexture4, DecodeTexture8, DecodeTexture16;
    apply decode_rows_agree; intros y Hy.
  - apply DecodeTexture4_row_agree; [|by apply palette_agree, Hpal].
    apply (row_agree _ _ _ _ Hpage). exact Hy.
  - apply DecodeTexture8_row_agree; [|by apply palette_agree, Hpal].
    apply (row_agree _ _ _ _ Hpage). exact Hy.
  - apply DecodeTexture16_row_agree. apply (row_agree _ _ _ _ Hpage). exact Hy.
  - apply DecodeTexture16_row_agree. apply (row_agree _ _ _ _ Hpage). exact Hy.
Qed.

Lemma HashPage_agree (pn : Z) (m : GPUTextureMode) :
  vram_agree v1 v2 (VRAMPagePointer pn) VRAM_PAGE_HEIGHT (WidthForMode m) ->
  HashPage v1 pn m = HashPage v2 pn m.
Proof.
  intros Hpage. unfold HashPage.
  destruct m; [| | |reflexivity];
    match goal with |- context [HashPage_rows v1 ?r ?c ?p] =>
      rewrite (HashPage_rows_agree v1 v2 r c p); [reflexivity|exact Hpage]
    end.
Qed.

Lemma HashPalette_agree (pal : Z) (m : GPUTextureMode) :
  vram_agree v1 v2 (PalettePointer pal) 1 (PaletteGetWidth m) ->
  HashPalette v1 pal m = HashPalette v2 pal m.
Proof.
  intros Hpal. unfold HashPalette.
  destruct m; [| |reflexivity|reflexivity];
    match goal with |- context [vram_cells v1 ?n ?p] =>
      rewrite (vram_cells_agree v1 v2 n p); [reflexivity|]
    end;
    intros x Hx; apply (palette_agree _ _ Hpal); simpl; lia.
Qed.
End ReadsAgree.

(** X20. [DecodeTexture] and [LookupHashCache] read the footprint only: on two
    VRAMs of 16-bit cells that hold the same cells in the 256 rows of
    [WidthForMode] cells of the page and, for a paletted mode, in the
    [GetWidth] cells of the CLUT, they give the same results. *)
Theorem LookupHashCache_reads_footprint_only `{Collaborators} (v1 v2 : VRAM)
    (k : SourceKey) (tc : GPUTextureCache) (dev : GPUDevice) :
  vram_u16 v1 ->
  vram_agree v1 v2 (VRAMPagePointer (page k)) VRAM_PAGE_HEIGHT (WidthForMode (mode k)) ->
  (is_paletted (mode k) = true ->
   vram_agree v1 v2 (PalettePointer (palette k)) 1 (PaletteGetWidth (mode k))) ->
  DecodeTexture v1 (page k) (palette k) (mode k) = DecodeTexture v2 (page k) (palette k) (mode k)
  /\ LookupHashCache v1 k tc dev = LookupHashCache v2 k tc dev.
Proof.
  intros Hu16 Hpage Hpal.
  pose proof (DecodeTexture_agree v1 v2 Hu16 _ _ _ Hpage Hpal) as Hdec.
  split; [exact Hdec|].
  unfold LookupHashCache.
  rewrite (HashPage_agree v1 v2 _ _ Hpage), Hdec.
  destruct (is_paletted (mode k)) eqn:Hmode; [|reflexivity].
  by rewrite (HashPalette_agree v1 v2 _ _ (Hpal eq_refl)).
Qed.

Lemma LookupHashCache_reads_footprint_only_witness :
  vram_u16 white_vram
  /\ LookupHashCache (H := console) white_vram key_p0_4bit empty_cache two_textures
     = LookupHashCache (H := console) written_vram key_p0_4bit empty_cache two_textures.
Proof.
  assert (Hu16 : vram_u16 white_vram) by (intros i; unfold white_vram; lia).
  assert (Hpage : vram_agree white_vram written_vram (VRAMPagePointer (page key_p0_4bit))
                    VRAM_PAGE_HEIGHT (WidthForMode (mode key_p0_4bit))).
  { intros y x Hy Hx. unfold white_vram, written_vram.
    change (VRAMPagePointer (page key_p0_4bit)) with 0. change VRAM_WIDTH with 1024.
    change (WidthForMode (mode key_p0_4bit)) with 64 in Hx.
    destruct (0 + y * 1024 + x =? 65) eqn:Heq; [lia|reflexivity]. }
  assert (Hpal : is_paletted (mode key_p0_4bit) = true ->
                 vram_agree white_vram written_vram
                   (PalettePointer (H := console) (palette key_p0_4bit)) 1
                   (PaletteGetWidth (mode key_p0_4bit))).
  { intros _ y x Hy Hx. unfold white_vram, written_vram.
    change (PalettePointer (H := console) (palette key_p0_4bit)) with 8192.
    change VRAM_WIDTH with 1024.
    simpl in Hx. destruct (8192 + y * 1024 + x =? 65) eqn:Heq; [lia|reflexivity]. }
  split; [exact Hu16|].
  exact (proj2 (LookupHashCache_reads_footprint_only (H := console) white_vram written_vram
                  key_p0_4bit empty_cache two_textures Hu16 Hpage Hpal)).
Defined.

(** ** Reference counts *)

Lemma source_count_insert_new (hk : HashCacheKey) (heap : gmap nat Source) (n : nat)
    (s : Source) :
  heap !! n = None ->
  source_count hk (<[n := s]> heap)
  = (source_count hk heap + (if decide (from_hash_cache s = Some hk) then 1 else 0))%nat.
Proof.
  intros Hfree. unfold source_count. rewrite map_filter_insert. simpl.
  destruct (decide (from_hash_cache s = Some hk)) as [Hs|Hs]; simpl.
  - rewrite map_size_insert_None; [lia|].
    apply map_lookup_filter_None_2. by left.
  - rewrite delete_id by done. lia.
Qed.

Lemma source_count_update (hk : HashCacheKey) (heap : gmap nat Source) (n : nat)
    (s s' : Source) :
  heap !! n = Some s -> from_hash_cache s' = from_hash_cache s ->
  source_count hk (<[n := s']> heap) = source_count hk heap.
Proof.
  intros Hs Hfrom. unfold source_count. rewrite map_filter_insert. simpl.
  destruct (decide (from_hash_cache s' = Some hk)) as [Hhk|Hhk]; simpl.
  - apply map_size_insert_Some. exists s.
    apply map_lookup_filter_Some_2; [done|]. simpl. congruence.
  - rewrite map_filter_delete_not; [done|].
    intros y Hy. simpl. congruence.
Qed.

Lemma source_count_delete (hk : HashCacheKey) (heap : gmap nat Source) (n : nat)
    (s : Source) :
  heap !! n = Some s ->
  source_count hk heap
  = (source_count hk (delete n heap)
     + (if decide (from_hash_cache s = Some hk) then 1 else 0))%nat.
Proof.
  intros Hs. unfold source_count. rewrite map_filter_delete.
  destruct (decide (from_hash_cache s = Some hk)) as [Hhk|Hhk].
  - assert (Hin : filter (fun p : nat * Source => from_hash_cache p.2 = Some hk) heap !! n
                  = Some s) by (by apply map_lookup_filter_Some_2).
    rewrite map_size_delete_Some by eauto.
    assert (size (filter (fun p : nat * Source => from_hash_cache p.2 = Some hk) heap) <> 0%nat).
    { intros Hz. apply map_size_empty_inv in Hz. rewrite Hz in Hin. by rewrite lookup_empty in Hin. }
    lia.
  - rewrite map_size_delete_None; [lia|].
    apply map_lookup_filter_None_2. right. intros y Hy. simpl. congruence.
Qed.

Lemma source_count_le (hk : HashCacheKey) (heap : gmap nat Source) :
  (source_count hk heap <= size heap)%nat.
Proof. apply map_size_filter. Qed.

Lemma hc_find_store_ne (k k' : HashCacheKey) (e : HashCacheEntry) (hc : HashCache) :
  k <> k' -> hc_find k' (hc_store k e hc) = hc_find k' hc.
Proof.
  intros Hne. induction hc as [|[k0 e0] hc IH]; simpl; [done|].
  case_decide as Hk; simpl.
  - subst k0. by rewrite !decide_False.
  - by rewrite IH.
Qed.

Lemma table_refs_store (hk k : HashCacheKey) (e e0 : HashCacheEntry) (hc : HashCache) :
  hc_find k hc = Some e0 ->
  table_refs hk (hc_store k e hc)
  = if decide (k = hk) then ref_count e else table_refs hk hc.
Proof.
  intros Hfind. unfold table_refs. case_decide as Hk.
  - subst hk. by rewrite (hc_find_store k e e0).
  - by rewrite hc_find_store_ne.
Qed.

(** A source that got its own fields rewritten, with [from_hash_cache]
    kept, leaves the counts consistent. *)
Lemma refs_consistent_update (tc tc' : GPUTextureCache) (src : nat) (s s' : Source) :
  refs_consistent tc ->
  sources tc !! src = Some s ->
  from_hash_cache s' = from_hash_cache s ->
  sources tc' = <[src := s']> (sources tc) ->
  m_hash_cache tc' = m_hash_cache tc ->
  next_source tc' = next_source tc ->
  refs_consistent tc'.
Proof.
  intros (Hnd & Hfree & Hsize & Hcount) Hs Hfrom Hsrc Hhc Hnext.
  unfold refs_consistent. rewrite Hsrc, Hhc, Hnext.
  split; [done|]. split.
  { intros n Hn. rewrite lookup_insert_ne; [by apply Hfree|].
    intros ->. rewrite Hfree in Hs by done. discriminate. }
  split; [by rewrite map_size_insert_Some|].
  intros hk. rewrite Hcount. f_equal. symmetry. by eapply source_count_update.
Qed.

Lemma refs_consistent_lists (ps : list SourceList) (tc : GPUTextureCache) :
  refs_consistent tc -> refs_consistent (set_page_sources ps tc).
Proof. done. Qed.

Lemma link_consistent
    (link : Z -> nat -> Z -> GPUTextureCache -> Result GPUTextureCache)
    (pn : Z) (src : nat) (ri : Z) (tc tc' : GPUTextureCache) :
  links_node link -> links_own_node link ->
  link pn src ri tc = Ok tc' -> refs_consistent tc -> refs_consistent tc'.
Proof.
  intros Hlinks Hown Hrun Hinv.
  destruct (Hlinks _ _ _ _ _ Hrun) as (l & l' & s & refs & _ & Hs & _ & Hsrc & Hhc).
  destruct (Hown _ _ _ _ _ Hrun) as (_ & _ & _ & _ & Hnext).
  by apply (refs_consistent_update tc tc' src s
              (mkSource (key s) (num_page_refs s) (texture s) (from_hash_cache s) refs)).
Qed.

Lemma add_page_ref_with_consistent
    (link : Z -> nat -> Z -> GPUTextureCache -> Result GPUTextureCache)
    (src : nat) (pn : Z) (st st' : list Z * GPUTextureCache) :
  links_node link -> links_own_node link ->
  add_page_ref_with link src pn st = Ok st' ->
  refs_consistent st.2 -> refs_consistent st'.2.
Proof.
  intros Hlinks Hown. destruct st as [refns tc]. unfold add_page_ref_with. simpl.
  intros Hrun Hinv.
  apply bind_Ok_inv in Hrun as (s & Hs & Hrun). inv_opt Hs.
  destruct (existsb _ _).
  { by injection Hrun as <-. }
  apply bind_Ok_inv in Hrun as (? & _ & Hrun).
  apply bind_Ok_inv in Hrun as (tc2 & Hlink & Hrun). injection Hrun as <-. simpl.
  eapply (link_consistent link); [done|done|exact Hlink|].
  by eapply (refs_consistent_update tc _ src s
               (mkSource (key s) (u32 (num_page_refs s + 1)) (texture s)
                  (from_hash_cache s) (page_refs s))).
Qed.

Section Counting.
Context `{Collaborators}.
Variable g_vram : VRAM.

Lemma LookupHashCache_consistent (k : SourceKey) (tc tc1 : GPUTextureCache)
    (dev dev1 : GPUDevice) (r : option HashCacheKey) :
  refs_consistent tc ->
  LookupHashCache g_vram k tc dev = Ok (r, tc1, dev1) ->
  refs_consistent tc1.
Proof.
  intros (Hnd & Hfree & Hsize & Hcount). unfold LookupHashCache. intros Hrun.
  apply bind_Ok_inv in Hrun as (th & Hth & Hrun).
  apply bind_Ok_inv in Hrun as (ph & Hph & Hrun).
  destruct (hc_find _ (m_hash_cache tc)) as [e|] eqn:Hfind.
  - by injection Hrun as <- <- <-.
  - destruct (FetchTexture dev) as [[t|] dev2]; [|by injection Hrun as <- <- <-].
    apply bind_Ok_inv in Hrun as (texels & _ & Hrun). injection Hrun as <- <- <-.
    split; [|split; [done|split; [done|]]].
    + simpl. apply NoDup_cons. split; [by apply hc_find_None|done].
    + intros hk. rewrite <- Hcount. unfold table_refs. simpl.
      case_decide as Hk; [|done]. subst hk. by rewrite Hfind.
Qed.

Lemma CreateSource_consistent (k : SourceKey) (tc tc1 : GPUTextureCache)
    (dev dev1 : GPUDevice) (r : option nat) :
  refs_consistent tc ->
  Z.of_nat (size (sources tc)) + 1 < 2 ^ 32 ->
  CreateSource g_vram k tc dev = Ok (r, tc1, dev1) ->
  refs_consistent tc1.
Proof.
  intros Hinv Hroom. unfold CreateSource. intros Hrun.
  apply bind_Ok_inv in Hrun as ([[hcentry tc0] dev0] & Hlook & Hrun).
  pose proof (LookupHashCache_cache _ _ _ _ _ _ _ Hlook) as Hsame.
  apply (LookupHashCache_consistent _ _ _ _ _ _ Hinv) in Hlook as Hinv0.
  destruct hcentry as [hk|]; [|by injection Hrun as <- <- <-].
  apply bind_Ok_inv in Hrun as (e & He & Hrun). inv_opt He.
  apply bind_Ok_inv in Hrun as (st4 & Hfoot & Hrun).
  apply bind_Ok_inv in Hrun as (st5 & Hclut & Hrun).
  injection Hrun as <- <- <-.
  set (e' := mkEntry (he_texture e) (u32 (ref_count e + 1)) 0) in *.
  set (hc2 := hc_store hk e' (m_hash_cache tc0)) in *.
  set (s0 := mkSource k 0 (tex_id (he_texture e)) (Some hk) _) in *.
  set (tc3 := set_next_source _ _) in *.
  change (next_source (set_hash_cache hc2 tc0)) with (next_source tc0) in *.
  assert (Hsources : sources tc0 = sources tc) by (rewrite Hsame; done).
  assert (Hinv3 : refs_consistent tc3).
  { destruct Hinv0 as (Hnd & Hfree & Hsize & Hcount).
    assert (Hnew : sources tc0 !! next_source tc0 = None) by (by apply Hfree).
    subst tc3. unfold refs_consistent. simpl.
    split; [subst hc2; by rewrite hc_store_keys|].
    split.
    { intros n Hn. rewrite lookup_insert_ne by lia. apply Hfree. lia. }
    split; [rewrite map_size_insert_None by done; rewrite Hsources; lia|].
    intros hk'. rewrite (source_count_insert_new _ _ _ _ Hnew).
    subst hc2. rewrite (table_refs_store hk' hk e' e _ He).
    specialize (Hcount hk') as Hhk'.
    subst s0. simpl.
    destruct (decide (hk = hk')) as [->|Hne].
    - rewrite decide_True by done. subst e'. simpl.
      unfold table_refs in Hhk'. rewrite He in Hhk'.
      pose proof (source_count_le hk' (sources tc0)) as Hle.
      rewrite Hsources in Hle.
      rewrite u32_small; [lia|]. rewrite Hhk', Hsources. lia.
    - rewrite decide_False by congruence. rewrite Hhk'. lia. }
  assert (Hinv4 : refs_consistent st4.2).
  { eapply (LoopPages_inv (add_page_ref (next_source tc0))
              (fun st => refs_consistent st.2)); [| |exact Hfoot]; [|exact Hinv3].
    intros pn a b _ Ha Hb.
    eapply (add_page_ref_with_consistent ListPrepend);
      [apply ListPrepend_links|apply ListPrepend_own|exact Hb|exact Ha]. }
  destruct (is_paletted (mode k)); [|by injection Hclut as <-].
  eapply (LoopPages_inv (add_page_ref_back (next_source tc0))
            (fun st => refs_consistent st.2)); [| |exact Hclut]; [|exact Hinv4].
  intros pn a b _ Ha Hb.
  eapply (add_page_ref_with_consistent ListAppend);
    [apply ListAppend_links|apply ListAppend_own|exact Hb|exact Ha].
Qed.

(** X21. When the reference counts are right and there is room for one more
    source, they are right after [LookupSource], whether it found a source,
    created one or failed to fetch a texture. *)
Theorem LookupSource_keeps_ref_counts (k : SourceKey) (tc tc1 : GPUTextureCache)
    (dev dev1 : GPUDevice) (r : option nat) :
  refs_consistent tc ->
  Z.of_nat (size (sources tc)) + 1 < 2 ^ 32 ->
  LookupSource g_vram k tc dev = Ok (r, tc1, dev1) ->
  refs_consistent tc1.
Proof.
  intros Hinv Hroom. unfold LookupSource. intros Hrun.
  apply bind_Ok_inv in Hrun as (l & Hl & Hrun).
  apply bind_Ok_inv in Hrun as (hit & Hwalk & Hrun).
  destruct hit as [n|]; [|by eapply CreateSource_consistent].
  apply bind_Ok_inv in Hrun as (l' & Hmove & Hrun). injection Hrun as <- <- <-.
  by apply refs_consistent_lists.
Qed.
End Counting.

Lemma destroy_source_consistent (src : nat) (tc tc' : GPUTextureCache) :
  refs_consistent tc -> destroy_source src tc = Ok tc' -> refs_consistent tc'.
Proof.
  intros (Hnd & Hfree & Hsize & Hcount). unfold destroy_source. intros Hrun.
  apply bind_Ok_inv in Hrun as (s & Hs & Hrun). inv_opt Hs.
  apply bind_Ok_inv in Hrun as (ps & Hps & Hrun).
  apply bind_Ok_inv in Hrun as (hc & Hhc & Hrun). injection Hrun as <-.
  unfold refs_consistent. simpl.
  assert (Hless : (size (delete src (sources tc)) <= size (sources tc))%nat).
  { rewrite map_size_delete_Some by eauto. lia. }
  destruct (from_hash_cache s) as [hk|] eqn:Hfrom.
  - apply bind_Ok_inv in Hhc as (e & He & Hhc). inv_opt He.
    apply bind_Ok_inv in Hhc as (? & Hpos & Hhc). apply DebugAssert_Ok_inv in Hpos.
    injection Hhc as <-.
    split; [by rewrite hc_store_keys|].
    split; [intros n Hn; rewrite lookup_delete_ne; [by apply Hfree|];
            intros ->; rewrite Hfree in Hs by done; discriminate|].
    split; [lia|].
    intros hk'. rewrite (table_refs_store hk' hk _ e _ He).
    specialize (Hcount hk') as Hhk'.
    rewrite (source_count_delete hk' _ _ _ Hs) in Hhk'. rewrite Hfrom in Hhk'.
    destruct (decide (hk = hk')) as [->|Hne].
    + rewrite decide_True in Hhk' by done. simpl.
      unfold table_refs in Hhk'. rewrite He in Hhk'.
      pose proof (source_count_le hk' (delete src (sources tc))) as Hle.
      rewrite u32_small; lia.
    + rewrite decide_False in Hhk' by congruence. rewrite Hhk'. lia.
  - injection Hhc as <-.
    split; [done|].
    split; [intros n Hn; rewrite lookup_delete_ne; [by apply Hfree|];
            intros ->; rewrite Hfree in Hs by done; discriminate|].
    split; [lia|].
    intros hk'. rewrite Hcount, (source_count_delete hk' _ _ _ Hs), Hfrom.
    rewrite decide_False by done. f_equal. lia.
Qed.

Lemma InvalidatePage_walk_consistent (nodes : SourceList) (tc tc' : GPUTextureCache) :
  refs_consistent tc -> InvalidatePage_walk nodes tc = Ok tc' -> refs_consistent tc'.
Proof.
  revert tc. induction nodes as [|n nodes IH]; intros tc Hinv Hrun; simpl in Hrun.
  - by injection Hrun as <-.
  - apply bind_Ok_inv in Hrun as (tc1 & Hone & Hrun).
    eapply IH; [|exact Hrun]. by eapply destroy_source_consistent.
Qed.

Lemma InvalidatePage_consistent (pn : Z) (tc tc' : GPUTextureCache) :
  refs_consistent tc -> InvalidatePage pn tc = Ok tc' -> refs_consistent tc'.
Proof.
  intros Hinv. unfold InvalidatePage. intros Hrun.
  apply bind_Ok_inv in Hrun as (? & _ & Hrun).
  apply bind_Ok_inv in Hrun as (ps & _ & Hrun).
  apply bind_Ok_inv in Hrun as (tc1 & Hwalk & Hrun). injection Hrun as <-.
  apply refs_consistent_lists. by eapply InvalidatePage_walk_consistent.
Qed.

Lemma Clear_loop_consistent (count : nat) (i : Z) (tc tc' : GPUTextureCache) :
  refs_consistent tc -> Clear_loop count i tc = Ok tc' -> refs_consistent tc'.
Proof.
  revert i tc. induction count as [|count IH]; intros i tc Hinv Hrun; simpl in Hrun.
  - by injection Hrun as <-.
  - apply bind_Ok_inv in Hrun as (tc1 & Hone & Hrun).
    eapply IH; [|exact Hrun]. by eapply InvalidatePage_consistent.
Qed.

(** X22. When the reference counts are right, they are right after each of
    [InvalidatePage], [InvalidatePages], [InvalidateFromWrite] and [Clear]
    that returns. *)
Theorem invalidation_keeps_ref_counts (tc : GPUTextureCache) :
  refs_consistent tc ->
  (forall pn tc', InvalidatePage pn tc = Ok tc' -> refs_consistent tc')
  /\ (forall x y w h tc', InvalidatePages x y w h tc = Ok tc' -> refs_consistent tc')
  /\ (forall rect tc', InvalidateFromWrite rect tc = Ok tc' -> refs_consistent tc')
  /\ (forall tc', Clear tc = Ok tc' -> refs_consistent tc').
Proof.
  intros Hinv.
  assert (Hpages : forall x y w h t t',
            refs_consistent t -> InvalidatePages x y w h t = Ok t' -> refs_consistent t').
  { intros x y w h t t' Ht Hrun. unfold InvalidatePages in Hrun.
    eapply (LoopPages_inv InvalidatePage refs_consistent); [|exact Ht|exact Hrun].
    intros pn a b _ Ha Hb. by eapply InvalidatePage_consistent. }
  split; [intros pn tc'; by apply InvalidatePage_consistent|].
  split; [intros x y w h tc'; by apply Hpages|].
  split.
  - intros rect tc'. unfold InvalidateFromWrite, InvalidatePages_rect.
    destruct (Intersects _ _); apply Hpages; done.
  - intros tc'. unfold Clear. by apply Clear_loop_consistent.
Qed.

(** X23. With the counts right, the entry that a live source points to is in
    the table with a [ref_count] above 0: the assertion of [InvalidatePage]
    on [ref_count] holds, and destroying the source can only fail in
    unlinking its nodes. *)
Theorem destroy_source_entry_in_use (src : nat) (s : Source) (ps : list SourceList)
    (tc : GPUTextureCache) :
  refs_consistent tc ->
  sources tc !! src = Some s ->
  unlink_page_refs src s (Z.to_nat (num_page_refs s)) 0 (m_page_sources tc) = Ok ps ->
  (forall hk, from_hash_cache s = Some hk ->
     exists e, hc_find hk (m_hash_cache tc) = Some e /\ 0 < ref_count e)
  /\ exists tc', destroy_source src tc = Ok tc'.
Proof.
  intros (Hnd & Hfree & Hsize & Hcount) Hs Hps.
  assert (Hentry : forall hk, from_hash_cache s = Some hk ->
            exists e, hc_find hk (m_hash_cache tc) = Some e /\ 0 < ref_count e).
  { intros hk Hfrom. specialize (Hcount hk).
    rewrite (source_count_delete hk _ _ _ Hs), decide_True in Hcount by done.
    unfold table_refs in Hcount.
    destruct (hc_find hk (m_hash_cache tc)) as [e|]; [|lia].
    exists e. split; [done|lia]. }
  split; [exact Hentry|].
  unfold destroy_source. rewrite Hs. simpl. rewrite Hps. simpl.
  destruct (from_hash_cache s) as [hk|]; [|eauto].
  destruct (Hentry hk eq_refl) as (e & -> & Hpos). simpl.
  destruct (0 <? ref_count e) eqn:Hlt; [|lia]. simpl. eauto.
Qed.

Lemma empty_cache_consistent : refs_consistent empty_cache.
Proof.
  split; [constructor|]. split; [intros n _; apply lookup_empty|].
  split; [simpl; rewrite map_size_empty; lia|].
  intros hk. unfold source_count. simpl. by rewrite map_filter_empty, map_size_empty.
Qed.

Lemma one_source_cache_consistent : refs_consistent one_source_cache.
Proof.
  split; [apply NoDup_singleton|].
  split; [intros n Hn; simpl in *; apply lookup_singleton_ne; lia|].
  split; [simpl; rewrite map_size_singleton; lia|].
  intros hk. unfold source_count, table_refs. simpl.
  rewrite map_filter_singleton. simpl.
  destruct (decide (table_key 0 = hk)) as [<-|Hne].
  - rewrite decide_True by done. by rewrite map_size_singleton.
  - rewrite decide_False by congruence. by rewrite map_size_empty.
Qed.

Lemma LookupSource_keeps_ref_counts_witness :
  refs_consistent empty_cache
  /\ Z.of_nat (size (sources empty_cache)) + 1 < 2 ^ 32
  /\ exists src tc1 dev1,
       first_lookup = Ok (Some src, tc1, dev1) /\ refs_consistent tc1.
Proof.
  assert (Hroom : Z.of_nat (size (sources empty_cache)) + 1 < 2 ^ 32).
  { simpl. rewrite map_size_empty. lia. }
  assert (Hfound : lookup_found first_lookup = true).
  { vm_cast_no_check (eq_refl true). }
  pose proof (lookup_found_Ok 0%nat first_lookup Hfound) as Hrun.
  split; [exact empty_cache_consistent|]. split; [exact Hroom|].
  eexists _, _, _. split; [exact Hrun|].
  exact (LookupSource_keeps_ref_counts (H := console) white_vram key_p1_4bit _ _ _ _ _
           empty_cache_consistent Hroom Hrun).
Defined.

Lemma invalidation_keeps_ref_counts_witness :
  refs_consistent one_source_cache
  /\ Clear one_source_cache = Ok no_source_cache
  /\ refs_consistent no_source_cache.
Proof.
  assert (Hrun : Clear one_source_cache = Ok no_source_cache) by (vm_compute; reflexivity).
  split; [exact one_source_cache_consistent|]. split; [exact Hrun|].
  exact (proj2 (proj2 (proj2 (invalidation_keeps_ref_counts one_source_cache
                                one_source_cache_consistent))) no_source_cache Hrun).
Defined.

Lemma destroy_source_entry_in_use_witness :
  refs_consistent one_source_cache
  /\ exists s ps,
       sources one_source_cache !! 0%nat = Some s
       /\ unlink_page_refs 0 s (Z.to_nat (num_page_refs s)) 0 (m_page_sources one_source_cache)
          = Ok ps
       /\ exists tc', destroy_source 0 one_source_cache = Ok tc'.
Proof.
  split; [exact one_source_cache_consistent|].
  eexists _, _.
  assert (Hs : sources one_source_cache !! 0%nat
               = Some (mkSource key_p1_4bit 1 1000 (Some (table_key 0))
                         (<[0%nat := Some 1]>
                            (replicate (Z.to_nat MAX_PAGE_REFS_PER_SOURCE) None))))
    by (vm_compute; reflexivity).
  assert (Hps : unlink_page_refs 0
                  (mkSource key_p1_4bit 1 1000 (Some (table_key 0))
                     (<[0%nat := Some 1]>
                        (replicate (Z.to_nat MAX_PAGE_REFS_PER_SOURCE) None)))
                  (Z.to_nat 1) 0 (m_page_sources one_source_cache)
                = Ok (replicate (Z.to_nat NUM_PAGES) [])) by (vm_compute; reflexivity).
  split; [exact Hs|]. split; [exact Hps|].
  exact (proj2 (destroy_source_entry_in_use 0 _ _ one_source_cache
                  one_source_cache_consistent Hs Hps)).
Defined.

(** ** Invalidation returns *)

Lemma list_without_other (n m : SourceListNode) (l : SourceList) :
  m <> n -> m ∈ l -> m ∈ list_without n l.
Proof.
  intros Hne. induction l as [|h l IH]; simpl; [done|].
  intros Hin. case_decide as Hh.
  - subst h. apply elem_of_cons in Hin as [->|Hin]; [done|exact Hin].
  - apply elem_of_cons in Hin as [->|Hin]; [left|right; by apply IH].
Qed.

Lemma list_without_gone (n : SourceListNode) (l : SourceList) :
  NoDup l -> n ∉ list_without n l.
Proof.
  induction l as [|h l IH]; simpl; intros Hnd; [apply not_elem_of_nil|].
  apply NoDup_cons in Hnd as [Hh Hnd]. case_decide as Heq.
  - by subst h.
  - apply not_elem_of_cons. split; [congruence|by apply IH].
Qed.

Lemma NoDup_owners (l : SourceList) : NoDup l.*1 -> NoDup l.
Proof. apply NoDup_fmap_1. Qed.

(** Unlinking the nodes [i, i + count) of a source whose used nodes point
    to lists that exist: it returns, the lists only shrink, the nodes of
    other sources stay, and the unlinked nodes are gone. *)
Lemma unlink_page_refs_returns (src : nat) (s : Source) (count : nat) (i : Z)
    (ps : list SourceList) :
  0 <= i ->
  (forall ri, i <= ri < i + Z.of_nat count ->
     exists pn, page_refs s !! Z.to_nat ri = Some (Some pn)
                /\ 0 <= pn /\ (Z.to_nat pn < length ps)%nat) ->
  (forall p l, ps !! p = Some l -> NoDup l.*1) ->
  exists ps',
    unlink_page_refs src s count i ps = Ok ps'
    /\ lists_shrunk ps ps'
    /\ (forall p l l' n, ps !! p = Some l -> ps' !! p = Some l' ->
          n ∈ l -> n.1 <> src -> n ∈ l')
    /\ (forall p l' ri, ps' !! p = Some l' -> i <= ri < i + Z.of_nat count ->
          page_refs s !! Z.to_nat ri = Some (Some (Z.of_nat p)) -> (src, ri) ∉ l').
Proof.
  revert i ps. induction count as [|count IH]; intros i ps Hi Hrefs Hnd.
  - exists ps. split; [done|]. split; [apply lists_shrunk_refl|].
    split; [intros p l l' n Hl Hl' Hn _; rewrite Hl in Hl'; by injection Hl' as <-|].
    intros p l' ri _ Hri. lia.
  - destruct (Hrefs i) as (pn & Hpn & Hpn0 & Hlt); [lia|].
    destruct (lookup_lt_is_Some_2 _ _ Hlt) as (l0 & Hl0).
    set (ps1 := <[Z.to_nat pn := list_without (src, i) l0]> ps).
    assert (Hshrunk1 : lists_shrunk ps ps1)
      by (apply lists_shrunk_insert with l0; [done|apply list_without_sublist]).
    destruct (IH (i + 1) ps1) as (ps' & Hrun & Hshrunk & Hother & Hgone).
    { lia. }
    { intros ri Hri. destruct (Hrefs ri) as (pn' & ? & ? & ?); [lia|].
      exists pn'. split; [done|]. split; [done|]. subst ps1. by rewrite length_insert. }
    { intros p l Hl. destruct Hshrunk1 as [_ Hsub].
      destruct (Hsub p l Hl) as (l1 & Hl1 & Hsl).
      eapply sublist_NoDup; [by eapply Hnd|]. by apply fmap_sublist. }
    exists ps'. simpl. rewrite Hpn. simpl. unfold ListUnlink. rewrite Hl0. simpl.
    fold ps1. split; [exact Hrun|].
    split; [by eapply lists_shrunk_trans|].
    split.
    + intros p l l' n Hl Hl' Hn Hne.
      assert (Hlen : (p < length ps1)%nat).
      { subst ps1. rewrite length_insert. by eapply lookup_lt_Some. }
      destruct (lookup_lt_is_Some_2 _ _ Hlen) as (l1 & Hl1).
      apply (Hother p l1 l' n Hl1 Hl'); [|done].
      subst ps1. destruct (decide (p = Z.to_nat pn)) as [->|Hp].
      * rewrite list_lookup_insert_eq in Hl1 by done. injection Hl1 as <-.
        assert (l = l0) by congruence. subst l.
        apply list_without_other; [|done]. intros ->. done.
      * rewrite list_lookup_insert_ne in Hl1 by done. congruence.
    + intros p l' ri Hl' Hri Hslot.
      destruct (decide (ri = i)) as [->|Hne]; [|apply (Hgone p l' ri Hl'); [lia|done]].
      assert (Hp : pn = Z.of_nat p) by congruence. subst pn. subst ps1.
      rewrite Nat2Z.id in *.
      destruct Hshrunk as [_ Hsub]. destruct (Hsub p l' Hl') as (l1 & Hl1 & Hsl).
      rewrite list_lookup_insert_eq in Hl1 by done. injection Hl1 as <-.
      intros Hin. eapply list_without_gone; [|by eapply elem_of_sublist].
      apply NoDup_owners. by eapply Hnd.
Qed.

Lemma destroy_source_returns (src : nat) (s : Source) (tc : GPUTextureCache) :
  cache_wf tc -> refs_consistent tc ->
  sources tc !! src = Some s ->
  exists tc',
    destroy_source src tc = Ok tc'
    /\ cache_wf tc' /\ refs_consistent tc'
    /\ sources tc' = delete src (sources tc)
    /\ lists_shrunk (m_page_sources tc) (m_page_sources tc').
Proof.
  intros ((Hlen & Hnd & Hnodes & Hrefs) & Hlinked) Hcount Hs.
  destruct (unlink_page_refs_returns src s (Z.to_nat (num_page_refs s)) 0 (m_page_sources tc))
    as (ps & Hps & Hshrunk & Hother & Hgone); [lia| |exact Hnd|].
  { intros ri Hri. destruct (Hrefs src s ri Hs) as (p & l & Hp & Hl & _); [lia|].
    exists (Z.of_nat p). split; [done|]. split; [lia|].
    rewrite Nat2Z.id. by eapply lookup_lt_Some. }
  assert (Hentry : forall hk, from_hash_cache s = Some hk ->
            exists e, hc_find hk (m_hash_cache tc) = Some e /\ 0 < ref_count e).
  { destruct Hcount as (_ & _ & _ & Hcount).
    intros hk Hfrom. specialize (Hcount hk).
    rewrite (source_count_delete hk _ _ _ Hs), decide_True in Hcount by done.
    unfold table_refs in Hcount.
    destruct (hc_find hk (m_hash_cache tc)) as [e|]; [|lia].
    exists e. split; [done|lia]. }
  assert (Hrun : exists tc', destroy_source src tc = Ok tc').
  { unfold destroy_source. rewrite Hs. simpl. rewrite Hps. simpl.
    destruct (from_hash_cache s) as [hk|]; [|eauto].
    destruct (Hentry hk eq_refl) as (e & -> & Hpos). simpl.
    destruct (0 <? ref_count e) eqn:Hlt; [|lia]. simpl. eauto. }
  destruct Hrun as (tc' & Hrun). exists tc'. split; [exact Hrun|].
  assert (Hps' : m_page_sources tc' = ps /\ sources tc' = delete src (sources tc)).
  { unfold destroy_source in Hrun. rewrite Hs in Hrun. simpl in Hrun.
    rewrite Hps in Hrun. simpl in Hrun.
    apply bind_Ok_inv in Hrun as (hc & _ & Hrun). by injection Hrun as <-. }
  destruct Hps' as [Hlists Hsrcs].
  split; [|split; [by eapply destroy_source_consistent|split; [done|by rewrite Hlists]]].
  unfold cache_wf, links_sound. rewrite Hlists, Hsrcs.
  pose proof Hshrunk as [Hlen' Hsub].
  split; [split; [congruence|split; [|split]]|].
  - intros p l' Hl'. destruct (Hsub p l' Hl') as (l & Hl & Hsl).
    eapply sublist_NoDup; [by eapply Hnd|]. by apply fmap_sublist.
  - intros p l' src' ri Hl' Hin.
    destruct (Hsub p l' Hl') as (l & Hl & Hsl).
    destruct (Hnodes p l src' ri Hl) as (s' & Hs' & Hri & Hslot);
      [by eapply elem_of_sublist|].
    destruct (decide (src' = src)) as [->|Hne].
    + assert (s' = s) by congruence. subst s'.
      exfalso. apply (Hgone p l' ri Hl'); [lia|done|done].
    + exists s'. by rewrite lookup_delete_ne.
  - intros src' s' ri Hs' Hri.
    apply lookup_delete_Some in Hs' as [Hne Hs'].
    destruct (Hrefs src' s' ri Hs' Hri) as (p & l & Hp & Hl & Hin).
    assert (Hlt : (p < length ps)%nat) by (rewrite Hlen'; by eapply lookup_lt_Some).
    destruct (lookup_lt_is_Some_2 _ _ Hlt) as (l' & Hl').
    exists p, l'. split; [done|]. split; [done|].
    by apply (Hother p l l' (src', ri) Hl Hl').
  - intros src' s' Hs'. apply lookup_delete_Some in Hs' as [_ Hs']. by eapply Hlinked.
Qed.

Lemma InvalidatePage_walk_returns (nodes : SourceList) (tc : GPUTextureCache) :
  cache_wf tc -> refs_consistent tc ->
  NoDup nodes.*1 ->
  (forall n, n ∈ nodes -> is_Some (sources tc !! n.1)) ->
  exists tc',
    InvalidatePage_walk nodes tc = Ok tc'
    /\ cache_wf tc' /\ refs_consistent tc'
    /\ (forall n, n ∈ nodes -> sources tc' !! n.1 = None)
    /\ sources tc' ⊆ sources tc
    /\ lists_shrunk (m_page_sources tc) (m_page_sources tc').
Proof.
  revert tc. induction nodes as [|n nodes IH]; intros tc Hwf Hcount Hnd Hlive.
  - exists tc. split; [done|]. split; [done|]. split; [done|].
    split; [|split; [done|apply lists_shrunk_refl]].
    intros n Hn. by apply elem_of_nil in Hn.
  - csimpl in Hnd. apply NoDup_cons in Hnd as [Hfresh Hnd].
    destruct (Hlive n) as (s & Hs); [left|].
    destruct (destroy_source_returns n.1 s tc Hwf Hcount Hs)
      as (tc1 & Hrun1 & Hwf1 & Hcount1 & Hsrc1 & Hshrunk1).
    destruct (IH tc1 Hwf1 Hcount1 Hnd)
      as (tc' & Hrun & Hwf' & Hcount' & Hgone & Hsub & Hshrunk).
    { intros m Hm. rewrite Hsrc1. rewrite lookup_delete_ne.
      - apply Hlive. by right.
      - intros Heq. apply Hfresh. rewrite Heq. by apply list_elem_of_fmap_2. }
    exists tc'. simpl. rewrite Hrun1. simpl. split; [exact Hrun|].
    split; [done|]. split; [done|]. split; [|split].
    + intros m [->|Hm]%elem_of_cons; [|by apply Hgone].
      eapply lookup_weaken_None; [|exact Hsub]. rewrite Hsrc1. apply lookup_delete_eq.
    + etrans; [exact Hsub|]. rewrite Hsrc1. apply delete_subseteq.
    + by eapply lists_shrunk_trans.
Qed.

Lemma InvalidatePage_returns_wf (pn : Z) (tc : GPUTextureCache) :
  cache_wf tc -> refs_consistent tc ->
  0 <= pn < NUM_PAGES ->
  exists tc',
    InvalidatePage pn tc = Ok tc'
    /\ cache_wf tc' /\ refs_consistent tc'
    /\ m_page_sources tc' !! Z.to_nat pn = Some []
    /\ m_drawn_rect tc' = m_drawn_rect tc.
Proof.
  intros Hwf Hcount Hpn.
  pose proof Hwf as ((Hlen & Hnd & Hnodes & Hrefs) & Hlinked).
  assert (Hlt : (Z.to_nat pn < length (m_page_sources tc))%nat) by (rewrite Hlen; lia).
  destruct (lookup_lt_is_Some_2 _ _ Hlt) as (l & Hl).
  destruct (InvalidatePage_walk_returns l tc Hwf Hcount)
    as (tc1 & Hrun & Hwf1 & Hcount1 & Hgone & Hsub & Hshrunk); [by eapply Hnd| |].
  { intros [src ri] Hn. destruct (Hnodes _ _ _ _ Hl Hn) as (s & Hs & _). by exists s. }
  assert (Hrun' : InvalidatePage pn tc
                  = Ok (set_page_sources (<[Z.to_nat pn := []]> (m_page_sources tc1)) tc1)).
  { unfold InvalidatePage. destruct (pn <? NUM_PAGES) eqn:Hlt'; [|lia]. simpl.
    unfold SourceList, SourceListNode in *. rewrite Hl. simpl. by rewrite Hrun. }
  eexists. split; [exact Hrun'|].
  destruct Hwf1 as ((Hlen1 & Hnd1 & Hnodes1 & Hrefs1) & Hlinked1).
  assert (Hlt1 : (Z.to_nat pn < length (m_page_sources tc1))%nat) by (rewrite Hlen1; lia).
  split; [|split; [done|split]].
  - unfold cache_wf, links_sound. simpl.
    split; [split; [by rewrite length_insert|split; [|split]]|done].
    + intros p l' Hl'. destruct (decide (p = Z.to_nat pn)) as [->|Hp].
      * rewrite list_lookup_insert_eq in Hl' by done. injection Hl' as <-. constructor.
      * rewrite list_lookup_insert_ne in Hl' by done. by eapply Hnd1.
    + intros p l' src ri Hl' Hin. destruct (decide (p = Z.to_nat pn)) as [->|Hp].
      * rewrite list_lookup_insert_eq in Hl' by done. injection Hl' as <-.
        by apply elem_of_nil in Hin.
      * rewrite list_lookup_insert_ne in Hl' by done. by eapply Hnodes1.
    + intros src s ri Hs Hri.
      destruct (Hrefs1 src s ri Hs Hri) as (p & l' & Hp & Hl' & Hin).
      exists p, l'. split; [done|]. split; [|done].
      rewrite list_lookup_insert_ne; [done|]. intros <-.
      destruct Hshrunk as [_ Hsh]. destruct (Hsh _ _ Hl') as (l0 & Hl0 & Hsl).
      assert (l0 = l) by (unfold SourceList, SourceListNode in *; congruence). subst l0.
      assert (Hdead : sources tc1 !! (src, ri).1 = None)
        by (apply Hgone; by eapply elem_of_sublist).
      simpl in Hdead. congruence.
  - simpl. by apply list_lookup_insert_eq.
  - simpl. by eapply InvalidatePage_walk_drawn_rect.
Qed.

Section LoopReturns.
Context {St : Type}.
Variable f : Z -> St -> Result St.
Variable P : St -> Prop.
Hypothesis f_returns :
  forall pn a, 0 <= pn < NUM_PAGES -> P a -> exists b, f pn a = Ok b /\ P b.

Lemma LoopPages_x_returns (columns : nat) (pn ypn : Z) (s : St) :
  0 <= pn < NUM_PAGES -> P s ->
  exists s', LoopPages_x f columns pn ypn s = Ok s' /\ P s'.
Proof.
  intros Hpn. revert ypn s. induction columns as [|n IH]; intros ypn s Hs; simpl.
  - eauto.
  - destruct (f_returns pn s Hpn Hs) as (s1 & -> & Hs1). simpl. by apply IH.
Qed.

Lemma LoopPages_y_returns (rows columns : nat) (pn : Z) (s : St) :
  0 <= pn -> pn + VRAM_PAGES_WIDE * (Z.of_nat rows - 1) < NUM_PAGES -> P s ->
  exists s', LoopPages_y f rows columns pn s = Ok s' /\ P s'.
Proof.
  revert pn s. induction rows as [|n IH]; intros pn s Hpn Hlast Hs; simpl.
  - eauto.
  - assert (Hw : VRAM_PAGES_WIDE = 16) by reflexivity.
    assert (Hn : NUM_PAGES = 32) by reflexivity.
    destruct (LoopPages_x_returns columns pn pn s) as (s1 & -> & Hs1); [lia|done|].
    simpl. rewrite u32_small by lia. apply IH; [lia|lia|done].
Qed.

Lemma LoopPages_returns (x y width height : Z) (s : St) :
  0 <= x -> 0 <= y -> 0 < width -> 0 < height ->
  x + width <= VRAM_WIDTH -> y + height <= VRAM_HEIGHT ->
  P s ->
  exists s', LoopPages f x y width height s = Ok s' /\ P s'.
Proof.
  intros Hx Hy Hw Hh Hxw Hyh Hs. unfold LoopPages.
  assert (Ha1 : (0 <? width) && (0 <? height) = true) by lia.
  assert (HW : VRAM_WIDTH = 1024) by reflexivity.
  assert (HH : VRAM_HEIGHT = 512) by reflexivity.
  assert (Ha2 : (u32 (x + width) <=? VRAM_WIDTH) && (u32 (y + height) <=? VRAM_HEIGHT) = true).
  { rewrite !u32_small by lia. lia. }
  rewrite Ha1, Ha2. simpl.
  rewrite !(u32_small (width - 1)), !(u32_small (height - 1)) by lia.
  rewrite !u32_small by lia.
  apply LoopPages_y_returns; [| |done].
  - unfold PageIndex. rewrite u32_small; unfold_consts; Z.div_mod_to_equations; lia.
  - unfold PageIndex, loop_count.
    rewrite u32_small; unfold_consts; Z.div_mod_to_equations; lia.
Qed.
End LoopReturns.

(** X24. On a cache with sound links and right counts, [InvalidatePage] of a
    page below [NUM_PAGES] returns: no assertion fails and no dangling
    pointer is followed. It leaves the links sound, the counts right, and
    the list of the page empty. *)
Theorem InvalidatePage_returns (pn : Z) (tc : GPUTextureCache) :
  cache_wf tc -> refs_consistent tc ->
  0 <= pn < NUM_PAGES ->
  exists tc',
    InvalidatePage pn tc = Ok tc'
    /\ cache_wf tc' /\ refs_consistent tc'
    /\ m_page_sources tc' !! Z.to_nat pn = Some [].
Proof.
  intros Hwf Hcount Hpn.
  destruct (InvalidatePage_returns_wf pn tc Hwf Hcount Hpn) as (tc' & ? & ? & ? & ? & _).
  eauto.
Qed.

Lemma InvalidatePages_returns (x y width height : Z) (tc : GPUTextureCache) :
  cache_wf tc -> refs_consistent tc ->
  0 <= x -> 0 <= y -> 0 < width -> 0 < height ->
  x + width <= VRAM_WIDTH -> y + height <= VRAM_HEIGHT ->
  exists tc',
    InvalidatePages x y width height tc = Ok tc'
    /\ cache_wf tc' /\ refs_consistent tc' /\ m_drawn_rect tc' = m_drawn_rect tc.
Proof.
  intros Hwf Hcount Hx Hy Hw Hh Hxw Hyh. unfold InvalidatePages.
  destruct (LoopPages_returns InvalidatePage
              (fun t => cache_wf t /\ refs_consistent t /\ m_drawn_rect t = m_drawn_rect tc)
              ) with (x := x) (y := y) (width := width) (height := height) (s := tc)
    as (tc' & Hrun & Hinv); try done.
  - intros pn a Hpn (Ha1 & Ha2 & Ha3).
    destruct (InvalidatePage_returns_wf pn a Ha1 Ha2 Hpn) as (b & ? & ? & ? & _ & Hd).
    exists b. split; [done|]. split; [done|]. split; [done|congruence].
  - eauto.
Qed.

(** X25. On a cache with sound links and right counts whose drawn rectangle
    does not leave the VRAM, [InvalidateFromWrite] of a rectangle of the
    VRAM that is not empty returns, and leaves the links sound, the counts
    right and the drawn rectangle inside the VRAM. *)
Theorem InvalidateFromWrite_returns (rect : Rectangle) (tc : GPUTextureCache) :
  cache_wf tc -> refs_consistent tc ->
  rect_in_vram (m_drawn_rect tc) ->
  rect_in_vram rect -> left rect < right rect -> top rect < bottom rect ->
  exists tc',
    InvalidateFromWrite rect tc = Ok tc'
    /\ cache_wf tc' /\ refs_consistent tc' /\ rect_in_vram (m_drawn_rect tc').
Proof.
  intros Hwf Hcount (Hd1 & Hd2 & Hd3 & Hd4) (Hr1 & Hr2 & Hr3 & Hr4) Hw Hh.
  assert (HW : VRAM_WIDTH = 1024) by reflexivity.
  assert (HH : VRAM_HEIGHT = 512) by reflexivity.
  unfold InvalidateFromWrite, InvalidatePages_rect, GetWidth, GetHeight.
  destruct (Intersects (m_drawn_rect tc) rect).
  - set (tc1 := set_drawn_rect _ tc).
    destruct (InvalidatePages_returns
                (left (m_drawn_rect tc1)) (top (m_drawn_rect tc1))
                (u32 (right (m_drawn_rect tc1) - left (m_drawn_rect tc1)))
                (u32 (bottom (m_drawn_rect tc1) - top (m_drawn_rect tc1))) tc1)
      as (tc' & Hrun & Hwf' & Hcount' & Hrect); try done;
      try (subst tc1; simpl; rewrite ?u32_small; lia).
    exists tc'. split; [done|]. split; [done|]. split; [done|].
    rewrite Hrect. subst tc1. unfold rect_in_vram. simpl. lia.
  - destruct (InvalidatePages_returns (left rect) (top rect)
                (u32 (right rect - left rect)) (u32 (bottom rect - top rect)) tc)
      as (tc' & Hrun & Hwf' & Hcount' & Hrect); try done;
      try (rewrite ?u32_small; lia).
    exists tc'. split; [done|]. split; [done|]. split; [done|].
    rewrite Hrect. unfold rect_in_vram. lia.
Qed.

Lemma Clear_loop_returns (count : nat) (i : Z) (tc : GPUTextureCache) :
  cache_wf tc -> refs_consistent tc ->
  0 <= i -> i + Z.of_nat count <= NUM_PAGES ->
  exists tc',
    Clear_loop count i tc = Ok tc' /\ cache_wf tc' /\ refs_consistent tc'.
Proof.
  revert i tc. induction count as [|count IH]; intros i tc Hwf Hcount Hi Hend; simpl.
  - eauto.
  - destruct (InvalidatePage_returns_wf i tc Hwf Hcount) as (tc1 & -> & Hwf1 & Hcount1 & _);
      [lia|].
    simpl. apply IH; [done|done|lia|lia].
Qed.

(** X26. On a cache with sound links and right counts, [Clear] returns;
    after it every page list is empty, no source is left, and every entry
    of the table has [ref_count] 0. *)
Theorem Clear_returns (tc : GPUTextureCache) :
  cache_wf tc -> refs_consistent tc ->
  exists tc',
    Clear tc = Ok tc' /\ cache_wf tc' /\ refs_consistent tc'
    /\ (forall pn, 0 <= pn < NUM_PAGES -> m_page_sources tc' !! Z.to_nat pn = Some [])
    /\ sources tc' = ∅
    /\ (forall k e, (k, e) ∈ m_hash_cache tc' -> ref_count e = 0).
Proof.
  intros Hwf Hcount. unfold Clear.
  assert (Hn : NUM_PAGES = 32) by reflexivity.
  destruct (Clear_loop_returns (Z.to_nat NUM_PAGES) 0 tc Hwf Hcount)
    as (tc' & Hrun & Hwf' & Hcount'); [lia|lia|].
  exists tc'. split; [done|]. split; [done|]. split; [done|].
  destruct (Clear_loop_empties (Z.to_nat NUM_PAGES) 0 tc tc' ltac:(lia) Hrun) as [_ Hempty].
  assert (Hlists : forall pn, 0 <= pn < NUM_PAGES ->
            m_page_sources tc' !! Z.to_nat pn = Some []).
  { intros pn Hpn. apply Hempty. rewrite Z2Nat.id by lia. lia. }
  assert (Hnone : sources tc' = ∅).
  { apply map_empty. intros src. destruct (sources tc' !! src) as [s|] eqn:Hs; [|done].
    exfalso. destruct Hwf' as ((Hlen & _ & _ & Hrefs) & Hlinked).
    specialize (Hlinked src s Hs).
    destruct (Hrefs src s 0 Hs) as (p & l & _ & Hl & Hin); [lia|].
    assert (Hp : (p < Z.to_nat NUM_PAGES)%nat) by (rewrite <- Hlen; by eapply lookup_lt_Some).
    specialize (Hlists (Z.of_nat p)). rewrite Nat2Z.id in Hlists.
    specialize (Hlists ltac:(lia)). unfold SourceList, SourceListNode in *.
    rewrite Hlists in Hl. injection Hl as <-. by apply elem_of_nil in Hin. }
  split; [done|]. split; [done|].
  intros k e Hin. destruct Hcount' as (Hnd & _ & _ & Hrefs).
  specialize (Hrefs k). unfold table_refs in Hrefs.
  rewrite (hc_find_NoDup _ _ _ Hnd Hin), Hnone in Hrefs.
  unfold source_count in Hrefs. rewrite map_filter_empty, map_size_empty in Hrefs. lia.
Qed.

(** ** Creation keeps the links sound *)

Lemma set_node_list_result (src : nat) (ri pn : Z) (tc tc1 : GPUTextureCache) :
  set_node_list src ri pn tc = Ok tc1 ->
  exists s,
    sources tc !! src = Some s
    /\ (Z.to_nat ri < length (page_refs s))%nat
    /\ m_page_sources tc1 = m_page_sources tc
    /\ sources tc1
       = <[src := mkSource (key s) (num_page_refs s) (texture s) (from_hash_cache s)
                    (<[Z.to_nat ri := Some pn]> (page_refs s))]> (sources tc).
Proof.
  unfold set_node_list. intros Hset.
  apply bind_Ok_inv in Hset as (s & Hs & Hset). inv_opt Hs.
  apply bind_Ok_inv in Hset as (old & Hold & Hset). inv_opt Hold. injection Hset as <-.
  exists s. split; [done|]. split; [by eapply lookup_lt_Some|]. done.
Qed.

Lemma ListPrepend_fully : links_fully ListPrepend.
Proof.
  intros pn src ri tc tc' Hrun. unfold ListPrepend in Hrun.
  apply bind_Ok_inv in Hrun as (l & Hl & Hrun). inv_opt Hl.
  apply bind_Ok_inv in Hrun as (tc1 & Hset & Hrun). injection Hrun as <-.
  destruct (set_node_list_result _ _ _ _ _ Hset) as (s & Hs & Hlt & Hps & Hsrc).
  exists l, ((src, ri) :: l), s. simpl. by rewrite Hps.
Qed.

Lemma ListAppend_fully : links_fully ListAppend.
Proof.
  intros pn src ri tc tc' Hrun. unfold ListAppend in Hrun.
  apply bind_Ok_inv in Hrun as (l & Hl & Hrun). inv_opt Hl.
  apply bind_Ok_inv in Hrun as (tc1 & Hset & Hrun). injection Hrun as <-.
  destruct (set_node_list_result _ _ _ _ _ Hset) as (s & Hs & Hlt & Hps & Hsrc).
  exists l, (l ++ [(src, ri)]), s. simpl. rewrite Hps.
  split; [done|]. split; [done|]. split; [done|].
  split; [|done]. by rewrite Permutation_app_comm.
Qed.

Lemma existsb_page (pn : Z) (refns : list Z) (n r : nat) :
  existsb (Z.eqb pn) (take n refns) = false ->
  (r < n)%nat -> refns !! r = Some pn -> False.
Proof.
  intros Hnone Hr Hpn.
  assert (Hsome : existsb (Z.eqb pn) (take n refns) = true).
  { apply existsb_exists. exists pn. split; [|apply Z.eqb_refl].
    apply list_elem_of_In, elem_of_take. eauto. }
  congruence.
Qed.

Lemma add_page_ref_with_creating
    (link : Z -> nat -> Z -> GPUTextureCache -> Result GPUTextureCache)
    (src : nat) (pn : Z) (st st' : list Z * GPUTextureCache) :
  links_fully link -> 0 <= pn ->
  add_page_ref_with link src pn st = Ok st' ->
  creating src st -> creating src st'.
Proof.
  intros Hlink Hpn. destruct st as [refns tc]. unfold add_page_ref_with. simpl.
  intros Hrun ((Hlen & Hnd & Hnodes & Hrefs) & Hothers & Hrefns & s & Hs & Hnum & Hmirror).
  simpl in *. rewrite Hs in Hrun. simpl in Hrun.
  destruct (existsb _ _) eqn:Hdup.
  { injection Hrun as <-. split; [done|]. split; [done|]. split; [done|]. eauto. }
  apply bind_Ok_inv in Hrun as (old & Hold & Hrun). inv_opt Hold.
  apply lookup_lt_Some in Hold as Hslot. rewrite Hrefns in Hslot.
  assert (Hmax : MAX_PAGE_REFS_PER_SOURCE = 6) by reflexivity.
  apply bind_Ok_inv in Hrun as (tc2 & Hrun2 & Hrun). injection Hrun as <-. simpl.
  destruct (Hlink _ _ _ _ _ Hrun2) as (l & l' & s1 & Hl & Hs1 & Hslot1 & Hperm & Hps & Hsrc).
  simpl in Hl, Hs1, Hps, Hsrc. rewrite lookup_insert_eq in Hs1. injection Hs1 as <-.
  unfold SourceList, SourceListNode in *.
  simpl in Hslot1, Hsrc. rewrite insert_insert_eq in Hsrc.
  rewrite (u32_small (num_page_refs s + 1)) in Hsrc by lia.
  set (ri := num_page_refs s) in *.
  set (s2 := mkSource (key s) (ri + 1) (texture s) (from_hash_cache s)
               (<[Z.to_nat ri := Some pn]> (page_refs s))) in *.
  assert (Hpage : (Z.to_nat pn < length (m_page_sources tc))%nat) by (by eapply lookup_lt_Some).
  assert (Hfresh : src ∉ l.*1).
  { intros Hin. apply list_elem_of_fmap_1 in Hin as ([src' r0] & Heq & Hin).
    simpl in Heq. subst src'.
    destruct (Hnodes _ _ _ _ Hl Hin) as (s' & Hs' & Hr0 & Hslot0).
    assert (s' = s) by (unfold SourceList, SourceListNode in *; congruence). subst s'.
    destruct (Hmirror r0 Hr0) as (pn' & Hpn' & Hslot').
    rewrite Z2Nat.id in Hslot0 by done.
    assert (pn' = pn) by (unfold SourceList, SourceListNode in *; congruence). subst pn'.
    eapply (existsb_page pn refns (Z.to_nat ri) (Z.to_nat r0)); [done|lia|done]. }
  assert (Hs2 : sources tc2 !! src = Some s2) by (rewrite Hsrc; apply lookup_insert_eq).
  assert (Hl' : m_page_sources tc2 !! Z.to_nat pn = Some l')
    by (rewrite Hps; by apply list_lookup_insert_eq).
  assert (Hold_slot : forall r, 0 <= r < ri ->
            page_refs s2 !! Z.to_nat r = page_refs s !! Z.to_nat r).
  { intros r Hr. subst s2. simpl. apply list_lookup_insert_ne. lia. }
  assert (Hkeep : forall p l0 n, m_page_sources tc !! p = Some l0 -> n ∈ l0 ->
            exists l1, m_page_sources tc2 !! p = Some l1 /\ n ∈ l1).
  { intros p l0 n Hl0 Hn. rewrite Hps. destruct (decide (p = Z.to_nat pn)) as [->|Hp].
    - exists l'. split; [by apply list_lookup_insert_eq|].
      assert (l0 = l) by (unfold SourceList, SourceListNode in *; congruence). subst l0. rewrite Hperm. by right.
    - exists l0. by rewrite list_lookup_insert_ne. }
  unfold creating, links_sound. simpl.
  split; [split; [|split; [|split]]|split; [|split]].
  - rewrite Hps. by rewrite length_insert.
  - intros p lp Hlp. rewrite Hps in Hlp.
    destruct (decide (p = Z.to_nat pn)) as [->|Hp].
    + rewrite list_lookup_insert_eq in Hlp by done. injection Hlp as <-.
      rewrite Hperm. csimpl. apply NoDup_cons. split; [done|by eapply Hnd].
    + rewrite list_lookup_insert_ne in Hlp by done. by eapply Hnd.
  - intros p lp src' r' Hlp Hin.
    assert (Hcase : (p = Z.to_nat pn /\ (src', r') = (src, ri))
                    \/ exists l0, m_page_sources tc !! p = Some l0 /\ (src', r') ∈ l0).
    { rewrite Hps in Hlp. destruct (decide (p = Z.to_nat pn)) as [->|Hp].
      - rewrite list_lookup_insert_eq in Hlp by done. injection Hlp as <-.
        rewrite Hperm in Hin. apply elem_of_cons in Hin as [Heq|Hin]; [by left|].
        right. by exists l.
      - rewrite list_lookup_insert_ne in Hlp by done. right. by exists lp. }
    destruct Hcase as [[-> [= -> ->]]|(l0 & Hl0 & Hin0)].
    + exists s2. split; [done|]. split; [simpl; lia|].
      subst s2. simpl. rewrite list_lookup_insert_eq by done.
      by rewrite Z2Nat.id.
    + destruct (Hnodes _ _ _ _ Hl0 Hin0) as (s0 & Hs0 & Hr' & Hslot0).
      destruct (decide (src' = src)) as [->|Hne].
      * assert (s0 = s) by (unfold SourceList, SourceListNode in *; congruence). subst s0.
        exists s2. split; [done|]. split; [simpl; lia|].
        by rewrite Hold_slot.
      * exists s0. rewrite Hsrc. by rewrite lookup_insert_ne.
  - intros src' s' r' Hs' Hr'.
    destruct (decide (src' = src)) as [->|Hne].
    + assert (s' = s2) by (unfold SourceList, SourceListNode in *; congruence). subst s'. simpl in Hr'.
      destruct (decide (r' = ri)) as [->|Hneq].
      * exists (Z.to_nat pn), l'. split; [|split; [done|]].
        -- subst s2. simpl. rewrite list_lookup_insert_eq by done. by rewrite Z2Nat.id.
        -- rewrite Hperm. left.
      * destruct (Hrefs src s r' Hs) as (p & l0 & Hp & Hl0 & Hin0); [lia|].
        destruct (Hkeep p l0 _ Hl0 Hin0) as (l1 & Hl1 & Hin1).
        exists p, l1. split; [|done]. rewrite Hold_slot by lia. done.
    + rewrite Hsrc, lookup_insert_ne in Hs' by done.
      destruct (Hrefs src' s' r' Hs' Hr') as (p & l0 & Hp & Hl0 & Hin0).
      destruct (Hkeep p l0 _ Hl0 Hin0) as (l1 & Hl1 & Hin1).
      exists p, l1. done.
  - intros n s' Hn Hs'. rewrite Hsrc, lookup_insert_ne in Hs' by done. by eapply Hothers.
  - by rewrite length_insert.
  - exists s2. split; [done|]. split; [simpl; lia|].
    intros r Hr. simpl in Hr. destruct (decide (r = ri)) as [->|Hneq].
    + exists pn. split; [apply list_lookup_insert_eq; lia|].
      subst s2. simpl. by apply list_lookup_insert_eq.
    + destruct (Hmirror r) as (pn' & Hpn' & Hslot'); [lia|].
      exists pn'. split; [rewrite list_lookup_insert_ne by lia; done|].
      rewrite Hold_slot by lia. done.
Qed.

Lemma cache_wf_lists (tc : GPUTextureCache) (p : nat) (l l' : SourceList) :
  cache_wf tc ->
  m_page_sources tc !! p = Some l -> l' ≡ₚ l ->
  cache_wf (set_page_sources (<[p := l']> (m_page_sources tc)) tc).
Proof.
  intros ((Hlen & Hnd & Hnodes & Hrefs) & Hlinked) Hl Hperm.
  assert (Hlt : (p < length (m_page_sources tc))%nat) by (by eapply lookup_lt_Some).
  split; [split; [|split; [|split]]|done]; simpl.
  - by rewrite length_insert.
  - intros q lq Hlq. destruct (decide (q = p)) as [->|Hq].
    + rewrite list_lookup_insert_eq in Hlq by done. injection Hlq as <-.
      rewrite Hperm. by eapply Hnd.
    + rewrite list_lookup_insert_ne in Hlq by done. by eapply Hnd.
  - intros q lq src ri Hlq Hin. destruct (decide (q = p)) as [->|Hq].
    + rewrite list_lookup_insert_eq in Hlq by done. injection Hlq as <-.
      rewrite Hperm in Hin. by eapply Hnodes.
    + rewrite list_lookup_insert_ne in Hlq by done. by eapply Hnodes.
  - intros src s ri Hs Hri. destruct (Hrefs src s ri Hs Hri) as (q & lq & Hq & Hlq & Hin).
    destruct (decide (q = p)) as [->|Hne].
    + exists p, l'. split; [done|]. split; [by apply list_lookup_insert_eq|].
      assert (lq = l) by (unfold SourceList, SourceListNode in *; congruence). subst lq. by rewrite Hperm.
    + exists q, lq. by rewrite list_lookup_insert_ne.
Qed.

Section KeepsLinks.
Context `{Collaborators}.
Variable g_vram : VRAM.

Lemma CreateSource_wf (k : SourceKey) (tc tc1 : GPUTextureCache)
    (dev dev1 : GPUDevice) (r : option nat) :
  cache_wf tc -> refs_consistent tc ->
  0 <= page k < 2 ^ 8 ->
  CreateSource g_vram k tc dev = Ok (r, tc1, dev1) ->
  cache_wf tc1.
Proof.
  intros Hwf Hcount Hpage Hcreate.
  pose proof Hcreate as Hrun. unfold CreateSource in Hrun.
  apply bind_Ok_inv in Hrun as ([[hcentry tc0] dev0] & Hlook & Hrun).
  pose proof (LookupHashCache_cache _ _ _ _ _ _ _ Hlook) as Hsame.
  destruct hcentry as [hk|].
  2:{ injection Hrun as <- <- <-. rewrite Hsame. exact Hwf. }
  apply bind_Ok_inv in Hrun as (e & He & Hrun).
  apply bind_Ok_inv in Hrun as (st4 & Hfoot & Hrun).
  apply bind_Ok_inv in Hrun as (st5 & Hclut & Hrun).
  injection Hrun as <- <- <-.
  set (hc2 := hc_store hk _ (m_hash_cache tc0)) in *.
  set (s0 := mkSource k 0 (tex_id (he_texture e)) (Some hk) _) in *.
  set (tc3 := set_next_source _ _) in *.
  change (next_source (set_hash_cache hc2 tc0)) with (next_source tc0) in *.
  set (src := next_source tc0) in *.
  assert (Hsrcs : sources tc0 = sources tc) by (rewrite Hsame; done).
  assert (Hlists : m_page_sources tc0 = m_page_sources tc) by (rewrite Hsame; done).
  assert (Hnew : sources tc !! src = None).
  { destruct Hcount as (_ & Hfree & _). apply Hfree. subst src. rewrite Hsame. done. }
  destruct Hwf as ((Hlen & Hnd & Hnodes & Hrefs) & Hlinked).
  assert (H3 : creating src (replicate (Z.to_nat MAX_PAGE_REFS_PER_SOURCE) 0, tc3)).
  { subst tc3. unfold creating, links_sound. simpl. rewrite Hsrcs, Hlists.
    split; [split; [done|split; [done|split]]|split; [|split]].
    - intros p l src' ri Hl Hin. destruct (Hnodes p l src' ri Hl Hin) as (s & Hs & ?).
      exists s. rewrite lookup_insert_ne; [done|]. intros <-. congruence.
    - intros src' s ri Hs Hri. destruct (decide (src' = src)) as [->|Hne].
      + rewrite lookup_insert_eq in Hs. injection Hs as <-. simpl in Hri. lia.
      + rewrite lookup_insert_ne in Hs by done. by eapply Hrefs.
    - intros n s Hn Hs. rewrite lookup_insert_ne in Hs by done. by eapply Hlinked.
    - reflexivity.
    - exists s0. rewrite lookup_insert_eq. split; [done|]. split; [done|].
      intros ri Hri. simpl in Hri. lia. }
  assert (H4 : creating src st4).
  { eapply (LoopPages_inv (add_page_ref src) (creating src)); [| |exact Hfoot]; [|exact H3].
    intros pn a b Hpn Ha Hb.
    by eapply (add_page_ref_with_creating ListPrepend), Ha; [apply ListPrepend_fully| |]. }
  assert (H5 : creating src st5).
  { destruct (is_paletted (mode k)); [|by injection Hclut as <-].
    eapply (LoopPages_inv (add_page_ref_back src) (creating src)); [| |exact Hclut]; [|exact H4].
    intros pn a b Hpn Ha Hb.
    by eapply (add_page_ref_with_creating ListAppend), Ha; [apply ListAppend_fully| |]. }
  destruct H5 as (Hsound & Hothers & _ & s & Hs & _).
  split; [exact Hsound|].
  intros n s' Hs'. destruct (decide (n = src)) as [->|Hne]; [|by eapply Hothers].
  destruct (CreateSource_created g_vram k _ _ _ _ _ Hcreate) as [Hanchor _].
  destruct (Hanchor Hpage) as (s1 & rest & _ & _ & Hhead).
  destruct Hsound as (_ & _ & Hnodes5 & _).
  destruct (Hnodes5 _ _ src 0 Hhead) as (s2 & Hs2 & Hri & _); [left|].
  assert (s2 = s') by (unfold SourceList, SourceListNode in *; congruence). subst s2. lia.
Qed.

(** X27. When the links are sound and the counts right, the links are sound
    after [LookupSource] for a key whose page fits [u8]: a source has at
    most one node on a list, every node belongs to a live source that
    points back to the list, and every source is on a list. *)
Theorem LookupSource_keeps_links (k : SourceKey) (tc tc1 : GPUTextureCache)
    (dev dev1 : GPUDevice) (r : option nat) :
  cache_wf tc -> refs_consistent tc ->
  0 <= page k < 2 ^ 8 ->
  LookupSource g_vram k tc dev = Ok (r, tc1, dev1) ->
  cache_wf tc1.
Proof.
  intros Hwf Hcount Hpage. unfold LookupSource. intros Hrun.
  apply bind_Ok_inv in Hrun as (l & Hl & Hrun). inv_opt Hl.
  apply bind_Ok_inv in Hrun as (hit & Hwalk & Hrun).
  destruct hit as [n|]; [|by eapply CreateSource_wf].
  apply bind_Ok_inv in Hrun as (l' & Hmove & Hrun). injection Hrun as <- <- <-.
  apply (cache_wf_lists tc _ l l' Hwf Hl).
  apply LookupSource_walk_elem in Hwalk.
  unfold ListMoveToFront in Hmove. destruct l as [|h l0]; [discriminate|].
  case_decide; injection Hmove as <-; [done|].
  by apply (list_without_Permutation n (h :: l0)).
Qed.
End KeepsLinks.

Lemma AgeHashCache_consistent (tc : GPUTextureCache) (dev : GPUDevice) :
  refs_consistent tc -> refs_consistent (AgeHashCache tc dev).1.
Proof.
  intros (Hnd & Hfree & Hsize & Hcount).
  destruct (AgeHashCache_referenced tc dev Hnd) as (Hnd' & Hsrc & _ & Hkept & _).
  assert (Hnext : next_source (AgeHashCache tc dev).1 = next_source tc).
  { unfold AgeHashCache.
    destruct (AgeHashCache_pass _ _) as [kept st].
    destruct (might_need_cache_purge st); [|done].
    by destruct (purge_entries _ _ _). }
  unfold refs_consistent. rewrite Hsrc, Hnext.
  split; [done|]. split; [done|]. split; [done|].
  intros hk. rewrite <- Hcount. unfold table_refs.
  destruct (hc_find hk (m_hash_cache (AgeHashCache tc dev).1)) as [e|] eqn:Hafter.
  - apply hc_find_elem in Hafter.
    destruct (AgeHashCache_entries _ _ _ _ Hafter) as (e0 & Hin & _ & Href).
    by rewrite (hc_find_NoDup _ _ _ Hnd Hin).
  - destruct (hc_find hk (m_hash_cache tc)) as [e0|] eqn:Hbefore; [|done].
    destruct (decide (0 < ref_count e0)) as [Hpos|Hzero].
    + rewrite (Hkept hk e0 Hbefore Hpos) in Hafter. discriminate.
    + specialize (Hcount hk). unfold table_refs in Hcount. rewrite Hbefore in Hcount. lia.
Qed.

(** X28. [AgeHashCache] keeps the reference counts right and the links
    sound, and leaves the drawn rectangle alone: it removes no entry that a
    source points to. *)
Theorem AgeHashCache_keeps_invariants (tc : GPUTextureCache) (dev : GPUDevice) :
  refs_consistent tc ->
  refs_consistent (AgeHashCache tc dev).1
  /\ (cache_wf tc -> cache_wf (AgeHashCache tc dev).1)
  /\ m_drawn_rect (AgeHashCache tc dev).1 = m_drawn_rect tc.
Proof.
  intros Hcount. split; [by apply AgeHashCache_consistent|].
  destruct Hcount as (Hnd & _).
  destruct (AgeHashCache_referenced tc dev Hnd) as (_ & Hsrc & Hps & _).
  split.
  - intros Hwf. unfold cache_wf, links_sound. rewrite Hsrc, Hps. exact Hwf.
  - unfold AgeHashCache.
    destruct (AgeHashCache_pass _ _) as [kept st].
    destruct (might_need_cache_purge st); [|done].
    by destruct (purge_entries _ _ _).
Qed.

Lemma empty_cache_wf : cache_wf empty_cache.
Proof.
  split; [split; [reflexivity|split; [|split]]|].
  - intros p l Hl. unfold empty_cache in Hl. cbn [m_page_sources] in Hl.
    apply lookup_replicate in Hl as [-> _]. constructor.
  - intros p l src ri Hl Hin. unfold empty_cache in Hl. cbn [m_page_sources] in Hl.
    apply lookup_replicate in Hl as [-> _]. by apply elem_of_nil in Hin.
  - intros src s ri Hs. unfold empty_cache in Hs. cbn [sources] in Hs.
    by rewrite lookup_empty in Hs.
  - intros src s Hs. unfold empty_cache in Hs. cbn [sources] in Hs.
    by rewrite lookup_empty in Hs.
Qed.

Lemma one_source_cache_list (p : nat) (l : SourceList) :
  m_page_sources one_source_cache !! p = Some l ->
  (p = 1%nat /\ l = [(0%nat, 0)]) \/ l = [].
Proof.
  unfold one_source_cache. cbn [m_page_sources]. intros Hl.
  apply list_lookup_insert_Some in Hl as [(-> & <- & _)|[_ Hl]].
  - by left.
  - right. by apply lookup_replicate in Hl as [-> _].
Qed.

Lemma one_source_cache_wf : cache_wf one_source_cache.
Proof.
  split; [split; [reflexivity|split; [|split]]|].
  - intros p l Hl. apply one_source_cache_list in Hl as [[-> ->]| ->].
    + apply NoDup_singleton.
    + constructor.
  - intros p l src ri Hl Hin. apply one_source_cache_list in Hl as [[-> ->]| ->].
    + apply list_elem_of_singleton in Hin. injection Hin as -> ->.
      eexists. split; [apply lookup_singleton_eq|]. simpl. split; [lia|reflexivity].
    + by apply elem_of_nil in Hin.
  - intros src s ri Hs Hri. unfold one_source_cache in Hs. cbn [sources] in Hs.
    apply lookup_singleton_Some in Hs as [<- <-]. simpl in Hri.
    assert (ri = 0) by lia. subst ri.
    exists 1%nat, [(0%nat, 0)]. split; [reflexivity|]. split; [reflexivity|]. left.
  - intros src s Hs. unfold one_source_cache in Hs. cbn [sources] in Hs.
    apply lookup_singleton_Some in Hs as [<- <-]. simpl. lia.
Qed.

Lemma InvalidatePage_returns_witness :
  cache_wf one_source_cache /\ refs_consistent one_source_cache
  /\ 0 <= 1 < NUM_PAGES
  /\ exists tc', InvalidatePage 1 one_source_cache = Ok tc' /\ cache_wf tc'.
Proof.
  assert (Hpn : 0 <= 1 < NUM_PAGES) by (unfold_consts; lia).
  split; [exact one_source_cache_wf|]. split; [exact one_source_cache_consistent|].
  split; [exact Hpn|].
  destruct (InvalidatePage_returns 1 one_source_cache one_source_cache_wf
              one_source_cache_consistent Hpn) as (tc' & Hrun & Hwf & _).
  exists tc'. split; [exact Hrun | exact Hwf].
Defined.

Lemma InvalidateFromWrite_returns_witness :
  rect_in_vram (m_drawn_rect one_source_cache)
  /\ rect_in_vram (mkRect 64 0 128 16)
  /\ exists tc', InvalidateFromWrite (mkRect 64 0 128 16) one_source_cache = Ok tc'.
Proof.
  assert (Hdrawn : rect_in_vram (m_drawn_rect one_source_cache))
    by (unfold rect_in_vram; simpl; unfold_consts; lia).
  assert (Hrect : rect_in_vram (mkRect 64 0 128 16))
    by (unfold rect_in_vram; simpl; unfold_consts; lia).
  assert (Hw : left (mkRect 64 0 128 16) < right (mkRect 64 0 128 16)) by (simpl; lia).
  assert (Hh : top (mkRect 64 0 128 16) < bottom (mkRect 64 0 128 16)) by (simpl; lia).
  split; [exact Hdrawn|]. split; [exact Hrect|].
  destruct (InvalidateFromWrite_returns (mkRect 64 0 128 16) one_source_cache
              one_source_cache_wf one_source_cache_consistent Hdrawn Hrect Hw Hh)
    as (tc' & Hrun & _).
  exists tc'. exact Hrun.
Defined.

Lemma Clear_returns_witness :
  cache_wf one_source_cache /\ refs_consistent one_source_cache
  /\ exists tc', Clear one_source_cache = Ok tc' /\ sources tc' = ∅.
Proof.
  split; [exact one_source_cache_wf|]. split; [exact one_source_cache_consistent|].
  destruct (Clear_returns one_source_cache one_source_cache_wf one_source_cache_consistent)
    as (tc' & Hrun & _ & _ & _ & Hnone & _).
  exists tc'. split; [exact Hrun | exact Hnone].
Defined.

Lemma LookupSource_keeps_links_witness :
  cache_wf empty_cache /\ refs_consistent empty_cache
  /\ 0 <= page key_p1_4bit < 2 ^ 8
  /\ exists src tc1 dev1,
       first_lookup = Ok (Some src, tc1, dev1) /\ cache_wf tc1.
Proof.
  assert (Hpage : 0 <= page key_p1_4bit < 2 ^ 8) by (simpl; lia).
  assert (Hfound : lookup_found first_lookup = true).
  { vm_cast_no_check (eq_refl true). }
  pose proof (lookup_found_Ok 0%nat first_lookup Hfound) as Hrun.
  split; [exact empty_cache_wf|]. split; [exact empty_cache_consistent|].
  split; [exact Hpage|].
  eexists _, _, _. split; [exact Hrun|].
  exact (LookupSource_keeps_links (H := console) white_vram key_p1_4bit _ _ _ _ _
           empty_cache_wf empty_cache_consistent Hpage Hrun).
Defined.

Lemma AgeHashCache_keeps_invariants_witness :
  refs_consistent one_source_cache
  /\ refs_consistent (AgeHashCache one_source_cache no_texture).1
  /\ cache_wf (AgeHashCache one_source_cache no_texture).1.
Proof.
  split; [exact one_source_cache_consistent|].
  destruct (AgeHashCache_keeps_invariants one_source_cache no_texture
              one_source_cache_consistent) as (Hcount & Hwf & _).
  split; [exact Hcount | exact (Hwf one_source_cache_wf)].
Defined.

(** ** Repeated lookup, with other calls in between *)

Lemma succeeded_pair {A B : Type} (d : A * B) (r : Result (A * B)) :
  succeeded r = true -> r = Ok ((value_or d r).1, (value_or d r).2).
Proof. by destruct r as [[a b]|]. Qed.

Lemma keys_kept_refl (heap : gmap nat Source) : keys_kept heap heap.
Proof. intros n s Hs. eauto. Qed.

Lemma keys_kept_insert (heap : gmap nat Source) (n : nat) (s' : Source) :
  (forall s, heap !! n = Some s -> key s' = key s) ->
  keys_kept heap (<[n := s']> heap).
Proof.
  intros Hkey m s Hs. destruct (decide (m = n)) as [->|Hne].
  - exists s'. rewrite lookup_insert_eq. split; [done|]. by apply Hkey.
  - exists s. by rewrite lookup_insert_ne.
Qed.

(** The walk sees the keys of the owners only. *)
Lemma LookupSource_walk_keys (k : SourceKey) (heap heap' : gmap nat Source)
    (l : SourceList) (m : SourceListNode) :
  keys_kept heap heap' ->
  LookupSource_walk k heap l = Ok (Some m) ->
  LookupSource_walk k heap' l = Ok (Some m).
Proof.
  intros Hkept. induction l as [|n l IH]; simpl; [done|]. intros Hrun.
  apply bind_Ok_inv in Hrun as (s & Hs & Hrun). inv_opt Hs.
  destruct (Hkept _ _ Hs) as (s' & -> & Hkey). simpl. rewrite Hkey.
  case_decide; [done|]. by apply IH.
Qed.

(** A node in front whose owner has another key is passed. *)
Lemma LookupSource_walk_pass (k : SourceKey) (heap : gmap nat Source) (n : SourceListNode)
    (s : Source) (l : SourceList) :
  heap !! n.1 = Some s -> key s <> k ->
  LookupSource_walk k heap (n :: l) = LookupSource_walk k heap l.
Proof. intros Hs Hk. simpl. rewrite Hs. simpl. by rewrite decide_False. Qed.

(** Nodes behind the match are not reached. *)
Lemma LookupSource_walk_app (k : SourceKey) (heap : gmap nat Source) (l l2 : SourceList)
    (m : SourceListNode) :
  LookupSource_walk k heap l = Ok (Some m) ->
  LookupSource_walk k heap (l ++ l2) = Ok (Some m).
Proof.
  induction l as [|n l IH]; simpl; [done|]. intros Hrun.
  apply bind_Ok_inv in Hrun as (s & Hs & Hrun). rewrite Hs. simpl.
  case_decide; [done|]. by apply IH.
Qed.

(** Taking another node off the list leaves the match. *)
Lemma LookupSource_walk_without (k : SourceKey) (heap : gmap nat Source) (l : SourceList)
    (n m : SourceListNode) :
  n <> m ->
  LookupSource_walk k heap l = Ok (Some m) ->
  LookupSource_walk k heap (list_without n l) = Ok (Some m).
Proof.
  intros Hne. induction l as [|h l IH]; simpl; [done|]. intros Hrun.
  apply bind_Ok_inv in Hrun as (s & Hs & Hrun).
  destruct (decide (h = n)) as [->|Hh].
  - destruct (decide (key s = k)) as [Hk|Hk]; [|done]. injection Hrun as <-. done.
  - simpl. rewrite Hs. simpl. destruct (decide (key s = k)); [done|]. by apply IH.
Qed.

Lemma first_match_source (k : SourceKey) (src : nat) (ri : Z) (tc : GPUTextureCache) :
  first_match k src ri tc -> exists s, sources tc !! src = Some s /\ key s = k.
Proof. intros (l & _ & Hwalk). by apply LookupSource_walk_Some in Hwalk. Qed.

Lemma ListPrepend_at_an_end : links_at_an_end ListPrepend.
Proof.
  intros pn src ri tc tc' Hrun. unfold ListPrepend in Hrun.
  apply bind_Ok_inv in Hrun as (l & Hl & Hrun). inv_opt Hl.
  apply bind_Ok_inv in Hrun as (tc1 & Hset & Hrun). injection Hrun as <-.
  destruct (set_node_list_effect _ _ _ _ _ Hset) as (s & refs & Hs & Hps & Hhc & Hsrc).
  exists l, s, (mkSource (key s) (num_page_refs s) (texture s) (from_hash_cache s) refs).
  simpl. rewrite Hps. split; [done|]. split; [done|]. split; [done|]. split; [done|].
  by left.
Qed.

Lemma ListAppend_at_an_end : links_at_an_end ListAppend.
Proof.
  intros pn src ri tc tc' Hrun. unfold ListAppend in Hrun.
  apply bind_Ok_inv in Hrun as (l & Hl & Hrun). inv_opt Hl.
  apply bind_Ok_inv in Hrun as (tc1 & Hset & Hrun). injection Hrun as <-.
  destruct (set_node_list_effect _ _ _ _ _ Hset) as (s & refs & Hs & Hps & Hhc & Hsrc).
  exists l, s, (mkSource (key s) (num_page_refs s) (texture s) (from_hash_cache s) refs).
  simpl. rewrite Hps. split; [done|]. split; [done|]. split; [done|]. split; [done|].
  by right.
Qed.

(** Registering a page for a new source with another key leaves the match
    of the walk for [k]. *)
Lemma add_page_ref_with_first_match
    (link : Z -> nat -> Z -> GPUTextureCache -> Result GPUTextureCache)
    (k k' : SourceKey) (src new : nat) (ri pn : Z) (st st' : list Z * GPUTextureCache) :
  links_at_an_end link -> k' <> k ->
  add_page_ref_with link new pn st = Ok st' ->
  first_match k src ri st.2 /\ (exists s, sources st.2 !! new = Some s /\ key s = k') ->
  first_match k src ri st'.2 /\ (exists s, sources st'.2 !! new = Some s /\ key s = k').
Proof.
  intros Hlink Hne. destruct st as [refns tc]. unfold add_page_ref_with. simpl.
  intros Hrun [(l & Hl & Hwalk) (s & Hs & Hk)].
  rewrite Hs in Hrun. simpl in Hrun.
  destruct (existsb _ _).
  { injection Hrun as <-. simpl. split; [by exists l|eauto]. }
  apply bind_Ok_inv in Hrun as (old & _ & Hrun).
  apply bind_Ok_inv in Hrun as (tc2 & Hrun2 & Hrun). injection Hrun as <-. simpl.
  destruct (Hlink _ _ _ _ _ Hrun2) as (l0 & s1 & s2 & Hl0 & Hs1 & Hkey & Hsrc & Hps).
  simpl in Hl0, Hs1, Hsrc, Hps. rewrite lookup_insert_eq in Hs1. injection Hs1 as <-.
  simpl in Hkey. rewrite insert_insert_eq in Hsrc.
  assert (Hs2 : sources tc2 !! new = Some s2) by (rewrite Hsrc; apply lookup_insert_eq).
  assert (Hk2 : key s2 = k') by congruence.
  assert (Hkept : keys_kept (sources tc) (sources tc2)).
  { rewrite Hsrc. apply keys_kept_insert. intros s0 Hs0.
    assert (s0 = s) by congruence. subst s0. done. }
  apply (LookupSource_walk_keys _ _ _ _ _ Hkept) in Hwalk.
  split; [|eauto].
  unfold first_match. unfold SourceList, SourceListNode in *.
  assert (Hlt : (Z.to_nat pn < length (m_page_sources tc))%nat) by (by eapply lookup_lt_Some).
  destruct (decide (Z.to_nat (page k) = Z.to_nat pn)) as [Heq|Hother].
  - rewrite Heq in *. assert (l0 = l) by congruence. subst l0.
    destruct Hps as [-> | ->]; rewrite list_lookup_insert_eq by done.
    + exists ((new, num_page_refs s) :: l). split; [done|].
      rewrite (LookupSource_walk_pass k _ (new, num_page_refs s) s2); [done|done|congruence].
    + exists (l ++ [(new, num_page_refs s)]). split; [done|].
      by apply LookupSource_walk_app.
  - exists l. split; [|done].
    destruct Hps as [-> | ->]; by rewrite list_lookup_insert_ne.
Qed.

Section Repeated.
Context `{Collaborators}.
Variable g_vram : VRAM.

Lemma CreateSource_alloc_fresh (k : SourceKey) (tc tc1 : GPUTextureCache)
    (dev dev1 : GPUDevice) (r : option nat) :
  alloc_fresh tc ->
  CreateSource g_vram k tc dev = Ok (r, tc1, dev1) ->
  alloc_fresh tc1.
Proof.
  intros Hfree Hrun. unfold CreateSource in Hrun.
  apply bind_Ok_inv in Hrun as ([[hcentry tc0] dev0] & Hlook & Hrun).
  apply LookupHashCache_cache in Hlook.
  destruct hcentry as [hk|]; [|injection Hrun as <- <- <-; by rewrite Hlook].
  apply bind_Ok_inv in Hrun as (e & He & Hrun).
  apply bind_Ok_inv in Hrun as (st4 & Hfoot & Hrun).
  apply bind_Ok_inv in Hrun as (st5 & Hclut & Hrun).
  injection Hrun as <- <- <-.
  set (hc2 := hc_store hk _ (m_hash_cache tc0)) in *.
  set (s0 := mkSource k 0 (tex_id (he_texture e)) (Some hk) _) in *.
  set (tc3 := set_next_source _ _) in *.
  change (next_source (set_hash_cache hc2 tc0)) with (next_source tc0) in *.
  assert (H4 : only_linked (next_source tc0) tc3 st4.2).
  { eapply (LoopPages_inv (add_page_ref (next_source tc0))
              (fun st => only_linked (next_source tc0) tc3 st.2));
      [| |exact Hfoot]; [|apply only_linked_refl].
    intros pn a b _ Ha Hb. eapply only_linked_trans; [exact Ha|].
    by eapply (add_page_ref_with_own ListPrepend), Hb; apply ListPrepend_own. }
  assert (H5 : only_linked (next_source tc0) tc3 st5.2).
  { destruct (is_paletted (mode k)); [|by injection Hclut as <-].
    eapply (LoopPages_inv (add_page_ref_back (next_source tc0))
              (fun st => only_linked (next_source tc0) tc3 st.2));
      [| |exact Hclut]; [|exact H4].
    intros pn a b _ Ha Hb. eapply only_linked_trans; [exact Ha|].
    by eapply (add_page_ref_with_own ListAppend), Hb; apply ListAppend_own. }
  destruct H5 as (Hs & _ & _ & _ & Hn).
  intros n Hle. rewrite Hn in Hle. subst tc3. simpl in Hle.
  rewrite Hs by lia. simpl. rewrite lookup_insert_ne by lia.
  rewrite Hlook. simpl. apply Hfree. rewrite Hlook in Hle. simpl in Hle. lia.
Qed.

(** A source created for another key leaves the match of the walk for
    [k]. *)
Lemma CreateSource_first_match (k k' : SourceKey) (src : nat) (ri : Z)
    (tc tc1 : GPUTextureCache) (dev dev1 : GPUDevice) (r : option nat) :
  alloc_fresh tc -> k' <> k ->
  first_match k src ri tc ->
  CreateSource g_vram k' tc dev = Ok (r, tc1, dev1) ->
  first_match k src ri tc1.
Proof.
  intros Hfree Hne (l & Hl & Hwalk) Hrun. unfold CreateSource in Hrun.
  apply bind_Ok_inv in Hrun as ([[hcentry tc0] dev0] & Hlook & Hrun).
  apply LookupHashCache_cache in Hlook.
  destruct hcentry as [hk|].
  2:{ injection Hrun as <- <- <-. rewrite Hlook. by exists l. }
  apply bind_Ok_inv in Hrun as (e & He & Hrun).
  apply bind_Ok_inv in Hrun as (st4 & Hfoot & Hrun).
  apply bind_Ok_inv in Hrun as (st5 & Hclut & Hrun).
  injection Hrun as <- <- <-.
  set (hc2 := hc_store hk _ (m_hash_cache tc0)) in *.
  set (s0 := mkSource k' 0 (tex_id (he_texture e)) (Some hk) _) in *.
  set (tc3 := set_next_source _ _) in *.
  change (next_source (set_hash_cache hc2 tc0)) with (next_source tc0) in *.
  set (new := next_source tc0) in *.
  assert (Hnew : sources tc !! new = None).
  { apply Hfree. subst new. rewrite Hlook. done. }
  assert (H3 : first_match k src ri tc3
               /\ exists s, sources tc3 !! new = Some s /\ key s = k').
  { subst tc3. unfold first_match. simpl. rewrite Hlook. simpl. split.
    - exists l. split; [done|].
      apply (LookupSource_walk_keys k (sources tc)); [|done].
      apply keys_kept_insert. intros s Hs. congruence.
    - exists s0. by rewrite lookup_insert_eq. }
  assert (H4 : first_match k src ri st4.2
               /\ exists s, sources st4.2 !! new = Some s /\ key s = k').
  { eapply (LoopPages_inv (add_page_ref new)
              (fun st => first_match k src ri st.2
                         /\ exists s, sources st.2 !! new = Some s /\ key s = k'));
      [| |exact Hfoot]; [|exact H3].
    intros pn a b _ Ha Hb.
    by eapply (add_page_ref_with_first_match ListPrepend), Ha;
      [apply ListPrepend_at_an_end| |]. }
  destruct (is_paletted (mode k')); [|injection Hclut as <-; by destruct H4].
  eapply (LoopPages_inv (add_page_ref_back new)
            (fun st => first_match k src ri st.2
                       /\ exists s, sources st.2 !! new = Some s /\ key s = k'));
    [| |exact Hclut]; [|exact H4].
  intros pn a b _ Ha Hb.
  by eapply (add_page_ref_with_first_match ListAppend), Ha;
    [apply ListAppend_at_an_end| |].
Qed.

(** A lookup of any key in between leaves the match of the walk for [k]
    and the free addresses. *)
Lemma LookupSource_first_match (k k' : SourceKey) (src : nat) (ri : Z)
    (tc tc1 : GPUTextureCache) (dev dev1 : GPUDevice) (r : option nat) :
  alloc_fresh tc ->
  first_match k src ri tc ->
  LookupSource g_vram k' tc dev = Ok (r, tc1, dev1) ->
  alloc_fresh tc1 /\ first_match k src ri tc1.
Proof.
  intros Hfree Hmatch Hrun.
  pose proof Hmatch as (l & Hl & Hwalk).
  destruct (first_match_source _ _ _ _ Hmatch) as (s & Hs & Hk).
  unfold LookupSource in Hrun.
  apply bind_Ok_inv in Hrun as (l' & Hl' & Hrun). inv_opt Hl'.
  apply bind_Ok_inv in Hrun as (hit & Hwalk' & Hrun).
  unfold SourceList, SourceListNode in *.
  destruct hit as [n|].
  - apply bind_Ok_inv in Hrun as (moved & Hmove & Hrun). injection Hrun as <- <- <-.
    split; [done|].
    destruct (LookupSource_walk_Some _ _ _ _ Hwalk') as (sn & Hsn & Hkn).
    assert (Hlt : (Z.to_nat (page k') < length (m_page_sources tc))%nat)
      by (by eapply lookup_lt_Some).
    unfold first_match. simpl.
    destruct (decide (Z.to_nat (page k) = Z.to_nat (page k'))) as [Heq|Hother].
    2:{ exists l. by rewrite list_lookup_insert_ne. }
    rewrite Heq in *. assert (l' = l) by congruence. subst l'.
    rewrite list_lookup_insert_eq by done. exists moved. split; [done|].
    unfold ListMoveToFront in Hmove. destruct l as [|h l0]; [discriminate|].
    case_decide as Hh; injection Hmove as <-; [done|].
    destruct (decide (k' = k)) as [->|Hne].
    + assert (n = (src, ri)) by congruence. subst n.
      simpl. rewrite Hs. simpl. by rewrite decide_True.
    + rewrite (LookupSource_walk_pass k _ n sn) by congruence.
      apply (LookupSource_walk_without k (sources tc) (h :: l0)); [|done].
      intros ->. simpl in Hsn. congruence.
  - assert (Hne : k' <> k).
    { intros ->. assert (l' = l) by congruence. subst l'. congruence. }
    split; [by eapply CreateSource_alloc_fresh|by eapply CreateSource_first_match].
Qed.

Lemma AgeHashCache_links (tc : GPUTextureCache) (dev : GPUDevice) :
  sources (AgeHashCache tc dev).1 = sources tc
  /\ m_page_sources (AgeHashCache tc dev).1 = m_page_sources tc
  /\ next_source (AgeHashCache tc dev).1 = next_source tc.
Proof.
  unfold AgeHashCache.
  destruct (AgeHashCache_pass _ _) as [kept st].
  destruct (might_need_cache_purge st); [|done].
  by destruct (purge_entries _ _ _).
Qed.

Lemma run_between_first_match (k : SourceKey) (src : nat) (ri : Z) (ops : list BetweenOp)
    (st st' : GPUTextureCache * GPUDevice) :
  alloc_fresh st.1 ->
  first_match k src ri st.1 ->
  run_between g_vram ops st = Ok st' ->
  alloc_fresh st'.1 /\ first_match k src ri st'.1.
Proof.
  revert st. induction ops as [|op ops IH]; intros st Hfree Hmatch Hrun; simpl in Hrun.
  - by injection Hrun as <-.
  - apply bind_Ok_inv in Hrun as (st1 & Hop & Hrun).
    apply (IH st1); [| |exact Hrun].
    + destruct op as [k'|rect|]; simpl in Hop.
      * apply bind_Ok_inv in Hop as ([[r tc1] dev1] & Hlook & Hop). injection Hop as <-.
        by destruct (LookupSource_first_match k k' src ri _ _ _ _ _ Hfree Hmatch Hlook).
      * injection Hop as <-. simpl. unfold UpdateDrawnRect.
        by destruct (rect_within _ _).
      * injection Hop as <-. destruct (AgeHashCache_links st.1 st.2) as (Hs & _ & Hn).
        intros n Hle. rewrite Hs. apply Hfree. by rewrite <- Hn.
    + destruct op as [k'|rect|]; simpl in Hop.
      * apply bind_Ok_inv in Hop as ([[r tc1] dev1] & Hlook & Hop). injection Hop as <-.
        by destruct (LookupSource_first_match k k' src ri _ _ _ _ _ Hfree Hmatch Hlook).
      * injection Hop as <-. simpl. unfold UpdateDrawnRect.
        by destruct (rect_within _ _).
      * injection Hop as <-. destruct (AgeHashCache_links st.1 st.2) as (Hs & Hp & _).
        unfold first_match. by rewrite Hs, Hp.
Qed.

(** C7. When [LookupSource] has returned a source for a key, and lookups of
    any keys, draws and ageing passes have run since (no invalidation, no
    clear, the same VRAM), [LookupSource] for the key returns the same
    source: the walk stops at a node of it, whatever nodes were put in front
    of it; that node goes to the front of the list of the primary page, the
    others keeping their order; and nothing else is written: no [Source] and
    no table entry is allocated, no reference count changes, the device is
    not called. Called again at once, it leaves the state as it is, the node
    being at the front already. *)
Theorem LookupSource_twice (k : SourceKey) (tc tc1 tc2 : GPUTextureCache)
    (dev dev1 dev2 : GPUDevice) (src : nat) (ops : list BetweenOp) :
  alloc_fresh tc ->
  0 <= page k < 2 ^ 8 ->
  LookupSource g_vram k tc dev = Ok (Some src, tc1, dev1) ->
  run_between g_vram ops (tc1, dev1) = Ok (tc2, dev2) ->
  LookupSource g_vram k tc1 dev1 = Ok (Some src, tc1, dev1)
  /\ (exists ri rest s,
        m_page_sources tc1 !! Z.to_nat (page k) = Some ((src, ri) :: rest)
        /\ sources tc1 !! src = Some s /\ key s = k)
  /\ exists ri l s,
       m_page_sources tc2 !! Z.to_nat (page k) = Some l
       /\ LookupSource_walk k (sources tc2) l = Ok (Some (src, ri))
       /\ (src, ri) ∈ l
       /\ sources tc2 !! src = Some s /\ key s = k
       /\ LookupSource g_vram k tc2 dev2
          = Ok (Some src,
                set_page_sources
                  (<[Z.to_nat (page k) := (src, ri) :: list_without (src, ri) l]>
                     (m_page_sources tc2)) tc2,
                dev2).
Proof.
  intros Hfree Hpage Hfirst Hbetween.
  destruct (LookupSource_immediately g_vram k tc tc1 dev dev1 src Hpage Hfirst)
    as (Hagain & ri1 & rest & s1 & Hhead & Hs1 & Hk1).
  split; [exact Hagain|]. split; [by exists ri1, rest, s1|].
  assert (Hmatch1 : first_match k src ri1 tc1).
  { exists ((src, ri1) :: rest). split; [done|]. simpl. rewrite Hs1. simpl.
    by rewrite decide_True. }
  assert (Hfree1 : alloc_fresh tc1).
  { unfold LookupSource in Hfirst.
    apply bind_Ok_inv in Hfirst as (l0 & _ & Hfirst).
    apply bind_Ok_inv in Hfirst as (hit & _ & Hfirst).
    destruct hit as [n|]; [|by eapply CreateSource_alloc_fresh].
    apply bind_Ok_inv in Hfirst as (moved & _ & Hfirst). by injection Hfirst as <- <- <-. }
  destruct (run_between_first_match k src ri1 ops (tc1, dev1) (tc2, dev2) Hfree1 Hmatch1
              Hbetween) as [_ Hmatch2].
  pose proof Hmatch2 as (l & Hl & Hwalk). simpl in Hl, Hwalk.
  destruct (first_match_source _ _ _ _ Hmatch2) as (s & Hs & Hk). simpl in Hs.
  exists ri1, l, s. split; [done|]. split; [done|].
  split; [by eapply LookupSource_walk_elem|]. split; [done|]. split; [done|].
  unfold LookupSource. unfold SourceList, SourceListNode in *.
  rewrite Hl. simpl. rewrite Hwalk. simpl.
  destruct l as [|h l0]; [discriminate|].
  unfold ListMoveToFront. case_decide as Hh; simpl.
  - subst h. by rewrite decide_True.
  - by rewrite decide_False.
Qed.
End Repeated.

Lemma empty_cache_alloc_fresh : alloc_fresh empty_cache.
Proof. intros n _. apply lookup_empty. Qed.

Lemma LookupSource_twice_witness :
  alloc_fresh empty_cache
  /\ 0 <= page key_p1_4bit < 2 ^ 8
  /\ exists tc1 dev1 tc2 dev2,
       LookupSource (H := console) white_vram key_p1_4bit empty_cache two_textures
       = Ok (Some 0%nat, tc1, dev1)
       /\ run_between (H := console) white_vram [BetweenLookup key_p1_4bit_b; BetweenAge]
            (tc1, dev1) = Ok (tc2, dev2)
       /\ m_page_sources tc2 !! Z.to_nat (page key_p1_4bit) = Some [(1%nat, 0); (0%nat, 0)]
       /\ LookupSource (H := console) white_vram key_p1_4bit tc2 dev2
          = Ok (Some 0%nat,
                set_page_sources
                  (<[Z.to_nat (page key_p1_4bit) := [(0%nat, 0); (1%nat, 0)]]>
                     (m_page_sources tc2)) tc2,
                dev2).
Proof.
  assert (Hpage : 0 <= page key_p1_4bit < 2 ^ 8) by (simpl; lia).
  assert (Hsrc : result_source first_lookup = Some 0%nat).
  { vm_cast_no_check (eq_refl (Some 0%nat)). }
  pose proof (result_source_Some first_lookup 0%nat Hsrc) as Hfirst.
  assert (Hok : succeeded between_calls = true).
  { vm_cast_no_check (eq_refl true). }
  pose proof (succeeded_pair (empty_cache, no_texture) between_calls Hok) as Hbetween.
  assert (Hlist : m_page_sources (value_or (empty_cache, no_texture) between_calls).1
                    !! Z.to_nat (page key_p1_4bit)
                  = Some [(1%nat, 0); (0%nat, 0)]).
  { vm_cast_no_check (eq_refl (Some [(1%nat, 0); (0%nat, 0)])). }
  split; [exact empty_cache_alloc_fresh|]. split; [exact Hpage|].
  eexists _, _, _, _. split; [exact Hfirst|]. split; [exact Hbetween|].
  split; [exact Hlist|].
  destruct (LookupSource_twice (H := console) white_vram key_p1_4bit _ _ _ _ _ _ _ _
              empty_cache_alloc_fresh Hpage Hfirst Hbetween)
    as (_ & _ & ri & l & s & Hl & _ & Hin & _ & _ & Hrun).
  assert (Heq : l = [(1%nat, 0); (0%nat, 0)]).
  { clear -Hl Hlist. unfold SourceList, SourceListNode in *.
    rewrite Hlist in Hl. by injection Hl. }
  subst l.
  assert (Hri : ri = 0).
  { clear -Hin. apply elem_of_cons in Hin as [Hin|Hin]; [discriminate Hin|].
    apply list_elem_of_singleton in Hin. by injection Hin. }
  subst ri. exact Hrun.
Defined.
